(** * A shallow embedding of the neural-network classes of [src/models]

    The three classes [SGDNeuralNet], [BackpropNeuralNet] and
    [ConvolutionNet] are Python objects whose methods read and assign
    attributes, index lists and dictionaries, and raise exceptions.  They
    are embedded as computations in a state-and-exception monad over the
    object's attributes.

    - numpy's [float64] is the kernel's binary64 type [float];
    - an [ndarray] is its shape together with its row-major data;
    - [self.params] is a list of dictionaries ([gmap string ndarray]);
    - [self.layers] of [ConvolutionNet] is a list of references into a
      store of layer objects, since one object may stand at several
      positions of the list;
    - list subscripts are Python's: an integer, negative ones counting
      from the end, [IndexError] out of range;
    - the functions imported from the package [common], which is not part
      of the sources at hand, are the fields of the class [Common]. *)

From Stdlib Require Import ZArith List Floats Lia Bool.
From Stdlib Require Uint63.
From stdpp Require Import base functions gmap strings list sorting.

Set Default Proof Using "Type".

(** ** Binary64 arithmetic *)

Module F64.

(** Python's literal [1e-4]. *)
Definition h : float := 0x1.a36e2eb1c432dp-14%float.
Definition zero : float := 0%float.
Definition one : float := 1%float.
Definition two : float := 2%float.

(** [float(n)] for an integer [n] in the range of numpy's [int64]
    (an array extent, or a count returned by [np.sum]): rounding to
    nearest, ties to even. *)
Definition of_Z (n : Z) : float := PrimFloat.of_uint63 (Uint63.of_Z n).

Definition is_nan (x : float) : bool := negb (PrimFloat.eqb x x).

Definition is_neg_zero (x : float) : Prop := Prim2SF x = S754_zero true.

(** A positive finite number: what a learning rate is. *)
Definition pos_finite (x : float) : Prop :=
  PrimFloat.ltb zero x = true /\ PrimFloat.ltb x infinity = true.

Lemma Prim2SF_inj (x y : float) : Prim2SF x = Prim2SF y -> x = y.
Proof.
  intros E. rewrite <- (SF2Prim_Prim2SF x), <- (SF2Prim_Prim2SF y).
  now rewrite E.
Qed.

Lemma sub_zero (x : float) : PrimFloat.sub x zero = x.
Proof.
  apply Prim2SF_inj. rewrite FloatAxioms.sub_spec.
  change (Prim2SF zero) with (S754_zero false).
  destruct (Prim2SF x) as [[|]| [|] | | [|] m e]; reflexivity.
Qed.

Lemma add_zero (x : float) :
  ~ is_neg_zero x -> PrimFloat.add x zero = x.
Proof.
  intros Hx. apply Prim2SF_inj. rewrite FloatAxioms.add_spec.
  change (Prim2SF zero) with (S754_zero false).
  unfold is_neg_zero in Hx.
  destruct (Prim2SF x) as [[|]| [|] | | [|] m e]; try reflexivity.
  now destruct Hx.
Qed.

Lemma add_zero_neg_zero (x : float) :
  is_neg_zero x -> PrimFloat.add x zero = zero.
Proof.
  intros Hx. apply Prim2SF_inj. rewrite FloatAxioms.add_spec.
  change (Prim2SF zero) with (S754_zero false).
  unfold is_neg_zero in Hx. now rewrite Hx.
Qed.

Lemma pos_finite_spec (x : float) :
  pos_finite x -> exists m e, Prim2SF x = S754_finite false m e.
Proof.
  unfold pos_finite. rewrite !FloatAxioms.ltb_spec.
  change (Prim2SF zero) with (S754_zero false).
  change (Prim2SF infinity) with (S754_infinity false).
  unfold SFltb, SFcompare.
  destruct (Prim2SF x) as [[|]| [|] | | [|] m e]; intros [H1 H2];
    try discriminate; eauto.
Qed.

Lemma mul_pos_zero (x : float) :
  pos_finite x -> PrimFloat.mul x zero = zero.
Proof.
  intros (m & e & Hx)%pos_finite_spec. apply Prim2SF_inj.
  rewrite FloatAxioms.mul_spec, Hx. reflexivity.
Qed.

(** With a positive finite step and a gradient component [+0.0], the
    update [x - lr * 0.0] gives [x] back, bit for bit. *)
Lemma sub_mul_zero (lr x : float) :
  pos_finite lr -> PrimFloat.sub x (PrimFloat.mul lr zero) = x.
Proof. intros Hlr. rewrite mul_pos_zero by assumption. apply sub_zero. Qed.

  (** *** Conversion of integers and exact quotients *)

Lemma digits2_pos_size p : digits2_pos p = Pos.size p.
Proof. induction p; simpl; congruence. Qed.

Lemma Zdigits2_log2 p : Zdigits2 (Zpos p) = (Z.log2 (Zpos p) + 1)%Z.
Proof.
  simpl. rewrite digits2_pos_size. destruct p; simpl; lia.
Qed.

Lemma shr_1_m mrs : (0 <= shr_m mrs)%Z -> shr_m (shr_1 mrs) = (shr_m mrs / 2)%Z.
Proof.
  destruct mrs as [m r s]. simpl. intros Hm.
  destruct m as [|[p|p|]|p]; simpl; try reflexivity; try lia.
  - rewrite Pos2Z.inj_xI. apply Z.div_unique with 1%Z; lia.
  - rewrite Pos2Z.inj_xO. apply Z.div_unique with 0%Z; lia.
Qed.

Lemma pow2_xO k : (2 ^ Zpos k~0 = 2 ^ Zpos k * 2 ^ Zpos k)%Z.
Proof. rewrite <- Z.pow_add_r by lia. f_equal. lia. Qed.

Lemma pow2_xI k : (2 ^ Zpos k~1 = 2 * (2 ^ Zpos k * 2 ^ Zpos k))%Z.
Proof.
  rewrite <- Z.pow_add_r, <- Z.pow_succ_r by lia. f_equal. lia.
Qed.

Lemma iter_pos_shr_1_m k : forall mrs, (0 <= shr_m mrs)%Z ->
  shr_m (SpecFloat.iter_pos shr_1 k mrs) = (shr_m mrs / 2 ^ Zpos k)%Z.
Proof.
  induction k as [k IH|k IH|]; intros mrs Hm; simpl SpecFloat.iter_pos.
  - assert (H1 : (0 <= shr_m (shr_1 mrs))%Z).
    { rewrite shr_1_m by done. apply Z.div_pos; lia. }
    assert (H2 : (0 <= shr_m (SpecFloat.iter_pos shr_1 k (shr_1 mrs)))%Z).
    { rewrite IH by done. apply Z.div_pos; lia. }
    rewrite IH, IH, shr_1_m by done.
    rewrite !Z.div_div by lia. now rewrite pow2_xI.
  - assert (H2 : (0 <= shr_m (SpecFloat.iter_pos shr_1 k mrs))%Z).
    { rewrite IH by done. apply Z.div_pos; lia. }
    rewrite IH, IH by done.
    rewrite !Z.div_div by lia. now rewrite pow2_xO.
  - rewrite shr_1_m by done. reflexivity.
Qed.

Lemma shr_m_e mrs e n :
  (0 <= shr_m mrs)%Z ->
  shr_m (fst (shr mrs e n)) = (shr_m mrs / 2 ^ Z.max 0 n)%Z /\
  snd (shr mrs e n) = (e + Z.max 0 n)%Z.
Proof.
  intros Hm. destruct n as [|k|k]; simpl.
  - rewrite Z.div_1_r. lia.
  - rewrite iter_pos_shr_1_m by done. split; [reflexivity|lia].
  - rewrite Z.div_1_r. lia.
Qed.

Lemma shr_record_of_loc_m m l : shr_m (shr_record_of_loc m l) = m.
Proof. destruct l as [|[| |]]; reflexivity. Qed.

Lemma round_nearest_even_range m l :
  round_nearest_even m l = m \/ round_nearest_even m l = (m + 1)%Z.
Proof. destruct l as [|[| |]]; simpl; auto. destruct (Z.even m); auto. Qed.

Lemma Zdigits2_log2_Z m : (0 < m)%Z -> Zdigits2 m = (Z.log2 m + 1)%Z.
Proof. destruct m; try lia. intros _. apply Zdigits2_log2. Qed.

Lemma binary_round_aux_finite s (m : positive) e l :
  (53 <= Z.log2 (Zpos m) + 1)%Z -> (-1074 <= e)%Z ->
  (Z.log2 (Zpos m) + e <= 1022)%Z ->
  exists m' e', binary_round_aux prec emax s (Zpos m) e l = S754_finite s m' e'.
Proof.
  intros HD He Hmax. unfold binary_round_aux, shr_fexp.
  rewrite Zdigits2_log2.
  set (D := (Z.log2 (Zpos m) + 1)%Z) in *.
  assert (Hf : fexp prec emax (D + e) = (D + e - 53)%Z).
  { unfold fexp, emin, prec, emax. lia. }
  rewrite Hf.
  pose proof (shr_m_e (shr_record_of_loc (Zpos m) l) e (D + e - 53 - e)) as [Hq He1].
  { rewrite shr_record_of_loc_m. lia. }
  destruct (shr (shr_record_of_loc (Z.pos m) l) e (D + e - 53 - e)) as [mrs1 e1].
  simpl in Hq, He1. rewrite shr_record_of_loc_m in Hq.
  replace (Z.max 0 (D + e - 53 - e)) with (D - 53)%Z in * by lia.
  assert (Hlog := Z.log2_spec (Zpos m) ltac:(lia)).
  assert (Hqr : (2 ^ 52 <= shr_m mrs1 < 2 ^ 53)%Z).
  { rewrite Hq. replace (Z.succ (Z.log2 (Zpos m))) with D in Hlog by lia.
    replace (Z.log2 (Zpos m)) with (D - 1)%Z in Hlog by lia.
    assert (H2 : (0 < 2 ^ (D - 53))%Z) by (apply Z.pow_pos_nonneg; lia).
    split.
    - apply Z.div_le_lower_bound; [lia|].
      rewrite <- Z.pow_add_r by lia. replace (D - 53 + 52)%Z with (D - 1)%Z by lia. lia.
    - apply Z.div_lt_upper_bound; [lia|].
      rewrite <- Z.pow_add_r by lia. replace (D - 53 + 53)%Z with D by lia. lia. }
  set (r := round_nearest_even (shr_m mrs1) (loc_of_shr_record mrs1)).
  assert (Hr : (2 ^ 52 <= r <= 2 ^ 53)%Z).
  { destruct (round_nearest_even_range (shr_m mrs1) (loc_of_shr_record mrs1)) as [E|E];
      fold r in E; rewrite E; lia. }
  assert (Hrpos : (0 < r)%Z) by lia.
  rewrite (Zdigits2_log2_Z r Hrpos).
  assert (HD2 : (Z.log2 r = 52 \/ Z.log2 r = 53)%Z).
  { assert (52 <= Z.log2 r)%Z by (apply Z.log2_le_pow2; lia).
    assert (Z.log2 r <= 53)%Z.
    { destruct (Z.eq_dec r (2 ^ 53)%Z) as [->|]; [rewrite Z.log2_pow2; lia|].
      assert (Z.log2 r < 53)%Z by (apply Z.log2_lt_pow2; lia). lia. }
    lia. }
  assert (Hf2 : fexp prec emax (Z.log2 r + 1 + e1) = (Z.log2 r + 1 + e1 - 53)%Z).
  { unfold fexp, emin, prec, emax. lia. }
  rewrite Hf2.
  pose proof (shr_m_e (shr_record_of_loc r loc_Exact) e1 (Z.log2 r + 1 + e1 - 53 - e1)) as [Hq2 He2].
  { simpl. lia. }
  destruct (shr (shr_record_of_loc r loc_Exact) e1 (Z.log2 r + 1 + e1 - 53 - e1)) as [mrs2 e2].
  simpl in Hq2, He2.
  assert (Hm2 : (0 < shr_m mrs2)%Z).
  { rewrite Hq2. destruct HD2 as [E|E]; rewrite E.
    - replace (Z.max 0 (52 + 1 + e1 - 53 - e1)) with 0%Z by lia.
      rewrite Z.div_1_r. lia.
    - replace (Z.max 0 (53 + 1 + e1 - 53 - e1)) with 1%Z by lia.
      apply Z.div_str_pos. lia. }
  destruct (shr_m mrs2) as [|m2|m2]; try lia.
  assert (Hle : (e2 <=? emax - prec)%Z = true).
  { apply Z.leb_le. unfold emax, prec. lia. }
  rewrite Hle. eauto.
Qed.

Lemma iter_xO_Z p k : Zpos (Pos.iter xO p k) = (Zpos p * 2 ^ Zpos k)%Z.
Proof.
  induction k as [|k IH] using Pos.peano_ind.
  - simpl. lia.
  - rewrite Pos.iter_succ, Pos2Z.inj_xO, IH, Pos2Z.inj_succ, Z.pow_succ_r by lia. lia.
Qed.

Lemma binary_normalize_pos_finite p :
  (Zpos p < 2 ^ 63)%Z ->
  exists m e, binary_normalize prec emax (Zpos p) 0 false = S754_finite false m e.
Proof.
  intros Hp. unfold binary_normalize, binary_round.
  change (Zpos (digits2_pos p)) with (Zdigits2 (Zpos p)).
  rewrite Zdigits2_log2.
  assert (Hlog := Z.log2_spec (Zpos p) ltac:(lia)).
  assert (Hl0 : (0 <= Z.log2 (Zpos p))%Z) by apply Z.log2_nonneg.
  assert (Hl : (Z.log2 (Zpos p) < 63)%Z) by (apply Z.log2_lt_pow2; lia).
  assert (Hf : fexp prec emax (Z.log2 (Zpos p) + 1 + 0) = (Z.log2 (Zpos p) - 52)%Z).
  { unfold fexp, emin, prec, emax. lia. }
  rewrite Hf. unfold shl_align.
  destruct (Z.log2 (Zpos p) - 52 - 0)%Z as [|k|k] eqn:Ek.
  - apply binary_round_aux_finite; lia.
  - apply binary_round_aux_finite; lia.
  - assert (Hm : Z.log2 (Zpos (Pos.iter xO p k)) = 52%Z).
    { rewrite iter_xO_Z, Z.log2_mul_pow2 by lia. lia. }
    apply binary_round_aux_finite; lia.
Qed.

Lemma of_Z_finite n : (0 < n < 2 ^ 63)%Z ->
  exists m e, Prim2SF (of_Z n) = S754_finite false m e.
Proof.
  intros Hn. unfold of_Z. rewrite of_uint63_spec, Uint63.of_Z_spec.
  rewrite Z.mod_small by (change Uint63.wB with (2 ^ 63)%Z; lia).
  destruct n as [|p|p]; try lia. apply binary_normalize_pos_finite. lia.
Qed.

Lemma SFdiv_self s m e :
  SFdiv prec emax (S754_finite s m e) (S754_finite s m e) = Prim2SF 1%float.
Proof.
  unfold SFdiv, SFdiv_core_binary.
  replace (Zdigits2 (Zpos m) + e - (Zdigits2 (Zpos m) + e))%Z with 0%Z by lia.
  replace (e - e)%Z with 0%Z by lia.
  change (Z.min (fexp prec emax 0) 0) with (-53)%Z.
  change (0 - -53)%Z with 53%Z. cbv iota.
  rewrite Z.shiftl_mul_pow2 by lia.
  assert (E : Z.div_eucl (Zpos m * 2 ^ 53) (Zpos m) = ((2 ^ 53)%Z, 0%Z)).
  { pose proof (Z.div_eucl_eq (Zpos m * 2 ^ 53) (Zpos m) ltac:(lia)) as H.
    pose proof (Z.mod_pos_bound (Zpos m * 2 ^ 53) (Zpos m) ltac:(lia)) as Hb.
    unfold Z.modulo in Hb.
    destruct (Z.div_eucl (Zpos m * 2 ^ 53) (Zpos m)) as [q r].
    assert (r = 0%Z /\ q = (2^53)%Z) as [-> ->]; [|reflexivity].
    assert (Zpos m * (2 ^ 53 - q) = r)%Z by lia.
    assert (q = 2 ^ 53)%Z by nia. split; [subst; lia | done]. }
  rewrite E. unfold new_location.
  destruct (Z.even (Zpos m)), s; reflexivity.
Qed.

Lemma div_self x s m e : Prim2SF x = S754_finite s m e -> (x / x)%float = 1%float.
Proof.
  intros Hx. apply Prim2SF_inj. rewrite FloatAxioms.div_spec, Hx. apply SFdiv_self.
Qed.

Lemma zero_div x m e : Prim2SF x = S754_finite false m e -> (0 / x)%float = 0%float.
Proof.
  intros Hx. apply Prim2SF_inj. rewrite FloatAxioms.div_spec, Hx. reflexivity.
Qed.

End F64.

(** ** Python values, exceptions and the object monad *)

Inductive exn :=
  | IndexError
  | KeyError (key : string)
  | ValueError
  | AxisError
  | AttributeError (name : string)
  | Exception (msg : string).

(** The outcome of evaluating an expression: a value, or a raised
    exception. *)
Inductive py (A : Type) :=
  | Val (a : A)
  | Raise (e : exn).
Arguments Val {A} a.
Arguments Raise {A} e.

Definition returns {A} (r : py A) : Prop := exists a, r = Val a.

(** A method body: it runs on the attributes [S] of [self] and leaves them
    as they are when it returns or raises. *)
Definition M (S A : Type) : Type := S -> py A * S.

Definition ret {S A} (a : A) : M S A := fun s => (Val a, s).

Definition bind {S A B} (c : M S A) (k : A -> M S B) : M S B :=
  fun s => match c s with
           | (Val a, s') => k a s'
           | (Raise e, s') => (Raise e, s')
           end.

Definition raise {S A} (e : exn) : M S A := fun s => (Raise e, s).

(** An expression that touches no attribute. *)
Definition lift {S A} (r : py A) : M S A := fun s => (r, s).

Definition gets {S A} (f : S -> A) : M S A := fun s => (Val (f s), s).

Definition modify {S} (f : S -> S) : M S unit := fun s => (Val tt, f s).

Notation "'let*' x ':=' c 'in' k" := (bind c (fun x => k))
  (at level 10, x pattern, c at level 100, k at level 200, only parsing).

(** [for i in xs: body], and the same loop carrying its local variables. *)
Fixpoint for_ {S I} (xs : list I) (body : I -> M S unit) : M S unit :=
  match xs with
  | [] => ret tt
  | i :: xs' => let* _ := body i in for_ xs' body
  end.

Fixpoint for_acc {S I A} (xs : list I) (a : A) (body : I -> A -> M S A)
  : M S A :=
  match xs with
  | [] => ret a
  | i :: xs' => let* a' := body i a in for_acc xs' a' body
  end.

(** [range(a, b)] and [range(a, b, -1)]. *)
Definition range (a b : Z) : list Z :=
  map (fun k => (a + Z.of_nat k)%Z) (seq 0 (Z.to_nat (b - a))).

Definition range_down (a b : Z) : list Z :=
  map (fun k => (a - Z.of_nat k)%Z) (seq 0 (Z.to_nat (a - b))).

(** List subscripts. *)
Definition index_of {A} (l : list A) (i : Z) : option nat :=
  let n := Z.of_nat (length l) in
  if (0 <=? i)%Z then (if (i <? n)%Z then Some (Z.to_nat i) else None)
  else if (- n <=? i)%Z then Some (Z.to_nat (n + i)) else None.

Definition getitem {A} (l : list A) (i : Z) : py A :=
  match index_of l i with
  | Some k => match l !! k with Some x => Val x | None => Raise IndexError end
  | None => Raise IndexError
  end.

Definition setitem {A} (l : list A) (i : Z) (x : A) : py (list A) :=
  match index_of l i with
  | Some k => Val (<[k := x]> l)
  | None => Raise IndexError
  end.

(** Sequencing of outcomes, and a function that may raise mapped over a
    list. *)
Definition py_bind {A B} (r : py A) (k : A -> py B) : py B :=
  match r with
  | Val a => k a
  | Raise e => Raise e
  end.

Fixpoint py_mapM {A B} (f : A -> py B) (l : list A) : py (list B) :=
  match l with
  | [] => Val []
  | x :: l' => py_bind (f x) (fun y => py_bind (py_mapM f l') (fun ys => Val (y :: ys)))
  end.

(** ** numpy arrays *)

Record ndarray := NDArray { shape : list nat; data : list float }.

Definition prod_shape (s : list nat) : nat := foldr Nat.mul 1 s.

(** Every array numpy builds holds as many items as its shape says. *)
Definition well_formed (a : ndarray) : Prop :=
  length (data a) = prod_shape (shape a).

Definition ndim (a : ndarray) : nat := length (shape a).
Definition array_size (a : ndarray) : nat := length (data a).

(** [a.shape[0]]. *)
Definition shape0 (a : ndarray) : py nat :=
  match shape a with
  | d :: _ => Val d
  | [] => Raise IndexError
  end.

Definition zeros (s : list nat) : ndarray :=
  NDArray s (replicate (prod_shape s) F64.zero).

Definition zeros_like (a : ndarray) : ndarray :=
  NDArray (shape a) (replicate (length (data a)) F64.zero).

Definition ravel (a : ndarray) : ndarray :=
  NDArray [length (data a)] (data a).

Definition reshape (a : ndarray) (s : list nat) : py ndarray :=
  if decide (prod_shape s = length (data a)) then Val (NDArray s (data a))
  else Raise ValueError.

(** [np.eye(n)[i]]: row [i] of the identity matrix. *)
Definition eye_row (n i : nat) : ndarray :=
  NDArray [n] (map (fun j => if decide (j = i) then F64.one else F64.zero)
                   (seq 0 n)).

(** [a * x] and [x * a] for a Python float [x]. *)
Definition scale (x : float) (a : ndarray) : ndarray :=
  NDArray (shape a) (map (fun v => PrimFloat.mul v x) (data a)).

Definition lscale (x : float) (a : ndarray) : ndarray :=
  NDArray (shape a) (map (fun v => PrimFloat.mul x v) (data a)).

(** numpy's broadcasting.  [broadcast_data sa st d] spreads the items [d]
    of an array of shape [sa] over the shape [st] of as many axes: an axis
    of the same length is kept, an axis of length one is repeated, and any
    other pair of lengths cannot be broadcast. *)
Fixpoint broadcast_data (sa st : list nat) (d : list float)
  : py (list float) :=
  match sa, st with
  | [], [] => Val d
  | da :: sa', dt :: st' =>
      let chunk := prod_shape sa' in
      if decide (da = dt)
      then py_bind
             (py_mapM (fun i => broadcast_data sa' st'
                                  (take chunk (drop (i * chunk) d)))
                (seq 0 da))
             (fun cs => Val (concat cs))
      else if decide (da = 1)
      then py_bind (broadcast_data sa' st' d)
             (fun c => Val (concat (replicate dt c)))
      else Raise ValueError
  | _, _ => Raise ValueError
  end.

(** [np.broadcast_to(a, st)]: missing axes are added in front. *)
Definition broadcast_to (a : ndarray) (st : list nat) : py ndarray :=
  if decide (length (shape a) <= length st)
  then py_bind
         (broadcast_data
            (replicate (length st - length (shape a)) 1 ++ shape a) st (data a))
         (fun d => Val (NDArray st d))
  else Raise ValueError.

(** The shape two operands are broadcast to, axis by axis from the last. *)
Fixpoint broadcast_axes (sa sb : list nat) : option (list nat) :=
  match sa, sb with
  | [], [] => Some []
  | da :: sa', db :: sb' =>
      match broadcast_axes sa' sb' with
      | Some s =>
          if decide (da = db) then Some (da :: s)
          else if decide (da = 1) then Some (db :: s)
          else if decide (db = 1) then Some (da :: s)
          else None
      | None => None
      end
  | _, _ => None
  end.

Definition broadcast_shapes (sa sb : list nat) : option (list nat) :=
  let n := Nat.max (length sa) (length sb) in
  broadcast_axes (replicate (n - length sa) 1 ++ sa)
                 (replicate (n - length sb) 1 ++ sb).

(** [a + b] and [a - b].  Operands of one shape are combined item by
    item; operands of different shapes are broadcast to a common shape
    first, and numpy raises [ValueError] when there is none. *)
Definition elementwise (f : float -> float -> float) (a b : ndarray)
  : py ndarray :=
  if decide (shape a = shape b)
  then Val (NDArray (shape a) (zip_with f (data a) (data b)))
  else match broadcast_shapes (shape a) (shape b) with
       | Some s =>
           py_bind (broadcast_to a s) (fun a' =>
           py_bind (broadcast_to b s) (fun b' =>
           Val (NDArray s (zip_with f (data a') (data b')))))
       | None => Raise ValueError
       end.

(** The in-place [a -= b]: the result is written into [a], so that [b] is
    broadcast to the shape of [a], and numpy raises [ValueError] when it
    cannot be. *)
Definition elementwise_inplace (f : float -> float -> float) (a b : ndarray)
  : py ndarray :=
  if decide (shape a = shape b)
  then Val (NDArray (shape a) (zip_with f (data a) (data b)))
  else py_bind (broadcast_to b (shape a)) (fun b' =>
       Val (NDArray (shape a) (zip_with f (data a) (data b')))).

Definition array_isub := elementwise_inplace PrimFloat.sub.

(** [a[i] = x] on a one-dimensional array, [0 <= i < a.size]. *)
Definition array_set (a : ndarray) (i : nat) (x : float) : ndarray :=
  NDArray (shape a) (<[i := x]> (data a)).

(** [np.argmax] of one row: the first NaN if there is one, else the first
    maximum. *)
Fixpoint argmax_from (best : float) (besti i : nat) (l : list float) : nat :=
  match l with
  | [] => besti
  | x :: l' =>
      if negb (PrimFloat.leb x best)
      then (if F64.is_nan x then i else argmax_from x i (S i) l')
      else argmax_from best besti (S i) l'
  end.

Definition argmax (l : list float) : nat :=
  match l with
  | [] => 0
  | x :: l' => if F64.is_nan x then 0 else argmax_from x 0 1 l'
  end.

(** The rows of a matrix. *)
Definition row (cols : nat) (d : list float) (i : nat) : list float :=
  take cols (drop (i * cols) d).

Definition rows (a : ndarray) : py (list (list float)) :=
  match shape a with
  | [n; k] => Val (map (row k (data a)) (seq 0 n))
  | _ => Raise AxisError
  end.

(** [np.argmax(a, axis=1)] for a matrix [a].  An array with fewer than two
    axes has no axis 1; the operands at the call sites are (batch, classes)
    matrices, and the model rejects any other rank. *)
Definition argmax_axis1 (a : ndarray) : py (list Z) :=
  match shape a with
  | [n; k] =>
      if decide (k = 0) then Raise ValueError
      else Val (map (fun i => Z.of_nat (argmax (row k (data a) i))) (seq 0 n))
  | _ => Raise AxisError
  end.

(** [a[mask]] for a list [mask] of row numbers: the selected rows, in the
    order of [mask]. *)
Definition take_rows (a : ndarray) (mask : list nat) : py ndarray :=
  match shape a with
  | n :: s =>
      if decide (Forall (fun i => i < n) mask)
      then Val (NDArray (length mask :: s)
                  (mask ≫= row (prod_shape s) (data a)))
      else Raise IndexError
  | [] => Raise IndexError
  end.

(** [np.sum(a == b)] for two one-dimensional integer arrays.  Arrays of
    one length are compared item by item; an array of length one is
    broadcast, that is compared with every item of the other; arrays of
    other lengths cannot be broadcast, and the comparison raises
    [ValueError] (numpy 1.25 and later). *)
Definition count_equal (a b : list Z) : py Z :=
  if decide (length a = length b)
  then Val (Z.of_nat (length (filter (fun p => p.1 = p.2) (zip a b))))
  else match a, b with
       | [x], _ => Val (Z.of_nat (length (filter (fun y => x = y) b)))
       | _, [y] => Val (Z.of_nat (length (filter (fun x => x = y) a)))
       | _, _ => Raise ValueError
       end.

(** ** The generator behind [np.random]

    The draws are whatever the generator holds: every sequence of outcomes
    is the behaviour of some generator. *)
Record generator := Generator {
  normal_draws : nat -> float;
  index_draws : nat -> nat;
  drawn : nat }.

Definition advance (g : generator) (k : nat) : generator :=
  Generator (normal_draws g) (index_draws g) (drawn g + k).

(** [np.random.randn(d0, d1)]. *)
Definition randn (d0 d1 : nat) (g : generator) : ndarray * generator :=
  (NDArray [d0; d1]
     (map (fun k => normal_draws g (drawn g + k)) (seq 0 (d0 * d1))),
   advance g (d0 * d1)).

(** [np.random.choice(a, size)]: [size] numbers below [a], drawn with
    replacement. *)
Definition choice (a size : nat) (g : generator) : py (list nat) * generator :=
  if decide (a = 0 /\ size <> 0) then (Raise ValueError, g)
  else (Val (map (fun k => index_draws g (drawn g + k) mod a) (seq 0 size)),
        advance g size).

(** Dictionaries keyed by parameter name. *)
Definition dict_get (d : gmap string ndarray) (k : string) : py ndarray :=
  match d !! k with
  | Some v => Val v
  | None => Raise (KeyError k)
  end.

(** [ds[l][name] = v] on a list of dictionaries. *)
Definition dicts_set (ds : list (gmap string ndarray)) (l : Z) (name : string)
    (v : ndarray) : py (list (gmap string ndarray)) :=
  py_bind (getitem ds l) (fun d => setitem ds l (<[name := v]> d)).

(** ** The messages of the exceptions the classes raise

    The constructors raise
    ['the `loss_type` argument should be "cross_entropy" or "squared_error"']
    and [_loss] the same text with a capital ['The']. *)
Definition dquote : string := String (Ascii.ascii_of_nat 34) EmptyString.

Definition quoted (x : string) : string := dquote +:+ x +:+ dquote.

Definition init_loss_type_message : string :=
  "the `loss_type` argument should be " +:+ quoted "cross_entropy"
  +:+ " or " +:+ quoted "squared_error".

Definition loss_type_message : string :=
  "The `loss_type` argument should be " +:+ quoted "cross_entropy"
  +:+ " or " +:+ quoted "squared_error".

(** ** The package [common]

    [src/models] imports its layer mathematics and its loss functions from
    [common.forward_functions], [common.backward_functions] and
    [common.loss_funcions], which are not among the sources.  The classes
    are embedded over any implementation of them: pure functions of their
    array arguments that return a value or raise.  [forward_middle] stands
    for the call with [output_A=True], which returns the layer output [Z]
    together with the pre-activation [A]; [SGDNeuralNet], which calls the
    function without the flag, receives [Z] alone.  That the flag adds
    [A] to the result and changes nothing else is the reading of the
    keyword taken here; it is the one thing the embedding takes for
    granted about the absent function. *)
Class Common := {
  forward_middle : ndarray -> ndarray -> ndarray -> string -> py (ndarray * ndarray);
  forward_last_classification : ndarray -> ndarray -> ndarray -> py ndarray;
  cross_entropy_error : ndarray -> ndarray -> py float;
  squared_error : ndarray -> ndarray -> py float;
  softmax_loss_backward : ndarray -> ndarray -> py ndarray;
  affine_backward_bias : ndarray -> py ndarray;
  affine_backward_weight : ndarray -> ndarray -> py ndarray;
  affine_backward_zprev : ndarray -> ndarray -> py ndarray;
  relu_backward : ndarray -> ndarray -> py ndarray;
  sigmoid_backward : ndarray -> ndarray -> py ndarray }.

(** ** Category labels and scikit-learn's [OneHotEncoder]

    A label vector holds values of any type that can be compared and
    sorted.  [fit] learns the sorted distinct values ([categories_[0]]) and
    refuses an empty sample; [transform(...).toarray()] writes one
    indicator row per label and refuses a label it has not learnt. *)
Class Category (cat : Type) := {
  cat_eq_dec :: EqDecision cat;
  cat_le : relation cat;
  cat_le_dec :: RelDecision cat_le }.

Section one_hot_encoder.
Context {cat : Type} `{Category cat}.

Definition OneHotEncoder_fit (l : list cat) : py (list cat) :=
  match l with
  | [] => Raise ValueError
  | _ => Val (merge_sort cat_le (remove_dups l))
  end.

Definition indicator (cats : list cat) (x : cat) : list float :=
  map (fun c => if decide (c = x) then F64.one else F64.zero) cats.

Definition OneHotEncoder_transform (cats : list cat) (l : list cat)
  : py ndarray :=
  if decide (Forall (fun x => x ∈ cats) l)
  then Val (NDArray [length l; length cats] (l ≫= indicator cats))
  else Raise ValueError.
End one_hot_encoder.

(** A target array [T]: a one-dimensional vector of category labels
    ([T.ndim == 1]), or an array that is taken to be one-hot already. *)
Inductive targets (cat : Type) :=
  | Labels (l : list cat)
  | Encoded (a : ndarray).
Arguments Labels {cat} l.
Arguments Encoded {cat} a.

(** ** The attributes of [SGDNeuralNet] and [BackpropNeuralNet]

    Both classes keep the same attributes.  [np_random] is the state of
    numpy's global generator, carried along with the object. *)
Record NeuralNet (cat : Type) := {
  input_size : nat;
  output_size : nat;
  hidden_size : nat;
  n_layers : Z;
  learning_rate : float;
  batch_size : nat;
  n_iter : nat;
  loss_type : string;
  activation_function : string;
  weight_init_std : float;
  params : list (gmap string ndarray);
  one_hot_encoder_ : option (list cat);
  train_loss_list : list float;
  np_random : generator }.
Arguments input_size {cat} _.
Arguments output_size {cat} _.
Arguments hidden_size {cat} _.
Arguments n_layers {cat} _.
Arguments learning_rate {cat} _.
Arguments batch_size {cat} _.
Arguments n_iter {cat} _.
Arguments loss_type {cat} _.
Arguments activation_function {cat} _.
Arguments weight_init_std {cat} _.
Arguments params {cat} _.
Arguments one_hot_encoder_ {cat} _.
Arguments train_loss_list {cat} _.
Arguments np_random {cat} _.

Section attributes.
Context {cat : Type}.

Definition set_params (p : list (gmap string ndarray)) (s : NeuralNet cat)
  : NeuralNet cat :=
  {| input_size := input_size s; output_size := output_size s;
     hidden_size := hidden_size s; n_layers := n_layers s;
     learning_rate := learning_rate s; batch_size := batch_size s;
     n_iter := n_iter s; loss_type := loss_type s;
     activation_function := activation_function s;
     weight_init_std := weight_init_std s;
     params := p;
     one_hot_encoder_ := one_hot_encoder_ s;
     train_loss_list := train_loss_list s;
     np_random := np_random s |}.

Definition set_one_hot_encoder_ (e : option (list cat)) (s : NeuralNet cat)
  : NeuralNet cat :=
  {| input_size := input_size s; output_size := output_size s;
     hidden_size := hidden_size s; n_layers := n_layers s;
     learning_rate := learning_rate s; batch_size := batch_size s;
     n_iter := n_iter s; loss_type := loss_type s;
     activation_function := activation_function s;
     weight_init_std := weight_init_std s;
     params := params s;
     one_hot_encoder_ := e;
     train_loss_list := train_loss_list s;
     np_random := np_random s |}.

Definition set_np_random (g : generator) (s : NeuralNet cat)
  : NeuralNet cat :=
  {| input_size := input_size s; output_size := output_size s;
     hidden_size := hidden_size s; n_layers := n_layers s;
     learning_rate := learning_rate s; batch_size := batch_size s;
     n_iter := n_iter s; loss_type := loss_type s;
     activation_function := activation_function s;
     weight_init_std := weight_init_std s;
     params := params s;
     one_hot_encoder_ := one_hot_encoder_ s;
     train_loss_list := train_loss_list s;
     np_random := g |}.

Definition set_train_loss_list (losses : list float) (s : NeuralNet cat)
  : NeuralNet cat :=
  {| input_size := input_size s; output_size := output_size s;
     hidden_size := hidden_size s; n_layers := n_layers s;
     learning_rate := learning_rate s; batch_size := batch_size s;
     n_iter := n_iter s; loss_type := loss_type s;
     activation_function := activation_function s;
     weight_init_std := weight_init_std s;
     params := params s;
     one_hot_encoder_ := one_hot_encoder_ s;
     train_loss_list := losses;
     np_random := np_random s |}.

Definition set_loss_type (lt : string) (s : NeuralNet cat) : NeuralNet cat :=
  {| input_size := input_size s; output_size := output_size s;
     hidden_size := hidden_size s; n_layers := n_layers s;
     learning_rate := learning_rate s; batch_size := batch_size s;
     n_iter := n_iter s; loss_type := lt;
     activation_function := activation_function s;
     weight_init_std := weight_init_std s;
     params := params s;
     one_hot_encoder_ := one_hot_encoder_ s;
     train_loss_list := train_loss_list s;
     np_random := np_random s |}.

(** [self.params[l][name]]. *)
Definition get_param (l : Z) (name : string) : M (NeuralNet cat) ndarray :=
  let* ps := gets params in
  let* d := lift (getitem ps l) in
  lift (dict_get d name).

(** [self.params[l][name] = v]. *)
Definition set_param (l : Z) (name : string) (v : ndarray)
  : M (NeuralNet cat) unit :=
  let* ps := gets params in
  let* ps' := lift (dicts_set ps l name v) in
  modify (set_params ps').

Definition np_random_randn (d0 d1 : nat) : M (NeuralNet cat) ndarray :=
  fun s => let '(a, g) := randn d0 d1 (np_random s) in
           (Val a, set_np_random g s).

Definition np_random_choice (a size : nat) : M (NeuralNet cat) (list nat) :=
  fun s => let '(r, g) := choice a size (np_random s) in
           (r, set_np_random g s).
End attributes.

(** ** [class SGDNeuralNet] (src/models/sgd_neuralnet.py) *)

Module SGDNeuralNet.
Section methods.
Context {cat : Type} `{Category cat} `{Common}.

Local Abbreviation net := (NeuralNet cat).

Definition _initialize_parameters : M net unit :=
  let* n := gets n_layers in
  let* _ := modify (set_params (replicate (Z.to_nat n) ∅)) in
  let* std := gets weight_init_std in
  let* input := gets input_size in
  let* hidden := gets hidden_size in
  let* output := gets output_size in
  let* W0 := np_random_randn input hidden in
  let* _ := set_param 0 "W" (lscale std W0) in
  let* _ := for_ (range 1 (n - 1)) (fun l =>
              let* Wl := np_random_randn hidden hidden in
              set_param l "W" (lscale std Wl)) in
  let* Wn := np_random_randn hidden output in
  let* _ := set_param (n - 1) "W" (lscale std Wn) in
  let* _ := for_ (range 0 (n - 1)) (fun l =>
              set_param l "b" (zeros [hidden])) in
  set_param (n - 1) "b" (zeros [output]).

Definition _one_hot_encoding (T : targets cat) : M net ndarray :=
  match T with
  | Labels l =>
      let* cats := lift (OneHotEncoder_fit l) in
      let* _ := modify (set_one_hot_encoder_ (Some cats)) in
      lift (OneHotEncoder_transform cats l)
  | Encoded a => ret a
  end.

Definition _one_hot_encoding_reverse (T : ndarray) : M net (list cat) :=
  let* T_label := lift (argmax_axis1 T) in
  match T_label with
  | [] => raise ValueError
  | _ =>
      let* enc := gets one_hot_encoder_ in
      match enc with
      | None => raise (AttributeError "one_hot_encoder_")
      | Some cats => lift (py_mapM (getitem cats) T_label)
      end
  end.

Definition _predict_onehot (X : ndarray) : M net ndarray :=
  let* n := gets n_layers in
  let* act := gets activation_function in
  let* Z_current :=
    for_acc (range 0 (n - 1)) X (fun l Z_current =>
      let* W := get_param l "W" in
      let* b := get_param l "b" in
      let* ZA := lift (forward_middle Z_current W b act) in
      ret ZA.1) in
  let* W_final := get_param (n - 1) "W" in
  let* b_final := get_param (n - 1) "b" in
  lift (forward_last_classification Z_current W_final b_final).

Definition predict (X : ndarray) : M net (list cat) :=
  let* Y := _predict_onehot X in
  _one_hot_encoding_reverse Y.

Definition select_minibatch (X T : ndarray) : M net (ndarray * ndarray) :=
  let* train_size := lift (shape0 X) in
  let* bs := gets batch_size in
  let* batch_mask := np_random_choice train_size bs in
  let* X_batch := lift (take_rows X batch_mask) in
  let* T_batch := lift (take_rows T batch_mask) in
  ret (X_batch, T_batch).

Definition _loss (X T : ndarray) : M net float :=
  let* Y := _predict_onehot X in
  let* lt := gets loss_type in
  if decide (lt = "cross_entropy") then lift (cross_entropy_error Y T)
  else if decide (lt = "squared_error") then lift (squared_error Y T)
  else raise (Exception loss_type_message).

(** The parameter with component [idx] moved by [+h] or [-h]:
    [(P_ravel ± np.eye(P_ravel.size)[idx] * h).reshape(P.shape)]. *)
Definition perturbed (f : float -> float -> float) (P : ndarray) (idx : nat)
  : py ndarray :=
  let P_ravel := ravel P in
  let h_vector := scale F64.h (eye_row (array_size P_ravel) idx) in
  py_bind (elementwise f P_ravel h_vector) (fun a => reshape a (shape P)).

(** One turn of the loop of [_numerical_gradient]. *)
Definition _numerical_gradient_step (X T : ndarray) (param_name : string)
    (l : Z) (P : ndarray) (idx : nat) (grad : ndarray) : M net ndarray :=
  let* P1 := lift (perturbed PrimFloat.add P idx) in
  let* _ := set_param l param_name P1 in
  let* fxh1 := _loss X T in
  let* P2 := lift (perturbed PrimFloat.sub P idx) in
  let* _ := set_param l param_name P2 in
  let* fxh2 := _loss X T in
  let grad' :=
    array_set grad idx
      (PrimFloat.div (PrimFloat.sub fxh1 fxh2) (PrimFloat.mul F64.two F64.h)) in
  let* _ := set_param l param_name P in
  ret grad'.

Definition _numerical_gradient (X T : ndarray) (param_name : string) (l : Z)
  : M net ndarray :=
  let* P := get_param l param_name in
  let P_ravel := ravel P in
  let grad := zeros_like P_ravel in
  let* grad := for_acc (seq 0 (array_size P_ravel)) grad
                 (_numerical_gradient_step X T param_name l P) in
  lift (reshape grad (shape P)).

Definition numerical_gradient_all (X T : ndarray)
  : M net (list (gmap string ndarray)) :=
  let* n := gets n_layers in
  let grads := replicate (Z.to_nat n) (∅ : gmap string ndarray) in
  for_acc (range 0 n) grads (fun l grads =>
    let* gW := _numerical_gradient X T "W" l in
    let* grads := lift (dicts_set grads l "W" gW) in
    let* gb := _numerical_gradient X T "b" l in
    lift (dicts_set grads l "b" gb)).

(** [self.params[l][name] -= self.learning_rate * grads[l][name]]. *)
Definition update_parameter (grads : list (gmap string ndarray)) (l : Z)
    (name : string) : M net unit :=
  let* P := get_param l name in
  let* lr := gets learning_rate in
  let* gd := lift (getitem grads l) in
  let* g := lift (dict_get gd name) in
  let* P' := lift (array_isub P (lscale lr g)) in
  set_param l name P'.

Definition update_parameters (grads : list (gmap string ndarray))
  : M net unit :=
  let* n := gets n_layers in
  for_ (range 0 n) (fun l =>
    let* _ := update_parameter grads l "W" in
    update_parameter grads l "b").

Definition accuracy (X_test : ndarray) (T_test : targets cat) : M net float :=
  let* T_test := _one_hot_encoding T_test in
  let* Y_test := _predict_onehot X_test in
  let* Y_test_label := lift (argmax_axis1 Y_test) in
  let* T_test_label := lift (argmax_axis1 T_test) in
  let* matches := lift (count_equal Y_test_label T_test_label) in
  let* n := lift (shape0 X_test) in
  ret (PrimFloat.div (F64.of_Z matches) (F64.of_Z (Z.of_nat n))).

(** [self.train_loss_list.append(loss)]. *)
Definition record_loss (loss : float) : M net unit :=
  let* losses := gets train_loss_list in
  modify (set_train_loss_list (losses ++ [loss])).

Definition fit (X : ndarray) (T : targets cat) : M net unit :=
  let* _ := _initialize_parameters in
  let* T := _one_hot_encoding T in
  let* _ := modify (set_train_loss_list []) in
  let* n := gets n_iter in
  for_ (seq 0 n) (fun i_iter =>
    let* (X_batch, T_batch) := select_minibatch X T in
    let* grads := numerical_gradient_all X_batch T_batch in
    let* _ := update_parameters grads in
    let* loss := _loss X_batch T_batch in
    record_loss loss).
End methods.
End SGDNeuralNet.

(** ** [class BackpropNeuralNet] (src/models/backprop_neuralnet.py) *)

Module BackpropNeuralNet.
Section methods.
Context {cat : Type} `{Category cat} `{Common}.

Local Abbreviation net := (NeuralNet cat).

(** These methods are the same text in both classes. *)
Definition _initialize_parameters : M net unit :=
  SGDNeuralNet._initialize_parameters.
Definition _one_hot_encoding : targets cat -> M net ndarray :=
  SGDNeuralNet._one_hot_encoding.
Definition _one_hot_encoding_reverse : ndarray -> M net (list cat) :=
  SGDNeuralNet._one_hot_encoding_reverse.
Definition select_minibatch : ndarray -> ndarray -> M net (ndarray * ndarray) :=
  SGDNeuralNet.select_minibatch.
Definition update_parameters : list (gmap string ndarray) -> M net unit :=
  SGDNeuralNet.update_parameters.

(** [_predict_onehot(X, train_flg=True)]: the output together with the
    lists [Z_intermediate] and [A_intermediate]. *)
Definition _predict_onehot_train (X : ndarray)
  : M net (ndarray * list ndarray * list ndarray) :=
  let* n := gets n_layers in
  let* act := gets activation_function in
  let* (Z_current, Z_intermediate, A_intermediate) :=
    for_acc (range 0 (n - 1)) (X, [], [])
      (fun l '(Z_current, Z_intermediate, A_intermediate) =>
        let* W := get_param l "W" in
        let* b := get_param l "b" in
        let* (Z_current, A_current) := lift (forward_middle Z_current W b act) in
        ret (Z_current, Z_intermediate ++ [Z_current],
             A_intermediate ++ [A_current])) in
  let* W_final := get_param (n - 1) "W" in
  let* b_final := get_param (n - 1) "b" in
  let* Z_result := lift (forward_last_classification Z_current W_final b_final) in
  ret (Z_result, Z_intermediate, A_intermediate).

(** [_predict_onehot(X)], with [train_flg=False]. *)
Definition _predict_onehot (X : ndarray) : M net ndarray :=
  let* r := _predict_onehot_train X in
  ret r.1.1.

Definition _loss (X T : ndarray) : M net float :=
  let* Y := _predict_onehot X in
  let* lt := gets loss_type in
  if decide (lt = "cross_entropy") then lift (cross_entropy_error Y T)
  else if decide (lt = "squared_error") then lift (squared_error Y T)
  else raise (Exception loss_type_message).

(** One turn of the loop over the hidden layers, from the output side
    back to the first layer.  The local variables that live across
    turns are [dA], [dZ_prev] and [grads]. *)
Definition backward_step (X : ndarray) (Z_intermediate A_intermediate : list ndarray)
    (l : Z) (st : ndarray * ndarray * list (gmap string ndarray))
  : M net (ndarray * ndarray * list (gmap string ndarray)) :=
  let '(dA, dZ_prev, grads) := st in
  let dZ := dZ_prev in
  let* act := gets activation_function in
  let* dA :=
    if decide (act = "relu")
    then let* A := lift (getitem A_intermediate l) in
         lift (relu_backward dZ A)
    else ret dA in
  let* dA :=
    if decide (act = "sigmoid")
    then let* Zl := lift (getitem Z_intermediate l) in
         lift (sigmoid_backward dZ Zl)
    else ret dA in
  let* db := lift (affine_backward_bias dA) in
  let* (dW, dZ_prev) :=
    if decide (0 < l)%Z
    then let* Zp := lift (getitem Z_intermediate (l - 1)) in
         let* dW := lift (affine_backward_weight dA Zp) in
         let* W := get_param l "W" in
         let* dZ_prev := lift (affine_backward_zprev dA W) in
         ret (dW, dZ_prev)
    else let* dW := lift (affine_backward_weight dA X) in
         ret (dW, dZ_prev) in
  let* grads := lift (dicts_set grads l "b" db) in
  let* grads := lift (dicts_set grads l "W" dW) in
  ret (dA, dZ_prev, grads).

Definition gradient_backpropagation (X T : ndarray)
  : M net (list (gmap string ndarray)) :=
  let* (Y, Z_intermediate, A_intermediate) := _predict_onehot_train X in
  let* n := gets n_layers in
  let grads := replicate (Z.to_nat n) (∅ : gmap string ndarray) in
  let* dA := lift (softmax_loss_backward Y T) in
  let* db := lift (affine_backward_bias dA) in
  let* Zp := lift (getitem Z_intermediate (n - 2)) in
  let* dW := lift (affine_backward_weight dA Zp) in
  let* W := get_param (n - 1) "W" in
  let* dZ_prev := lift (affine_backward_zprev dA W) in
  let* grads := lift (dicts_set grads (n - 1) "b" db) in
  let* grads := lift (dicts_set grads (n - 1) "W" dW) in
  let* (_, _, grads) :=
    for_acc (range_down (n - 2) (-1)) (dA, dZ_prev, grads)
      (backward_step X Z_intermediate A_intermediate) in
  ret grads.

Definition accuracy (X_test : ndarray) (T_test : targets cat) : M net float :=
  let* T_test := _one_hot_encoding T_test in
  let* Y_test := _predict_onehot X_test in
  let* Y_test_label := lift (argmax_axis1 Y_test) in
  let* T_test_label := lift (argmax_axis1 T_test) in
  let* matches := lift (count_equal Y_test_label T_test_label) in
  let* n := lift (shape0 X_test) in
  ret (PrimFloat.div (F64.of_Z matches) (F64.of_Z (Z.of_nat n))).

Definition predict (X : ndarray) : M net (list cat) :=
  let* Y := _predict_onehot X in
  _one_hot_encoding_reverse Y.

Definition fit (X : ndarray) (T : targets cat) : M net unit :=
  let* _ := _initialize_parameters in
  let* T := _one_hot_encoding T in
  let* _ := modify (set_train_loss_list []) in
  let* n := gets n_iter in
  for_ (seq 0 n) (fun i_iter =>
    let* (X_batch, T_batch) := select_minibatch X T in
    let* grads := gradient_backpropagation X_batch T_batch in
    let* _ := update_parameters grads in
    let* loss := _loss X_batch T_batch in
    SGDNeuralNet.record_loss loss).
End methods.
End BackpropNeuralNet.

(** ** [class ConvolutionNet] (src/models/conv_net.py)

    The network is a list of layer objects.  Their classes and the
    optimizer classes of [common.optimizers] are not among the sources;
    the network is embedded over any type of layers and of optimizers that
    offers the methods it calls.  A layer method runs on the layer object
    and may change it (the forward pass keeps what the backward pass
    needs, the backward pass stores [grads]).

    A Python list holds references: the list [layers] the constructor is
    given may hold one layer object at several positions, and a method
    called through one position changes the object every position sees.
    The layer objects therefore live in a store, [objects], keyed by
    reference, and [layers] is the list of references. *)

Class Layer (layer : Type) := {
  input_shape : layer -> list nat;
  output_shape : layer -> list nat;
  layer_params : layer -> gmap string ndarray;
  layer_grads : layer -> gmap string ndarray;
  (** [layer.initialize_parameters(input_shape=...)], which may draw
      random weights. *)
  initialize_parameters : list nat -> M (layer * generator) unit;
  forward : ndarray -> M layer ndarray;
  (** [layer.backward(dZ)] and, on the output layer, [layer.backward(Y, T)]. *)
  backward : ndarray -> M layer ndarray;
  backward_loss : ndarray -> ndarray -> M layer ndarray }.

Class Optimizers (optimizer : Type) := {
  SGD : float -> optimizer;
  Momentum : float -> float -> optimizer;
  AdaGrad : float -> float -> optimizer;
  RMSprop : float -> float -> float -> optimizer;
  Adam : float -> float -> float -> float -> optimizer;
  initialize_opt_params : gmap string ndarray -> M optimizer unit }.

(** A reference to a layer object. *)
Abbreviation ref := nat.

(** [enumerate(l)]. *)
Definition enumerate {A} (l : list A) : list (Z * A) :=
  zip (map Z.of_nat (seq 0 (length l))) l.

Module ConvolutionNet.

Record t (cat layer optimizer : Type) := {
  layers : list ref;
  (** The layer objects, by reference; carried along with the network
      as [np_random] is. *)
  objects : ref -> layer;
  learning_rate : float;
  batch_size : nat;
  n_iter : nat;
  loss_type : string;
  solver : string;
  momentum : float;
  beta_1 : float;
  beta_2 : float;
  epsilon : float;
  (** [len(self.layers)], set by the constructor. *)
  n_layers : Z;
  optimizers : list optimizer;
  one_hot_encoder_ : option (list cat);
  np_random : generator }.
Arguments layers {cat layer optimizer} _.
Arguments objects {cat layer optimizer} _.
Arguments learning_rate {cat layer optimizer} _.
Arguments batch_size {cat layer optimizer} _.
Arguments n_iter {cat layer optimizer} _.
Arguments loss_type {cat layer optimizer} _.
Arguments solver {cat layer optimizer} _.
Arguments momentum {cat layer optimizer} _.
Arguments beta_1 {cat layer optimizer} _.
Arguments beta_2 {cat layer optimizer} _.
Arguments epsilon {cat layer optimizer} _.
Arguments n_layers {cat layer optimizer} _.
Arguments optimizers {cat layer optimizer} _.
Arguments one_hot_encoder_ {cat layer optimizer} _.
Arguments np_random {cat layer optimizer} _.

Section methods.
Context {cat : Type} `{Category cat}.
Context {layer : Type} `{Layer layer}.
Context {optimizer : Type} `{Optimizers optimizer}.

Local Abbreviation net := (t cat layer optimizer).

Definition set_objects (h : ref -> layer) (s : net) : net :=
  {| layers := layers s; objects := h; learning_rate := learning_rate s;
     batch_size := batch_size s; n_iter := n_iter s;
     loss_type := loss_type s; solver := solver s;
     momentum := momentum s; beta_1 := beta_1 s; beta_2 := beta_2 s;
     epsilon := epsilon s; n_layers := n_layers s;
     optimizers := optimizers s;
     one_hot_encoder_ := one_hot_encoder_ s; np_random := np_random s |}.

Definition set_optimizers (os : list optimizer) (s : net) : net :=
  {| layers := layers s; objects := objects s;
     learning_rate := learning_rate s;
     batch_size := batch_size s; n_iter := n_iter s;
     loss_type := loss_type s; solver := solver s;
     momentum := momentum s; beta_1 := beta_1 s; beta_2 := beta_2 s;
     epsilon := epsilon s; n_layers := n_layers s;
     optimizers := os;
     one_hot_encoder_ := one_hot_encoder_ s; np_random := np_random s |}.

Definition set_one_hot_encoder_ (e : option (list cat)) (s : net) : net :=
  {| layers := layers s; objects := objects s;
     learning_rate := learning_rate s;
     batch_size := batch_size s; n_iter := n_iter s;
     loss_type := loss_type s; solver := solver s;
     momentum := momentum s; beta_1 := beta_1 s; beta_2 := beta_2 s;
     epsilon := epsilon s; n_layers := n_layers s;
     optimizers := optimizers s;
     one_hot_encoder_ := e; np_random := np_random s |}.

Definition set_np_random (g : generator) (s : net) : net :=
  {| layers := layers s; objects := objects s;
     learning_rate := learning_rate s;
     batch_size := batch_size s; n_iter := n_iter s;
     loss_type := loss_type s; solver := solver s;
     momentum := momentum s; beta_1 := beta_1 s; beta_2 := beta_2 s;
     epsilon := epsilon s; n_layers := n_layers s;
     optimizers := optimizers s;
     one_hot_encoder_ := one_hot_encoder_ s; np_random := g |}.

(** [layer.method(...)] for the object that [ly] refers to: the method runs
    on the object in the store, which keeps the object as the method
    leaves it, also when it raises. *)
Definition call_object {A} (ly : ref) (method : M layer A) : M net A :=
  fun s =>
    let '(r, ly') := method (objects s ly) in
    (r, set_objects (<[ly := ly']> (objects s)) s).

(** [layer.initialize_parameters(input_shape=shape)]. *)
Definition call_object_init (ly : ref) (shape : list nat) : M net unit :=
  fun s =>
    let '(r, (ly', g)) :=
      initialize_parameters shape (objects s ly, np_random s) in
    (r, set_np_random g (set_objects (<[ly := ly']> (objects s)) s)).

(** An attribute of the object that [ly] refers to. *)
Definition object_attr {A} (ly : ref) (attr : layer -> A) : M net A :=
  gets (fun s => attr (objects s ly)).

(** [self.layers[l].method(...)]. *)
Definition call_layer {A} (l : Z) (method : M layer A) : M net A :=
  let* ls := gets layers in
  let* ly := lift (getitem ls l) in
  call_object ly method.

Definition _initialize_optimizers : M net unit :=
  let* _ := modify (set_optimizers []) in
  let* ls := gets layers in
  for_ (enumerate ls) (fun '(l, ly) =>
    let* sv := gets solver in
    let* lr := gets learning_rate in
    let* mu := gets momentum in
    let* b1 := gets beta_1 in
    let* b2 := gets beta_2 in
    let* eps := gets epsilon in
    let* os := gets optimizers in
    let* _ :=
      if decide (sv = "sgd") then modify (set_optimizers (os ++ [SGD lr]))
      else if decide (sv = "momentum")
           then modify (set_optimizers (os ++ [Momentum lr mu]))
      else if decide (sv = "adagrad")
           then modify (set_optimizers (os ++ [AdaGrad lr eps]))
      else if decide (sv = "rmsprop")
           then modify (set_optimizers (os ++ [RMSprop lr b2 eps]))
      else if decide (sv = "adam")
           then modify (set_optimizers (os ++ [Adam lr b1 b2 eps]))
      else ret tt in
    let* os := gets optimizers in
    let* o := lift (getitem os l) in
    let* ps := object_attr ly layer_params in
    let '(r, o') := initialize_opt_params ps o in
    let* os' := lift (setitem os l o') in
    let* _ := modify (set_optimizers os') in
    lift r).

Definition _initialize_parameters : M net unit :=
  let* ls := gets layers in
  let* _ := for_ (enumerate ls) (fun '(l, ly) =>
    if decide (l = 0%Z)
    then let* shape := object_attr ly input_shape in
         call_object_init ly shape
    else let* ls := gets layers in
         let* prev := lift (getitem ls (l - 1)) in
         let* shape := object_attr prev output_shape in
         call_object_init ly shape) in
  _initialize_optimizers.

Definition _one_hot_encoding (T : targets cat) : M net ndarray :=
  match T with
  | Labels l =>
      let* cats := lift (OneHotEncoder_fit l) in
      let* _ := modify (set_one_hot_encoder_ (Some cats)) in
      lift (OneHotEncoder_transform cats l)
  | Encoded a => ret a
  end.

Definition _predict_onehot (X : ndarray) : M net ndarray :=
  let* ls := gets layers in
  for_acc (enumerate ls) X (fun '(l, ly) Z_current =>
    call_object ly (forward Z_current)).

Definition select_minibatch (X T : ndarray) : M net (ndarray * ndarray) :=
  let* train_size := lift (shape0 X) in
  let* bs := gets batch_size in
  let* batch_mask :=
    (fun s => let '(r, g) := choice train_size bs (np_random s) in
              (r, set_np_random g s)) in
  let* X_batch := lift (take_rows X batch_mask) in
  let* T_batch := lift (take_rows T batch_mask) in
  ret (X_batch, T_batch).

(** The method has no [return] statement: its value is [None], and the
    gradients stay in the [grads] of each layer. *)
Definition gradient_backpropagation (X T : ndarray) : M net unit :=
  let* Y := _predict_onehot X in
  let* n := gets n_layers in
  let* dZ := call_layer (n - 1) (backward_loss Y T) in
  let* _ := for_acc (range_down (n - 2) (-1)) dZ (fun l dZ =>
              call_layer l (backward dZ)) in
  ret tt.

Definition accuracy (X_test : ndarray) (T_test : targets cat) : M net float :=
  let* T_test := _one_hot_encoding T_test in
  let* Y_test := _predict_onehot X_test in
  let* Y_test_label := lift (argmax_axis1 Y_test) in
  let* T_test_label := lift (argmax_axis1 T_test) in
  let* matches := lift (count_equal Y_test_label T_test_label) in
  let* n := lift (shape0 X_test) in
  ret (PrimFloat.div (F64.of_Z matches) (F64.of_Z (Z.of_nat n))).

Definition _one_hot_encoding_reverse (T : ndarray) : M net (list cat) :=
  let* T_label := lift (argmax_axis1 T) in
  match T_label with
  | [] => raise ValueError
  | _ =>
      let* enc := gets one_hot_encoder_ in
      match enc with
      | None => raise (AttributeError "one_hot_encoder_")
      | Some cats => lift (py_mapM (getitem cats) T_label)
      end
  end.

Definition predict (X : ndarray) : M net (list cat) :=
  let* Y := _predict_onehot X in
  _one_hot_encoding_reverse Y.

Context `{Common}.

Definition _loss (X T : ndarray) : M net float :=
  let* Y := _predict_onehot X in
  let* lt := gets loss_type in
  if decide (lt = "cross_entropy") then lift (cross_entropy_error Y T)
  else if decide (lt = "squared_error") then lift (squared_error Y T)
  else raise (Exception loss_type_message).

Definition set_n_layers (n : Z) (s : net) : net :=
  {| layers := layers s; objects := objects s;
     learning_rate := learning_rate s;
     batch_size := batch_size s; n_iter := n_iter s;
     loss_type := loss_type s; solver := solver s;
     momentum := momentum s; beta_1 := beta_1 s; beta_2 := beta_2 s;
     epsilon := epsilon s; n_layers := n;
     optimizers := optimizers s;
     one_hot_encoder_ := one_hot_encoder_ s; np_random := np_random s |}.

(** The constructor, run on the store of layer objects and on the state
    of [np.random]; it gives the new object unless it raises.  [n_layers]
    and [optimizers] have no value before they are assigned: the object
    under construction holds [0] and the empty list there, which nothing
    reads before the assignment. *)
Definition __init__ (layers0 : list ref) (batch_size0 n_iter0 : nat)
    (loss_type0 : string) (learning_rate0 : float) (solver0 : string)
    (momentum0 beta_10 beta_20 epsilon0 : float)
  : M ((ref -> layer) * generator) net :=
  fun '(h, g) =>
    let self :=
      {| layers := layers0; objects := h; learning_rate := learning_rate0;
         batch_size := batch_size0; n_iter := n_iter0;
         loss_type := loss_type0; solver := solver0;
         momentum := momentum0; beta_1 := beta_10; beta_2 := beta_20;
         epsilon := epsilon0; n_layers := 0; optimizers := [];
         one_hot_encoder_ := None; np_random := g |} in
    if decide (loss_type0 ∈ ["cross_entropy"; "squared_error"])
    then
      match _initialize_parameters self with
      | (Val _, self) =>
          (Val (set_n_layers (Z.of_nat (length (layers self))) self),
           (objects self, np_random self))
      | (Raise e, self) => (Raise e, (objects self, np_random self))
      end
    else
      (Raise (Exception init_loss_type_message), (h, g)).
End methods.
End ConvolutionNet.

(** * A reference implementation of the absent collaborators

    The theorems above hold for every implementation of [Common], of
    [Layer] and of [Optimizers].  The instances below follow sections 4.1,
    4.2 and 4.4 of the specification; they are what the examples at the end
    of the file run on. *)

Module Reference.

(** Modelled from the spec: numpy's [exp] and [log], which the absent
    [common] functions call.  Truncated series stand in for the libm
    functions. *)
Definition exp (x : float) : float :=
  (foldl (fun '(acc, term) k =>
            let term' := PrimFloat.div (PrimFloat.mul term x) (F64.of_Z (Z.of_nat k)) in
            (PrimFloat.add acc term', term'))
         (F64.one, F64.one) (seq 1 24)).1.

Definition log (y : float) : float :=
  let z := PrimFloat.div (PrimFloat.sub y F64.one) (PrimFloat.add y F64.one) in
  let z2 := PrimFloat.mul z z in
  PrimFloat.mul F64.two
    (foldl (fun '(acc, pow) k =>
              (PrimFloat.add acc (PrimFloat.div pow (F64.of_Z (Z.of_nat (2 * k + 1)))),
               PrimFloat.mul pow z2))
           (F64.zero, z) (seq 0 40)).1.

Definition fsum (l : list float) : float := foldl PrimFloat.add F64.zero l.

Definition entry (a : ndarray) (cols i j : nat) : float :=
  nth (i * cols + j) (data a) F64.zero.

Definition matrix (n m : nat) (f : nat -> nat -> float) : ndarray :=
  NDArray [n; m] (seq 0 n ≫= fun i => map (f i) (seq 0 m)).

(** Modelled from the spec: the matrix product [A·B] of section 4.1. *)
Definition dot (A B : ndarray) : py ndarray :=
  match shape A, shape B with
  | [n; k], [k'; m] =>
      if decide (k = k')
      then Val (matrix n m (fun i j =>
             fsum (map (fun t => PrimFloat.mul (entry A k i t) (entry B m t j))
                       (seq 0 k))))
      else Raise ValueError
  | _, _ => Raise ValueError
  end.

Definition transpose (A : ndarray) : py ndarray :=
  match shape A with
  | [n; m] => Val (matrix m n (fun i j => entry A m j i))
  | _ => Raise ValueError
  end.

(** Modelled from the spec: the pre-activation [A = Z·W + b] of section
    4.1, the bias broadcast over the rows. *)
Definition affine (Z W b : ndarray) : py ndarray :=
  py_bind (dot Z W) (fun ZW =>
    match shape ZW, shape b with
    | [n; m], [m'] =>
        if decide (m = m')
        then Val (matrix n m (fun i j =>
               PrimFloat.add (entry ZW m i j) (nth j (data b) F64.zero)))
        else Raise ValueError
    | _, _ => Raise ValueError
    end).

Definition map_array (f : float -> float) (a : ndarray) : ndarray :=
  NDArray (shape a) (map f (data a)).

Definition relu (a : float) : float :=
  if PrimFloat.ltb F64.zero a then a else F64.zero.

Definition sigmoid (a : float) : float :=
  PrimFloat.div F64.one (PrimFloat.add F64.one (exp (PrimFloat.opp a))).

(** Modelled from the spec: [forward_middle], section 4.1: the output
    [activation(A)] and the pre-activation [A]. *)
Definition forward_middle (Z W b : ndarray) (activation_function : string)
  : py (ndarray * ndarray) :=
  py_bind (affine Z W b) (fun A =>
    if decide (activation_function = "relu") then Val (map_array relu A, A)
    else if decide (activation_function = "sigmoid")
         then Val (map_array sigmoid A, A)
    else Raise (Exception "activation_function"))%string.

Definition fmax (l : list float) : float :=
  foldl (fun m x => if PrimFloat.ltb m x then x else m) neg_infinity l.

Definition softmax_row (r : list float) : list float :=
  let c := fmax r in
  let e := map (fun x => exp (PrimFloat.sub x c)) r in
  let total := fsum e in
  map (fun x => PrimFloat.div x total) e.

(** Modelled from the spec: [forward_last_classification], section 4.1:
    softmax over the logits of every row, the row maximum subtracted
    before exponentiating. *)
Definition forward_last_classification (Z W b : ndarray) : py ndarray :=
  py_bind (affine Z W b) (fun A =>
    match shape A with
    | [n; m] => Val (NDArray [n; m]
                  (seq 0 n ≫= fun i => softmax_row (row m (data A) i)))
    | _ => Raise ValueError
    end).

Definition same_shape2 (Y T : ndarray) (r : nat -> nat -> py ndarray)
  : py ndarray :=
  match shape Y with
  | [n; m] => if decide (shape T = [n; m]) then r n m else Raise ValueError
  | _ => Raise ValueError
  end.

(** Modelled from the spec: the two losses, section 6: cross-entropy on
    probabilities clipped away from 0 and 1, and the squared error. *)
Definition clip (y : float) : float :=
  let eps := 0x1.ad7f29abcaf48p-24%float in
  if PrimFloat.ltb y eps then eps
  else if PrimFloat.ltb (PrimFloat.sub F64.one eps) y
       then PrimFloat.sub F64.one eps else y.

Definition cross_entropy_error (Y T : ndarray) : py float :=
  match shape Y with
  | [n; m] =>
      if decide (shape T = [n; m])
      then Val (PrimFloat.div
                  (PrimFloat.opp
                     (fsum (zip_with (fun y t => PrimFloat.mul t (log (clip y)))
                              (data Y) (data T))))
                  (F64.of_Z (Z.of_nat n)))
      else Raise ValueError
  | _ => Raise ValueError
  end.

Definition squared_error (Y T : ndarray) : py float :=
  if decide (shape Y = shape T)
  then Val (PrimFloat.mul 0.5%float
              (fsum (zip_with (fun y t =>
                       PrimFloat.mul (PrimFloat.sub y t) (PrimFloat.sub y t))
                     (data Y) (data T))))
  else Raise ValueError.

(** Modelled from the spec: the backward formulas of section 4.1. *)
Definition softmax_loss_backward (Y T : ndarray) : py ndarray :=
  same_shape2 Y T (fun n m =>
    Val (NDArray [n; m]
           (zip_with (fun y t => PrimFloat.div (PrimFloat.sub y t)
                                   (F64.of_Z (Z.of_nat n)))
              (data Y) (data T)))).

Definition affine_backward_bias (dA : ndarray) : py ndarray :=
  match shape dA with
  | [n; m] => Val (NDArray [m]
                (map (fun j => fsum (map (fun i => entry dA m i j) (seq 0 n)))
                     (seq 0 m)))
  | _ => Raise ValueError
  end.

Definition affine_backward_weight (dA Z_prev : ndarray) : py ndarray :=
  py_bind (transpose Z_prev) (fun Zt => dot Zt dA).

Definition affine_backward_zprev (dA W : ndarray) : py ndarray :=
  py_bind (transpose W) (fun Wt => dot dA Wt).

Definition relu_backward (dZ A : ndarray) : py ndarray :=
  same_shape2 dZ A (fun n m =>
    Val (NDArray [n; m]
           (zip_with (fun g a => if PrimFloat.ltb F64.zero a then g else F64.zero)
              (data dZ) (data A)))).

Definition sigmoid_backward (dZ Z : ndarray) : py ndarray :=
  same_shape2 dZ Z (fun n m =>
    Val (NDArray [n; m]
           (zip_with (fun g z => PrimFloat.mul g
                                   (PrimFloat.mul z (PrimFloat.sub F64.one z)))
              (data dZ) (data Z)))).

Definition common : Common :=
  Build_Common forward_middle forward_last_classification
    cross_entropy_error squared_error softmax_loss_backward
    affine_backward_bias affine_backward_weight affine_backward_zprev
    relu_backward sigmoid_backward.

(** Modelled from the spec: a dense layer under the contract of section
    4.2, the layer classes being absent: it owns its parameters and its
    gradients, [forward] keeps its input, [backward] stores the gradients
    and returns the gradient for the layer before.  On the output layer
    [backward(Y, T)] starts from [(Y - T) / batch_size]. *)
Record dense := Dense {
  dense_input_shape : list nat;
  dense_units : nat;
  dense_params : gmap string ndarray;
  dense_grads : gmap string ndarray;
  dense_input : option ndarray }.

Definition dense_initialize (input_shape : list nat)
  : M (dense * generator) unit :=
  fun '(ly, g) =>
    let n_in := prod_shape input_shape in
    let '(W, g') := randn n_in (dense_units ly) g in
    (Val tt,
     (Dense [n_in] (dense_units ly)
        (<["b" := zeros [dense_units ly]]> (<["W" := W]> ∅))
        (dense_grads ly) (dense_input ly), g')).

Definition dense_forward (Z : ndarray) : M dense ndarray :=
  fun ly =>
    let ly' := Dense (dense_input_shape ly) (dense_units ly) (dense_params ly)
                 (dense_grads ly) (Some Z) in
    (py_bind (dict_get (dense_params ly) "W") (fun W =>
     py_bind (dict_get (dense_params ly) "b") (fun b => affine Z W b)), ly').

Definition dense_backward (dA : ndarray) : M dense ndarray :=
  fun ly =>
    match dense_input ly, dense_params ly !! "W" with
    | Some Z, Some W =>
        match affine_backward_bias dA, affine_backward_weight dA Z,
              affine_backward_zprev dA W with
        | Val db, Val dW, Val dZ =>
            (Val dZ,
             Dense (dense_input_shape ly) (dense_units ly) (dense_params ly)
               (<["b" := db]> (<["W" := dW]> ∅)) (dense_input ly))
        | _, _, _ => (Raise ValueError, ly)
        end
    | _, _ => (Raise (AttributeError "backward before forward"), ly)
    end.

Definition dense_backward_loss (Y T : ndarray) : M dense ndarray :=
  fun ly =>
    match softmax_loss_backward Y T with
    | Val dA => dense_backward dA ly
    | Raise e => (Raise e, ly)
    end.

Definition dense_layer : Layer dense :=
  Build_Layer dense dense_input_shape (fun ly => [dense_units ly])
    dense_params dense_grads dense_initialize dense_forward dense_backward
    dense_backward_loss.

(** Modelled from the spec: the optimizers of section 4.4, reduced to
    what the network's set-up touches: the kind with its hyperparameters,
    and accumulators shaped like the parameters. *)
Record optimizer := Optimizer {
  opt_kind : string;
  opt_hyper : list float;
  opt_state : gmap string ndarray }.

Definition optimizers : Optimizers optimizer :=
  Build_Optimizers optimizer
    (fun lr => Optimizer "sgd" [lr] ∅)
    (fun lr mu => Optimizer "momentum" [lr; mu] ∅)
    (fun lr eps => Optimizer "adagrad" [lr; eps] ∅)
    (fun lr b2 eps => Optimizer "rmsprop" [lr; b2; eps] ∅)
    (fun lr b1 b2 eps => Optimizer "adam" [lr; b1; b2; eps] ∅)
    (fun ps o => (Val tt, Optimizer (opt_kind o) (opt_hyper o) (zeros_like <$> ps))).

(** Integer labels, sorted by [<=]. *)
Definition int_labels : Category Z := Build_Category Z _ Z.le _.
End Reference.

(** ** Worked instances

    A generator with fixed draws, the small network of the specification
    (two inputs, hidden layers of width three, two outputs) and a batch of
    two samples with one-hot targets. *)
Module Example.
#[local] Existing Instance Reference.dense_layer.
#[local] Existing Instance Reference.optimizers.

Definition gen0 : generator :=
  Generator
    (fun k => PrimFloat.sub
                (PrimFloat.div (F64.of_Z (Z.of_nat ((k * 37 + 11) mod 101)))
                               0x1.9p+5%float)
                F64.one)
    (fun k => k * 7 + 3) 0.

(** The attributes the constructor assigns before it initializes the
    parameters. *)
Definition net0 (n : Z) : NeuralNet Z :=
  {| input_size := 2; output_size := 2; hidden_size := 3; n_layers := n;
     learning_rate := 0x1p-3%float; batch_size := 2; n_iter := 1;
     loss_type := "cross_entropy"; activation_function := "relu";
     weight_init_std := F64.one; params := []; one_hot_encoder_ := None;
     train_loss_list := []; np_random := gen0 |}.

Definition X0 : ndarray :=
  NDArray [2; 2] [F64.one; F64.two; 0x1p-1%float; (-0x1p+0)%float].

Definition T0 : ndarray :=
  NDArray [2; 2] [F64.one; F64.zero; F64.zero; F64.one].

(** The network of two layers, initialized. *)
Definition net2 : NeuralNet Z :=
  (SGDNeuralNet._initialize_parameters (net0 2)).2.

(** A network of one layer from two inputs to two outputs. *)
Definition single : NeuralNet Z :=
  set_params
    [<["b" := zeros [2]]>
       (<["W" := NDArray [2; 2] [F64.one; F64.two; 0x1.8p+1%float; 0x1p+2%float]]> ∅)]
    (net0 1).

(** A network of one layer whose learning rate is negative and whose
    bias holds a negative zero. *)
Definition reversed : NeuralNet Z :=
  {| input_size := 2; output_size := 2; hidden_size := 2; n_layers := 1;
     learning_rate := (-0x1p-3)%float; batch_size := 2; n_iter := 1;
     loss_type := "cross_entropy"; activation_function := "relu";
     weight_init_std := F64.one;
     params :=
       [<["b" := NDArray [2] [PrimFloat.neg_zero; F64.zero]]>
          (<["W" := NDArray [2; 2]
                      [F64.one; F64.two; 0x1.8p+1%float; 0x1p+2%float]]> ∅)];
     one_hot_encoder_ := None; train_loss_list := []; np_random := gen0 |}.

(** Two dense layer objects; the second declares an input of width five,
    the first gives width three. *)
Definition store0 : ref -> Reference.dense :=
  fun r => if decide (r = 0) then Reference.Dense [2] 3 ∅ ∅ None
           else Reference.Dense [5] 2 ∅ ∅ None.

Definition conv0 : ConvolutionNet.t Z Reference.dense Reference.optimizer :=
  {| ConvolutionNet.layers := [0; 1];
     ConvolutionNet.objects := store0;
     ConvolutionNet.learning_rate := 0x1p-3%float;
     ConvolutionNet.batch_size := 2; ConvolutionNet.n_iter := 1;
     ConvolutionNet.loss_type := "cross_entropy";
     ConvolutionNet.solver := "sgd";
     ConvolutionNet.momentum := 0x1p-1%float;
     ConvolutionNet.beta_1 := 0x1p-1%float;
     ConvolutionNet.beta_2 := 0x1p-1%float;
     ConvolutionNet.epsilon := 0x1p-20%float;
     ConvolutionNet.n_layers := 2;
     ConvolutionNet.optimizers := [];
     ConvolutionNet.one_hot_encoder_ := None;
     ConvolutionNet.np_random := gen0 |}.

(** The same settings with no layer, and with the first layer object at
    both positions of the list. *)
Definition bare : ConvolutionNet.t Z Reference.dense Reference.optimizer :=
  {| ConvolutionNet.layers := [];
     ConvolutionNet.objects := store0;
     ConvolutionNet.learning_rate := 0x1p-3%float;
     ConvolutionNet.batch_size := 2; ConvolutionNet.n_iter := 1;
     ConvolutionNet.loss_type := "cross_entropy";
     ConvolutionNet.solver := "sgd";
     ConvolutionNet.momentum := 0x1p-1%float;
     ConvolutionNet.beta_1 := 0x1p-1%float;
     ConvolutionNet.beta_2 := 0x1p-1%float;
     ConvolutionNet.epsilon := 0x1p-20%float;
     ConvolutionNet.n_layers := 0;
     ConvolutionNet.optimizers := [];
     ConvolutionNet.one_hot_encoder_ := None;
     ConvolutionNet.np_random := gen0 |}.

(** The layered network, initialized. *)
Definition conv2 : ConvolutionNet.t Z Reference.dense Reference.optimizer :=
  (ConvolutionNet._initialize_parameters conv0).2.
End Example.

(** * Properties *)

(** ** Running a method *)

Lemma bind_Val {S A B} (c : M S A) (k : A -> M S B) s a s1 :
  c s = (Val a, s1) -> bind c k s = k a s1.
Proof. intros E. unfold bind. now rewrite E. Qed.

Lemma bind_Raise {S A B} (c : M S A) (k : A -> M S B) s e s1 :
  c s = (Raise e, s1) -> bind c k s = (Raise e, s1).
Proof. intros E. unfold bind. now rewrite E. Qed.

Lemma bind_inv {S A B} (c : M S A) (k : A -> M S B) s b s2 :
  bind c k s = (Val b, s2) ->
  exists a s1, c s = (Val a, s1) /\ k a s1 = (Val b, s2).
Proof.
  unfold bind. destruct (c s) as [[a|e] s1]; [eauto | discriminate].
Qed.

Lemma lift_inv {S A} (r : py A) (s s1 : S) a :
  lift r s = (Val a, s1) -> r = Val a /\ s1 = s.
Proof. unfold lift. intros [= -> ->]. auto. Qed.

Lemma py_bind_inv {A B} (r : py A) (k : A -> py B) b :
  py_bind r k = Val b -> exists a, r = Val a /\ k a = Val b.
Proof. destruct r; simpl; [eauto | discriminate]. Qed.

(** ** Subscripts *)

Lemma index_of_nonneg {A} (l : list A) (k : nat) :
  k < length l -> index_of l (Z.of_nat k) = Some k.
Proof.
  intros Hk. unfold index_of.
  destruct (Z.leb_spec 0 (Z.of_nat k)); [|lia].
  destruct (Z.ltb_spec (Z.of_nat k) (Z.of_nat (length l))); [|lia].
  now rewrite Nat2Z.id.
Qed.

Lemma index_of_lt {A} (l : list A) i k :
  index_of l i = Some k -> k < length l.
Proof.
  unfold index_of.
  destruct (Z.leb_spec 0 i).
  - destruct (Z.ltb_spec i (Z.of_nat (length l))); intros [= <-]; lia.
  - destruct (Z.leb_spec (- Z.of_nat (length l)) i); intros [= <-]; lia.
Qed.

Lemma index_of_nil {A} i : index_of (@nil A) i = None.
Proof.
  destruct (index_of (@nil A) i) as [k|] eqn:E; [|reflexivity].
  apply index_of_lt in E. simpl in E. lia.
Qed.

Lemma getitem_nonneg {A} (l : list A) (k : nat) x :
  l !! k = Some x -> getitem l (Z.of_nat k) = Val x.
Proof.
  intros Hx. unfold getitem.
  rewrite index_of_nonneg by (eapply lookup_lt_Some; eauto).
  now rewrite Hx.
Qed.

Lemma getitem_inv {A} (l : list A) i x :
  getitem l i = Val x -> exists k, index_of l i = Some k /\ l !! k = Some x.
Proof.
  unfold getitem. destruct (index_of l i) as [k|]; [|discriminate].
  destruct (l !! k) eqn:E; [|discriminate]. intros [= ->]. eauto.
Qed.

Lemma getitem_nil {A} i : getitem (@nil A) i = Raise IndexError.
Proof. unfold getitem. now rewrite index_of_nil. Qed.

(** ** The one-hot encoding *)

Section one_hot_facts.
Context {cat : Type} `{Category cat}.

Lemma fit_spec (x : cat) (l : list cat) :
  exists cats, OneHotEncoder_fit (x :: l) = Val cats
    /\ NoDup cats /\ (forall y, y ∈ cats <-> y ∈ x :: l).
Proof.
  eexists. split; [reflexivity|]. split.
  - rewrite merge_sort_Permutation. apply NoDup_remove_dups.
  - intros y. rewrite merge_sort_Permutation. apply elem_of_remove_dups.
Qed.

Lemma argmax_from_one (l : list cat) (x : cat) besti i :
  argmax_from F64.one besti i (indicator l x) = besti.
Proof.
  revert i. induction l as [|c l IH]; intros i; [reflexivity|].
  simpl. destruct (decide (c = x)); simpl; apply IH.
Qed.

Lemma argmax_from_zero (l : list cat) (x : cat) besti i :
  x ∈ l ->
  exists j, argmax_from F64.zero besti i (indicator l x) = i + j
            /\ l !! j = Some x.
Proof.
  revert i. induction l as [|c l IH]; intros i Hx.
  - now apply elem_of_nil in Hx.
  - simpl. destruct (decide (c = x)) as [->|Hne]; simpl.
    + exists 0. rewrite argmax_from_one. split; [lia | reflexivity].
    + apply elem_of_cons in Hx as [->|Hx]; [done|].
      destruct (IH (S i) Hx) as (j & -> & Hj).
      exists (S j). split; [lia | exact Hj].
Qed.

Lemma argmax_indicator (cats : list cat) (x : cat) :
  x ∈ cats -> cats !! argmax (indicator cats x) = Some x.
Proof.
  destruct cats as [|c cats]; intros Hx.
  - now apply elem_of_nil in Hx.
  - simpl. destruct (decide (c = x)) as [->|Hne]; simpl.
    + now rewrite argmax_from_one.
    + apply elem_of_cons in Hx as [->|Hx]; [done|].
      destruct (argmax_from_zero cats x 0 1 Hx) as (j & -> & Hj).
      exact Hj.
Qed.

Lemma length_indicator (cats : list cat) x :
  length (indicator cats x) = length cats.
Proof. unfold indicator. apply length_map. Qed.
End one_hot_facts.

Lemma row_bind {A} (f : A -> list float) (k : nat) (l : list A) i x :
  (forall y, length (f y) = k) -> l !! i = Some x ->
  row k (l ≫= f) i = f x.
Proof.
  intros Hk. unfold row. revert i.
  induction l as [|a l IH]; intros i Hi; [done|].
  rewrite bind_cons. destruct i as [|i]; simpl in Hi.
  - injection Hi as ->. change (0 * k) with 0. rewrite drop_0.
    rewrite take_app_length'; [done | symmetry; apply Hk].
  - replace (S i * k) with (length (f a) + i * k) by (rewrite Hk; lia).
    rewrite drop_app_add'; [|done]. now apply IH.
Qed.

Lemma map_rows_bind {A B} (f : A -> list float) (g : list float -> B) k (l : list A) :
  (forall y, length (f y) = k) ->
  map (fun i => g (row k (l ≫= f) i)) (seq 0 (length l)) = map (fun x => g (f x)) l.
Proof.
  intros Hk. apply list_eq. intros i.
  rewrite !list_lookup_fmap.
  destruct (l !! i) as [x|] eqn:Hi; simpl.
  - rewrite lookup_seq_lt by (eapply lookup_lt_Some; eauto). simpl.
    now rewrite (row_bind f k l i x).
  - rewrite lookup_seq_ge; [done|]. now apply lookup_ge_None.
Qed.

Section one_hot_round_trip.
Context {cat : Type} `{Category cat}.

Lemma decode_labels (cats : list cat) (l : list cat) :
  Forall (fun y => y ∈ cats) l ->
  py_mapM (getitem cats)
    (map (fun y => Z.of_nat (argmax (indicator cats y))) l) = Val l.
Proof.
  induction 1 as [|y l Hy Hl IH]; [reflexivity|].
  simpl. rewrite (getitem_nonneg cats _ y) by now apply argmax_indicator.
  simpl. now rewrite IH.
Qed.

Lemma argmax_axis1_encoded (cats l : list cat) :
  cats <> [] ->
  argmax_axis1 (NDArray [length l; length cats] (l ≫= indicator cats))
  = Val (map (fun y => Z.of_nat (argmax (indicator cats y))) l).
Proof.
  intros Hne. unfold argmax_axis1. simpl.
  destruct (decide (length cats = 0)) as [E|_].
  - destruct cats; [done | discriminate].
  - f_equal.
    apply (map_rows_bind (indicator cats) (fun r => Z.of_nat (argmax r))).
    intros y. apply length_indicator.
Qed.

(** C6.  Encoding a label vector that is not empty and decoding the
    result gives the label vector back, whatever values the labels
    take: [_one_hot_encoding] returns a one-hot matrix, and
    [_one_hot_encoding_reverse], run on that matrix in the state the
    encoding left, returns the original labels. *)
Theorem one_hot_round_trip (x : cat) (l : list cat) (s : NeuralNet cat) :
  exists T_onehot s1,
    SGDNeuralNet._one_hot_encoding (Labels (x :: l)) s = (Val T_onehot, s1)
    /\ SGDNeuralNet._one_hot_encoding_reverse T_onehot s1 = (Val (x :: l), s1).
Proof.
  destruct (fit_spec x l) as (cats & Hfit & Hnd & Hin).
  assert (Hall : Forall (fun y => y ∈ cats) (x :: l)).
  { apply Forall_forall. intros y Hy. now apply Hin. }
  assert (Hne : cats <> []).
  { intros ->. specialize (Hin x). rewrite elem_of_nil in Hin.
    apply Hin. now left. }
  exists (NDArray [length (x :: l); length cats] ((x :: l) ≫= indicator cats)).
  exists (set_one_hot_encoder_ (Some cats) s).
  split.
  - unfold SGDNeuralNet._one_hot_encoding.
    rewrite (bind_Val _ _ s cats s) by (unfold lift; now rewrite Hfit).
    unfold bind, modify, lift, OneHotEncoder_transform.
    now rewrite decide_True by exact Hall.
  - unfold SGDNeuralNet._one_hot_encoding_reverse.
    erewrite bind_Val;
      [|unfold lift; rewrite (argmax_axis1_encoded cats (x :: l) Hne); reflexivity].
    cbn [map]. unfold bind, gets, lift. cbn [one_hot_encoder_ set_one_hot_encoder_].
    change (Z.of_nat (argmax (indicator cats x))
            :: map (fun y => Z.of_nat (argmax (indicator cats y))) l)
      with (map (fun y => Z.of_nat (argmax (indicator cats y))) (x :: l)).
    now rewrite decode_labels.
Qed.
End one_hot_round_trip.

(** ** Methods that only read *)

(** A computation that leaves the attributes as they were, whether it
    returns or raises. *)
Definition read_only {S A} (c : M S A) : Prop := forall s, (c s).2 = s.

Lemma read_only_ret {S A} (a : A) : read_only (@ret S A a).
Proof. now intros s. Qed.

Lemma read_only_raise {S A} e : read_only (@raise S A e).
Proof. now intros s. Qed.

Lemma read_only_lift {S A} (r : py A) : read_only (@lift S A r).
Proof. now intros s. Qed.

Lemma read_only_gets {S A} (f : S -> A) : read_only (gets f).
Proof. now intros s. Qed.

Lemma read_only_bind {S A B} (c : M S A) (k : A -> M S B) :
  read_only c -> (forall a, read_only (k a)) -> read_only (bind c k).
Proof.
  intros Hc Hk s. unfold bind. specialize (Hc s).
  destruct (c s) as [[a|e] s1]; simpl in Hc; subst s1; [apply Hk | reflexivity].
Qed.

Lemma read_only_for_acc {S I A} (xs : list I) (body : I -> A -> M S A) a :
  (forall i a, read_only (body i a)) -> read_only (for_acc xs a body).
Proof.
  intros Hb. revert a. induction xs as [|i xs IH]; intros a; simpl.
  - apply read_only_ret.
  - apply read_only_bind; [apply Hb | intros a'; apply IH].
Qed.

Lemma read_only_eq {S A} (c : M S A) s r s1 :
  read_only c -> c s = (r, s1) -> s1 = s.
Proof. intros Hc E. specialize (Hc s). now rewrite E in Hc. Qed.

Create HintDb read_only.
#[export] Hint Resolve read_only_ret read_only_raise read_only_lift
  read_only_gets : read_only.

Ltac read_only_tac :=
  repeat first
    [ apply read_only_bind; [|intros ?]
    | apply read_only_for_acc; intros ? ?
    | solve [auto with read_only]
    | match goal with
      | |- read_only (let '(_, _) := ?p in _) => destruct p
      | |- read_only (if ?c then _ else _) => destruct c
      | |- read_only (match ?x with _ => _ end) => destruct x
      end ].

Section reading.
Context {cat : Type} `{Category cat} `{Common}.

Lemma read_only_get_param l name :
  read_only (@get_param cat l name).
Proof. unfold get_param. read_only_tac. Qed.

Lemma SGD_predict_onehot_read_only X :
  read_only (SGDNeuralNet._predict_onehot (cat := cat) X).
Proof.
  unfold SGDNeuralNet._predict_onehot.
  pose proof read_only_get_param. read_only_tac.
Qed.

Lemma SGD_loss_read_only X T :
  read_only (SGDNeuralNet._loss (cat := cat) X T).
Proof.
  unfold SGDNeuralNet._loss.
  pose proof SGD_predict_onehot_read_only. read_only_tac.
Qed.

Lemma Backprop_predict_onehot_train_read_only X :
  read_only (BackpropNeuralNet._predict_onehot_train (cat := cat) X).
Proof.
  unfold BackpropNeuralNet._predict_onehot_train.
  pose proof read_only_get_param. read_only_tac.
Qed.
End reading.

(** ** Reading and assigning [self.params[l][name]] *)

Section params_facts.
Context {cat : Type}.
Implicit Types s : NeuralNet cat.

(** Layer [l] exists and its dictionary holds [P] under [name]. *)
Definition param_at s (l : Z) (name : string) (P : ndarray) : Prop :=
  exists k d, index_of (params s) l = Some k
              /\ params s !! k = Some d /\ d !! name = Some P.

Lemma set_params_params s : set_params (params s) s = s.
Proof. now destruct s. Qed.

Lemma set_params_twice p q s : set_params p (set_params q s) = set_params p s.
Proof. reflexivity. Qed.

Lemma index_of_length {A B} (l : list A) (l' : list B) i :
  length l = length l' -> index_of l i = index_of l' i.
Proof. unfold index_of. now intros ->. Qed.

Lemma get_param_Val s l name P :
  param_at s l name P -> get_param l name s = (Val P, s).
Proof.
  intros (k & d & Hk & Hd & HP).
  unfold get_param, bind, gets, lift, getitem, dict_get.
  now rewrite Hk, Hd, HP.
Qed.

Lemma get_param_inv s l name P s' :
  get_param l name s = (Val P, s') -> s' = s /\ param_at s l name P.
Proof.
  unfold get_param, bind, gets, lift, getitem, dict_get, param_at.
  destruct (index_of (params s) l) as [k|] eqn:Hk; [|discriminate].
  destruct (params s !! k) as [d|] eqn:Hd; [|discriminate].
  destruct (d !! name) as [v|] eqn:Hv; [|discriminate].
  intros [= -> ->]. split; [reflexivity|]. eauto.
Qed.

Lemma dicts_set_Val (ds : list (gmap string ndarray)) l name v k d :
  index_of ds l = Some k -> ds !! k = Some d ->
  dicts_set ds l name v = Val (<[k := <[name := v]> d]> ds).
Proof.
  intros Hk Hd. unfold dicts_set, getitem, setitem. now rewrite Hk, Hd.
Qed.

Lemma dicts_set_inv (ds : list (gmap string ndarray)) l name v ds' :
  dicts_set ds l name v = Val ds' ->
  exists k d, index_of ds l = Some k /\ ds !! k = Some d
              /\ ds' = <[k := <[name := v]> d]> ds.
Proof.
  unfold dicts_set. intros (d & (k & Hk & Hd)%getitem_inv & E)%py_bind_inv.
  unfold setitem in E. rewrite Hk in E. injection E as <-. eauto.
Qed.

(** The attributes after [self.params[l][name] = v], where [k] is the
    position of layer [l] and [d] its dictionary. *)
Definition with_param (k : nat) (d : gmap string ndarray) (name : string)
    (v : ndarray) s : NeuralNet cat :=
  set_params (<[k := <[name := v]> d]> (params s)) s.

Lemma set_param_Val s l name v k d :
  index_of (params s) l = Some k -> params s !! k = Some d ->
  set_param l name v s = (Val tt, with_param k d name v s).
Proof.
  intros Hk Hd. unfold set_param, bind, gets, lift, modify.
  now rewrite (dicts_set_Val _ _ _ _ k d).
Qed.

Lemma set_param_with_param s l name v w k d :
  index_of (params s) l = Some k -> params s !! k = Some d ->
  set_param l name w (with_param k d name v s)
  = (Val tt, with_param k d name w s).
Proof.
  intros Hk Hd.
  assert (Hlt : k < length (params s)) by (eapply lookup_lt_Some; eauto).
  rewrite (set_param_Val _ _ _ _ k (<[name := v]> d)).
  - unfold with_param. cbn [params set_params].
    now rewrite set_params_twice, list_insert_insert_eq, insert_insert_eq.
  - unfold with_param. cbn [params set_params].
    rewrite <- Hk. apply index_of_length. apply length_insert.
  - unfold with_param. cbn [params set_params].
    now apply list_lookup_insert_eq.
Qed.

Lemma with_param_id s name P k d :
  params s !! k = Some d -> d !! name = Some P ->
  with_param k d name P s = s.
Proof.
  intros Hd HP. unfold with_param.
  rewrite (insert_id d name P HP), (list_insert_id _ _ _ Hd).
  apply set_params_params.
Qed.
End params_facts.

(** ** The numerical gradient *)

(** The data of [P_ravel ± np.eye(P_ravel.size)[idx] * h]. *)
Definition perturbed_data (f : float -> float -> float) (P : ndarray)
    (idx : nat) : list float :=
  zip_with f (data P)
    (map (fun v => PrimFloat.mul v F64.h)
       (map (fun j => if decide (j = idx) then F64.one else F64.zero)
          (seq 0 (length (data P))))).

Lemma length_perturbed_data f P idx :
  length (perturbed_data f P idx) = length (data P).
Proof.
  unfold perturbed_data.
  rewrite length_zip_with, !length_map, length_seq. lia.
Qed.

Lemma perturbed_Val f P idx :
  well_formed P ->
  SGDNeuralNet.perturbed f P idx = Val (NDArray (shape P) (perturbed_data f P idx)).
Proof.
  intros Hwf. unfold SGDNeuralNet.perturbed, elementwise, ravel, scale, eye_row,
    array_size, reshape. cbn [shape data].
  rewrite decide_True by reflexivity. cbn [py_bind shape data].
  fold (perturbed_data f P idx).
  rewrite decide_True; [reflexivity|].
  rewrite length_perturbed_data. symmetry. exact Hwf.
Qed.

Lemma perturbed_data_lookup f P idx j x :
  data P !! j = Some x ->
  perturbed_data f P idx !! j
  = Some (f x (PrimFloat.mul (if decide (j = idx) then F64.one else F64.zero) F64.h)).
Proof.
  intros Hx. unfold perturbed_data.
  rewrite lookup_zip_with, Hx. cbn.
  rewrite !list_lookup_fmap, lookup_seq_lt by (eapply lookup_lt_Some; eauto).
  reflexivity.
Qed.

(** The component that is moved, and the others. *)
Lemma perturbed_data_at f P idx x :
  data P !! idx = Some x ->
  perturbed_data f P idx !! idx = Some (f x F64.h).
Proof.
  intros Hx. rewrite (perturbed_data_lookup f P idx idx x Hx).
  now rewrite decide_True by reflexivity.
Qed.

Lemma perturbed_data_sub_other P idx j y :
  j <> idx -> data P !! j = Some y ->
  perturbed_data PrimFloat.sub P idx !! j = Some y.
Proof.
  intros Hne Hy. rewrite (perturbed_data_lookup _ P idx j y Hy).
  rewrite decide_False by exact Hne.
  change (PrimFloat.mul F64.zero F64.h) with F64.zero.
  now rewrite F64.sub_zero.
Qed.

Lemma perturbed_data_add_other P idx j y :
  j <> idx -> data P !! j = Some y ->
  (~ F64.is_neg_zero y /\ perturbed_data PrimFloat.add P idx !! j = Some y)
  \/ (F64.is_neg_zero y /\ perturbed_data PrimFloat.add P idx !! j = Some F64.zero).
Proof.
  intros Hne Hy. rewrite (perturbed_data_lookup _ P idx j y Hy).
  rewrite decide_False by exact Hne.
  change (PrimFloat.mul F64.zero F64.h) with F64.zero.
  unfold F64.is_neg_zero.
  destruct (Prim2SF y) as [[|]| | |] eqn:E.
  1: right; split; [reflexivity|]; f_equal; now apply F64.add_zero_neg_zero.
  all: left; split; [discriminate|]; f_equal; apply F64.add_zero;
    unfold F64.is_neg_zero; rewrite E; discriminate.
Qed.

Section numerical_gradient.
Context {cat : Type} `{Category cat} `{Common}.
Variables (X T : ndarray) (name : string) (l : Z).
Variables (s : NeuralNet cat) (k : nat) (d : gmap string ndarray) (P : ndarray).
Hypothesis Hk : index_of (params s) l = Some k.
Hypothesis Hd : params s !! k = Some d.
Hypothesis HP : d !! name = Some P.
Hypothesis Hwf : well_formed P.

Definition plus (idx : nat) : ndarray :=
  NDArray (shape P) (perturbed_data PrimFloat.add P idx).
Definition minus (idx : nat) : ndarray :=
  NDArray (shape P) (perturbed_data PrimFloat.sub P idx).

(** The loss with the parameter replaced by a perturbed copy. *)
Definition loss_plus (idx : nat) : py float :=
  (SGDNeuralNet._loss X T (with_param k d name (plus idx) s)).1.
Definition loss_minus (idx : nat) : py float :=
  (SGDNeuralNet._loss X T (with_param k d name (minus idx) s)).1.

Definition quotient (f1 f2 : float) : float :=
  PrimFloat.div (PrimFloat.sub f1 f2) (PrimFloat.mul F64.two F64.h).

Lemma loss_eq (s0 : NeuralNet cat) :
  SGDNeuralNet._loss X T s0 = ((SGDNeuralNet._loss X T s0).1, s0).
Proof.
  pose proof (SGD_loss_read_only X T s0) as E.
  destruct (SGDNeuralNet._loss X T s0) as [r s1]. simpl in *. now subst.
Qed.

Lemma step_eq idx grad :
  SGDNeuralNet._numerical_gradient_step X T name l P idx grad s =
  match loss_plus idx with
  | Raise e => (Raise e, with_param k d name (plus idx) s)
  | Val f1 =>
      match loss_minus idx with
      | Raise e => (Raise e, with_param k d name (minus idx) s)
      | Val f2 => (Val (array_set grad idx (quotient f1 f2)), s)
      end
  end.
Proof using Hk Hd HP Hwf.
  unfold SGDNeuralNet._numerical_gradient_step.
  rewrite (bind_Val _ _ s (plus idx) s)
    by (unfold lift; now rewrite perturbed_Val).
  rewrite (bind_Val _ _ s tt _ (set_param_Val s l name _ k d Hk Hd)).
  unfold bind at 1. rewrite loss_eq. fold (loss_plus idx).
  destruct (loss_plus idx) as [f1|e]; [|reflexivity].
  rewrite (bind_Val _ _ _ (minus idx) _)
    by (unfold lift; now rewrite perturbed_Val).
  rewrite (bind_Val _ _ _ tt _ (set_param_with_param s l name _ _ k d Hk Hd)).
  unfold bind at 1. rewrite loss_eq. fold (loss_minus idx).
  destruct (loss_minus idx) as [f2|e]; [|reflexivity].
  rewrite (bind_Val _ _ _ tt _ (set_param_with_param s l name _ P k d Hk Hd)).
  unfold ret. now rewrite (with_param_id s name P k d Hd HP).
Qed.

Lemma loop_inv m : forall a grad g s',
  for_acc (seq a m) grad (SGDNeuralNet._numerical_gradient_step X T name l P) s
    = (Val g, s') ->
  s' = s /\ shape g = shape grad /\ length (data g) = length (data grad)
  /\ (forall idx, a <= idx < a + m ->
        exists f1 f2, loss_plus idx = Val f1 /\ loss_minus idx = Val f2
          /\ (idx < length (data grad) ->
              data g !! idx = Some (quotient f1 f2)))
  /\ (forall idx, idx < a -> data g !! idx = data grad !! idx).
Proof using Hk Hd HP Hwf.
  induction m as [|m IH]; intros a grad g s'; cbn [seq for_acc].
  - unfold ret. intros [= -> ->]. repeat split; auto. intros idx; lia.
  - unfold bind. rewrite step_eq.
    destruct (loss_plus a) as [f1|e] eqn:E1; [|discriminate].
    destruct (loss_minus a) as [f2|e] eqn:E2; [|discriminate].
    intros Hrest. apply IH in Hrest as (-> & Hshape & Hlen & Hin & Hout).
    cbn [array_set shape data] in *. rewrite length_insert in Hlen.
    repeat split; auto.
    + intros idx Hidx. destruct (decide (idx = a)) as [->|Hne].
      * exists f1, f2. repeat split; auto. intros Hlt.
        rewrite Hout by lia. now apply list_lookup_insert_eq.
      * destruct (Hin idx ltac:(lia)) as (g1 & g2 & G1 & G2 & G3).
        exists g1, g2. repeat split; auto. intros Hlt. apply G3.
        now rewrite length_insert.
    + intros idx Hidx. rewrite Hout by lia.
      apply list_lookup_insert_ne. lia.
Qed.

Lemma loop_returns m : forall a grad,
  (forall idx, a <= idx < a + m ->
     returns (loss_plus idx) /\ returns (loss_minus idx)) ->
  exists g,
    for_acc (seq a m) grad (SGDNeuralNet._numerical_gradient_step X T name l P) s
    = (Val g, s) /\ shape g = shape grad /\ length (data g) = length (data grad).
Proof using Hk Hd HP Hwf.
  induction m as [|m IH]; intros a grad Hret; cbn [seq for_acc].
  - exists grad. auto.
  - destruct (Hret a ltac:(lia)) as [[f1 E1] [f2 E2]].
    unfold bind. rewrite step_eq, E1, E2.
    destruct (IH (S a) (array_set grad a (quotient f1 f2))) as (g & E & Hs & Hl).
    { intros idx Hidx. apply Hret. lia. }
    exists g. rewrite E. cbn [array_set shape data] in *.
    rewrite length_insert in Hl. auto.
Qed.
End numerical_gradient.

Section numerical_gradient_spec.
Context {cat : Type} `{Category cat} `{Common}.
Implicit Types s : NeuralNet cat.

Lemma step_shape X T name l P idx grad s g s' :
  SGDNeuralNet._numerical_gradient_step X T name l P idx grad s = (Val g, s') ->
  shape g = shape grad /\ length (data g) = length (data grad).
Proof.
  unfold SGDNeuralNet._numerical_gradient_step.
  intros (P1 & s1 & _ & E)%bind_inv.
  apply bind_inv in E as (? & s2 & _ & E).
  apply bind_inv in E as (f1 & s3 & _ & E).
  apply bind_inv in E as (P2 & s4 & _ & E).
  apply bind_inv in E as (? & s5 & _ & E).
  apply bind_inv in E as (f2 & s6 & _ & E).
  apply bind_inv in E as (? & s7 & _ & E).
  unfold ret in E. injection E as <- <-.
  cbn [array_set shape data]. now rewrite length_insert.
Qed.

Lemma loop_shape X T name l P idxs : forall grad s g s',
  for_acc idxs grad (SGDNeuralNet._numerical_gradient_step X T name l P) s
    = (Val g, s') ->
  shape g = shape grad /\ length (data g) = length (data grad).
Proof.
  induction idxs as [|i idxs IH]; intros grad s g s'; cbn [for_acc].
  - unfold ret. intros [= -> ->]. auto.
  - intros (g1 & s1 & (Hs & Hl)%step_shape & (Hs' & Hl')%IH)%bind_inv.
    split; congruence.
Qed.

(** What a call of [_numerical_gradient] that returns has done. *)
Lemma numerical_gradient_inv X T name l s g s' :
  SGDNeuralNet._numerical_gradient X T name l s = (Val g, s') ->
  exists k d P,
    index_of (params s) l = Some k /\ params s !! k = Some d
    /\ d !! name = Some P /\ well_formed P
    /\ s' = s /\ shape g = shape P
    /\ forall idx, idx < length (data P) ->
         exists f1 f2,
           loss_plus X T name s k d P idx = Val f1
           /\ loss_minus X T name s k d P idx = Val f2
           /\ data g !! idx = Some (quotient f1 f2).
Proof.
  unfold SGDNeuralNet._numerical_gradient.
  intros (P & s0 & [-> (k & d & Hk & Hd & HP)]%get_param_inv & E)%bind_inv.
  apply bind_inv in E as (g1 & s1 & Hloop & E).
  apply lift_inv in E as [E ->].
  unfold reshape in E. destruct (decide _) as [Hprod|]; [|discriminate].
  injection E as <-.
  destruct (loop_shape _ _ _ _ _ _ _ _ _ _ Hloop) as [Hs Hl].
  cbn [zeros_like ravel shape data array_size] in *.
  rewrite length_replicate in Hl.
  assert (Hwf : well_formed P) by (unfold well_formed; congruence).
  apply (loop_inv X T name l s k d P Hk Hd HP Hwf) in Hloop
    as (-> & _ & _ & Hin & _).
  exists k, d, P. repeat split; auto.
  unfold array_size, zeros_like, ravel in Hin. cbn [data] in Hin.
  rewrite length_replicate in Hin.
  intros idx Hidx. destruct (Hin idx ltac:(lia)) as (f1 & f2 & E1 & E2 & Hg).
  exists f1, f2. repeat split; auto.
Qed.

(** The call returns as soon as the loss can be evaluated at every
    perturbed parameter. *)
Lemma numerical_gradient_returns X T name l s k d P :
  index_of (params s) l = Some k -> params s !! k = Some d ->
  d !! name = Some P -> well_formed P ->
  (forall idx, idx < length (data P) ->
     returns (loss_plus X T name s k d P idx)
     /\ returns (loss_minus X T name s k d P idx)) ->
  exists g, SGDNeuralNet._numerical_gradient X T name l s = (Val g, s).
Proof.
  intros Hk Hd HP Hwf Hret. unfold SGDNeuralNet._numerical_gradient.
  rewrite (bind_Val _ _ s P s) by (apply get_param_Val; red; eauto).
  destruct (loop_returns X T name l s k d P Hk Hd HP Hwf
              (length (data P)) 0 (zeros_like (ravel P))) as (g & E & Hs & Hl).
  { intros idx Hidx. apply Hret. lia. }
  cbn [ravel array_size data]. rewrite (bind_Val _ _ _ _ _ E).
  unfold lift, reshape. cbn [zeros_like ravel data] in Hl.
  rewrite length_replicate in Hl.
  rewrite decide_True by (unfold well_formed in Hwf; congruence). eauto.
Qed.

(** C2.  When [_numerical_gradient] returns for layer [l] and key
    [name], whose parameter is [P], the state is what it was, and for
    every scalar component [idx] of [P]: the gradient holds
    [(loss(+h) - loss(-h)) / (2h)] with [h = 1e-4], where [loss(+h)] and
    [loss(-h)] are the losses after [self.params[l][name]] has been
    assigned the copies [P1] and [P2] of [P] in which component [idx] is
    [x + h] and [x - h]; every other component of [P2] is the one of
    [P], and so is every other component of [P1], except that a negative
    zero becomes the zero it equals; and the turn of the loop that
    handles [idx] ends with the original parameter in place. *)
Theorem numerical_gradient_central_difference
    (X T : ndarray) (name : string) (l : Z) s s' (g : ndarray) :
  SGDNeuralNet._numerical_gradient X T name l s = (Val g, s') ->
  exists P,
    param_at s l name P /\ s' = s /\ shape g = shape P
    /\ forall idx x, data P !! idx = Some x ->
         exists P1 P2 f1 f2 s1 s2,
           SGDNeuralNet.perturbed PrimFloat.add P idx = Val P1
           /\ SGDNeuralNet.perturbed PrimFloat.sub P idx = Val P2
           /\ shape P1 = shape P /\ shape P2 = shape P
           /\ data P1 !! idx = Some (PrimFloat.add x F64.h)
           /\ data P2 !! idx = Some (PrimFloat.sub x F64.h)
           /\ (forall j y, j <> idx -> data P !! j = Some y ->
                 data P2 !! j = Some y
                 /\ (data P1 !! j = Some y
                     \/ (F64.is_neg_zero y /\ data P1 !! j = Some F64.zero)))
           /\ (let* _ := set_param l name P1 in SGDNeuralNet._loss X T) s
              = (Val f1, s1)
           /\ (let* _ := set_param l name P2 in SGDNeuralNet._loss X T) s
              = (Val f2, s2)
           /\ data g !! idx
              = Some (PrimFloat.div (PrimFloat.sub f1 f2)
                        (PrimFloat.mul F64.two F64.h))
           /\ forall grad,
                (SGDNeuralNet._numerical_gradient_step X T name l P idx grad s).2
                = s.
Proof.
  intros (k & d & P & Hk & Hd & HP & Hwf & -> & Hshape & Hcomp)%numerical_gradient_inv.
  exists P. split; [red; eauto|]. split; [reflexivity|]. split; [exact Hshape|].
  intros idx x Hx.
  destruct (Hcomp idx) as (f1 & f2 & E1 & E2 & Hg).
  { eapply lookup_lt_Some; eauto. }
  exists (plus P idx), (minus P idx), f1, f2.
  exists (with_param k d name (plus P idx) s),
         (with_param k d name (minus P idx) s).
  split; [now apply perturbed_Val|]. split; [now apply perturbed_Val|].
  split; [reflexivity|]. split; [reflexivity|].
  split; [now apply perturbed_data_at|]. split; [now apply perturbed_data_at|].
  split.
  { intros j y Hne Hy. split; [now apply perturbed_data_sub_other|].
    destruct (perturbed_data_add_other P idx j y Hne Hy) as [[_ E]|E]; auto. }
  split.
  { rewrite (bind_Val _ _ _ _ _ (set_param_Val s l name _ k d Hk Hd)).
    rewrite loss_eq. fold (loss_plus X T name s k d P idx). now rewrite E1. }
  split.
  { rewrite (bind_Val _ _ _ _ _ (set_param_Val s l name _ k d Hk Hd)).
    rewrite loss_eq. fold (loss_minus X T name s k d P idx). now rewrite E2. }
  split; [exact Hg|].
  intros grad. rewrite (step_eq X T name l s k d P Hk Hd HP Hwf), E1, E2.
  reflexivity.
Qed.
End numerical_gradient_spec.

(** ** Gradient sets aligned with the parameter store *)

(** [grads] has one dictionary per layer of [ps], in the same order; each
    dictionary has exactly the keys ["W"] and ["b"], and the arrays under
    them have the shapes of the layer's weight matrix and bias vector. *)
Definition aligned (ps grads : list (gmap string ndarray)) : Prop :=
  length grads = length ps
  /\ forall i d, ps !! i = Some d ->
       exists gd gW gb PW Pb,
         grads !! i = Some gd /\ dom gd = ({["W"; "b"]} : gset string)
         /\ gd !! "W" = Some gW /\ gd !! "b" = Some gb
         /\ d !! "W" = Some PW /\ d !! "b" = Some Pb
         /\ shape gW = shape PW /\ shape gb = shape Pb.

(** Two gradient sets agree within [tol]: they have as many layers, and
    in every layer the arrays under ["W"] and under ["b"] have one shape
    and no two items differ by more than [tol] in absolute value. *)
Definition arrays_within (tol : float) (a b : ndarray) : bool :=
  bool_decide (shape a = shape b)
  && forallb (fun p => PrimFloat.leb (PrimFloat.abs (PrimFloat.sub p.1 p.2)) tol)
       (zip (data a) (data b)).

Definition entry_within (tol : float) (d e : gmap string ndarray) (k : string)
  : bool :=
  match d !! k, e !! k with
  | Some a, Some b => arrays_within tol a b
  | _, _ => false
  end.

Definition gradients_within (tol : float) (g1 g2 : list (gmap string ndarray))
  : bool :=
  bool_decide (length g1 = length g2)
  && forallb (fun p => entry_within tol p.1 p.2 "W" && entry_within tol p.1 p.2 "b")
       (zip g1 g2).

Lemma range_0 n : range 0 n = map Z.of_nat (seq 0 (Z.to_nat n)).
Proof. unfold range. now rewrite Z.sub_0_r. Qed.

Lemma index_of_nonneg_inv {A} (l : list A) (i k : nat) :
  index_of l (Z.of_nat i) = Some k -> k = i.
Proof.
  unfold index_of. destruct (Z.leb_spec 0 (Z.of_nat i)); [|lia].
  destruct (Z.ltb_spec (Z.of_nat i) (Z.of_nat (length l))); [|discriminate].
  intros [= <-]. apply Nat2Z.id.
Qed.

Section numerical_gradient_all.
Context {cat : Type} `{Category cat} `{Common}.
Variables (X T : ndarray) (s : NeuralNet cat).

(** Entry [i] of the gradient list once layer [i] has been handled. *)
Definition entry_done (i : nat) (gd : gmap string ndarray) : Prop :=
  exists d gW gb PW Pb,
    params s !! i = Some d
    /\ gd = <["b" := gb]> (<["W" := gW]> ∅)
    /\ d !! "W" = Some PW /\ d !! "b" = Some Pb
    /\ shape gW = shape PW /\ shape gb = shape Pb.

Definition done_upto (N a : nat) (grads : list (gmap string ndarray)) : Prop :=
  length grads = N
  /\ (forall i, i < a -> exists gd, grads !! i = Some gd /\ entry_done i gd)
  /\ (forall i, a <= i < N -> grads !! i = Some ∅).

Definition layer_body (l : Z) (grads : list (gmap string ndarray))
  : M (NeuralNet cat) (list (gmap string ndarray)) :=
  let* gW := SGDNeuralNet._numerical_gradient X T "W" l in
  let* grads := lift (dicts_set grads l "W" gW) in
  let* gb := SGDNeuralNet._numerical_gradient X T "b" l in
  lift (dicts_set grads l "b" gb).

Lemma layer_body_inv N a grads g s' :
  a < N -> done_upto N a grads ->
  layer_body (Z.of_nat a) grads s = (Val g, s') ->
  s' = s /\ done_upto N (S a) g.
Proof.
  intros Ha (Hlen & Hdone & Hrest). unfold layer_body.
  intros (gW & s1 & HW & E)%bind_inv.
  apply numerical_gradient_inv in HW
    as (k & d & PW & Hk & Hd & HPW & _ & -> & HsW & _).
  apply index_of_nonneg_inv in Hk as ->.
  apply bind_inv in E as (grads1 & s1 & [E1 ->]%lift_inv & E).
  apply dicts_set_inv in E1 as (k1 & d1 & Hk1 & Hd1 & ->).
  apply index_of_nonneg_inv in Hk1 as ->.
  rewrite Hrest in Hd1 by lia. injection Hd1 as <-.
  apply bind_inv in E as (gb & s1 & Hb & E).
  apply numerical_gradient_inv in Hb
    as (k & d' & Pb & Hk & Hd' & HPb & _ & -> & Hsb & _).
  apply index_of_nonneg_inv in Hk as ->.
  assert (d' = d) as -> by congruence.
  apply lift_inv in E as [E ->].
  apply dicts_set_inv in E as (k1 & d1 & Hk1 & Hd1 & ->).
  apply index_of_nonneg_inv in Hk1 as ->.
  rewrite list_lookup_insert_eq in Hd1 by lia. injection Hd1 as <-.
  split; [reflexivity|]. rewrite list_insert_insert_eq.
  split; [now rewrite length_insert|]. split.
  - intros i Hi. destruct (decide (i = a)) as [->|Hne].
    + eexists. split; [apply list_lookup_insert_eq; lia|].
      exists d, gW, gb, PW, Pb. auto 10.
    + rewrite list_lookup_insert_ne by lia. apply Hdone. lia.
  - intros i Hi. rewrite list_lookup_insert_ne by lia. apply Hrest. lia.
Qed.

Lemma layers_loop_inv N m : forall a grads g s',
  a + m <= N -> done_upto N a grads ->
  for_acc (map Z.of_nat (seq a m)) grads layer_body s = (Val g, s') ->
  s' = s /\ done_upto N (a + m) g.
Proof.
  induction m as [|m IH]; intros a grads g s' Hle Hinv; cbn [seq map for_acc].
  - unfold ret. intros [= -> ->]. now rewrite Nat.add_0_r.
  - intros (g1 & s1 & Hbody & Hrest)%bind_inv.
    apply (layer_body_inv N) in Hbody as [-> Hinv1]; [|lia|exact Hinv].
    apply IH in Hrest as [-> Hinv2]; [|lia|exact Hinv1].
    split; [reflexivity|]. now replace (a + S m) with (S a + m) by lia.
Qed.

Lemma numerical_gradient_all_inv grads s' :
  SGDNeuralNet.numerical_gradient_all X T s = (Val grads, s') ->
  s' = s /\ done_upto (Z.to_nat (n_layers s)) (Z.to_nat (n_layers s)) grads.
Proof.
  unfold SGDNeuralNet.numerical_gradient_all, bind at 1, gets.
  rewrite range_0. fold layer_body.
  apply (layers_loop_inv (Z.to_nat (n_layers s)) (Z.to_nat (n_layers s)) 0);
    [lia|].
  split; [apply length_replicate|]. split; [intros i; lia|].
  intros i Hi. apply lookup_replicate_2. lia.
Qed.

Lemma entry_done_dom i gd :
  entry_done i gd -> dom gd = ({["W"; "b"]} : gset string).
Proof.
  intros (d & gW & gb & PW & Pb & _ & -> & _).
  rewrite !dom_insert_L, dom_empty_L. set_solver.
Qed.

Lemma done_aligned grads :
  Z.of_nat (length (params s)) = n_layers s ->
  done_upto (Z.to_nat (n_layers s)) (Z.to_nat (n_layers s)) grads ->
  aligned (params s) grads.
Proof.
  intros Hn (Hlen & Hdone & _). split; [lia|].
  intros i d Hd.
  destruct (Hdone i) as (gd & Hgd & Hentry).
  { apply lookup_lt_Some in Hd. lia. }
  pose proof (entry_done_dom i gd Hentry) as Hdom.
  destruct Hentry as (d' & gW & gb & PW & Pb & Hd' & -> & HW & Hb & HsW & Hsb).
  assert (d' = d) as -> by congruence.
  exists (<["b" := gb]> (<["W" := gW]> ∅)), gW, gb, PW, Pb.
  split; [exact Hgd|]. split; [exact Hdom|].
  split; [now rewrite lookup_insert_ne, lookup_insert_eq|].
  split; [apply lookup_insert_eq|]. auto.
Qed.
End numerical_gradient_all.

(** ** Backpropagation reads the parameters and assigns none *)

Section backprop_frame.
Context {cat : Type} `{Category cat} `{Common}.

Lemma backward_step_read_only X Zs As l st :
  read_only (BackpropNeuralNet.backward_step (cat := cat) X Zs As l st).
Proof.
  unfold BackpropNeuralNet.backward_step. destruct st as [[dA dZ_prev] grads].
  pose proof (@read_only_get_param cat). read_only_tac.
Qed.

Lemma gradient_backpropagation_read_only X T :
  read_only (BackpropNeuralNet.gradient_backpropagation (cat := cat) X T).
Proof.
  unfold BackpropNeuralNet.gradient_backpropagation.
  pose proof (@read_only_get_param cat).
  pose proof (Backprop_predict_onehot_train_read_only (cat := cat)).
  pose proof backward_step_read_only.
  read_only_tac.
Qed.

(** C3.  A gradient computation that returns leaves the object as it
    found it, for every input batch and target batch; in particular every
    weight matrix and bias vector of [self.params] has the value it had
    before the call.  The numerical engine assigns perturbed copies while
    it runs and ends each turn by assigning the original back; the
    analytic engine assigns nothing. *)
Theorem gradient_computation_preserves_params (X T : ndarray) (s : NeuralNet cat) :
  (forall grads s',
     SGDNeuralNet.numerical_gradient_all X T s = (Val grads, s') ->
     s' = s /\ params s' = params s)
  /\ (forall grads s',
        BackpropNeuralNet.gradient_backpropagation X T s = (Val grads, s') ->
        s' = s /\ params s' = params s).
Proof.
  split; intros grads s' E.
  - apply numerical_gradient_all_inv in E as [-> _]. auto.
  - apply (read_only_eq _ _ _ _ (gradient_backpropagation_read_only X T)) in E.
    subst. auto.
Qed.

(** C9.  With [n_layers = 1] the analytic engine returns no gradient set:
    the loop of the forward pass does not run, [Z_intermediate] stays
    empty, and once the output-layer steps before it have succeeded the
    subscript [Z_intermediate[n_layers - 2]] raises [IndexError]. *)
Theorem gradient_backpropagation_single_layer (X T : ndarray) (s : NeuralNet cat) :
  n_layers s = 1%Z ->
  (forall grads s',
     BackpropNeuralNet.gradient_backpropagation X T s <> (Val grads, s'))
  /\ (forall Y Zs As dA db,
        BackpropNeuralNet._predict_onehot_train X s = (Val (Y, Zs, As), s) ->
        softmax_loss_backward Y T = Val dA ->
        affine_backward_bias dA = Val db ->
        Zs = [] /\
        BackpropNeuralNet.gradient_backpropagation X T s = (Raise IndexError, s)).
Proof.
  intros Hn.
  assert (Hfwd : forall Y Zs As s1,
            BackpropNeuralNet._predict_onehot_train X s = (Val (Y, Zs, As), s1) ->
            Zs = [] /\ s1 = s).
  { intros Y Zs As s1. unfold BackpropNeuralNet._predict_onehot_train.
    unfold bind at 1, gets. rewrite Hn. unfold bind at 1.
    change (range 0 (1 - 1)) with (@nil Z). cbn [for_acc].
    unfold bind at 1, ret.
    intros (W & s2 & [-> _]%get_param_inv & E)%bind_inv.
    apply bind_inv in E as (b & s2 & [-> _]%get_param_inv & E).
    apply bind_inv in E as (Zr & s2 & [_ ->]%lift_inv & E).
    now injection E as _ <- _ <-. }
  assert (Hraise : forall Y Zs As dA db,
            BackpropNeuralNet._predict_onehot_train X s = (Val (Y, Zs, As), s) ->
            softmax_loss_backward Y T = Val dA ->
            affine_backward_bias dA = Val db ->
            BackpropNeuralNet.gradient_backpropagation X T s = (Raise IndexError, s)).
  { intros Y Zs As dA db Efwd EdA Edb.
    destruct (Hfwd _ _ _ _ Efwd) as [-> _].
    unfold BackpropNeuralNet.gradient_backpropagation.
    rewrite (bind_Val _ _ _ _ _ Efwd). unfold bind at 1, gets. rewrite Hn.
    unfold bind, lift. rewrite EdA, Edb.
    change (1 - 2)%Z with (-1)%Z. now rewrite getitem_nil. }
  split.
  - intros grads s' E. pose proof E as E'.
    unfold BackpropNeuralNet.gradient_backpropagation in E.
    apply bind_inv in E as ([[Y Zs] As] & s1 & Efwd & E).
    destruct (Hfwd _ _ _ _ Efwd) as [-> ->].
    apply bind_inv in E as (n & s1 & _ & E).
    apply bind_inv in E as (dA & s2 & [EdA _]%lift_inv & E).
    apply bind_inv in E as (db & s3 & [Edb _]%lift_inv & E).
    rewrite (Hraise _ _ _ _ _ Efwd EdA Edb) in E'. discriminate.
  - intros Y Zs As dA db Efwd EdA Edb. split.
    + now destruct (Hfwd _ _ _ _ Efwd).
    + eauto.
Qed.
End backprop_frame.

(** ** The parameter update *)

(** [P - lr * g], item by item. *)
Definition sgd_step (lr : float) (P g : ndarray) : ndarray :=
  NDArray (shape P)
    (zip_with (fun p x => PrimFloat.sub p (PrimFloat.mul lr x)) (data P) (data g)).

(** The dictionary of one layer after the update with the gradients [gd]. *)
Definition updated_layer (lr : float) (d gd : gmap string ndarray)
    (d' : gmap string ndarray) : Prop :=
  exists PW gW Pb gb,
    d !! "W" = Some PW /\ gd !! "W" = Some gW
    /\ d !! "b" = Some Pb /\ gd !! "b" = Some gb
    /\ d' = <["b" := sgd_step lr Pb gb]> (<["W" := sgd_step lr PW gW]> d).

Lemma array_isub_lscale lr P g :
  shape g = shape P ->
  array_isub P (lscale lr g) = Val (sgd_step lr P g).
Proof.
  intros Hs. unfold array_isub, elementwise_inplace, lscale, sgd_step.
  cbn [shape data].
  rewrite decide_True by congruence. do 2 f_equal.
  now rewrite zip_with_fmap_r.
Qed.

Lemma sgd_step_zero lr P :
  F64.pos_finite lr -> sgd_step lr P (zeros_like P) = P.
Proof.
  intros Hlr. destruct P as [sh dat]. unfold sgd_step, zeros_like.
  cbn [shape data]. f_equal.
  induction dat as [|x dat IH]; [reflexivity|].
  cbn. now rewrite F64.sub_mul_zero, IH.
Qed.

Section update.
Context {cat : Type}.
Implicit Types s : NeuralNet cat.
Variable grads : list (gmap string ndarray).

Lemma update_parameter_Val s (i : nat) name d gd P g :
  params s !! i = Some d -> d !! name = Some P ->
  grads !! i = Some gd -> gd !! name = Some g -> shape g = shape P ->
  SGDNeuralNet.update_parameter grads (Z.of_nat i) name s
  = (Val tt, with_param i d name (sgd_step (learning_rate s) P g) s).
Proof.
  intros Hd HP Hgd Hg Hs.
  assert (Hi : index_of (params s) (Z.of_nat i) = Some i).
  { apply index_of_nonneg. eapply lookup_lt_Some; eauto. }
  unfold SGDNeuralNet.update_parameter.
  rewrite (bind_Val _ _ s P s) by (apply get_param_Val; red; eauto).
  unfold bind at 1, gets.
  rewrite (bind_Val _ _ s gd s)
    by (unfold lift; now rewrite (getitem_nonneg _ _ _ Hgd)).
  rewrite (bind_Val _ _ s g s) by (unfold lift, dict_get; now rewrite Hg).
  rewrite (bind_Val _ _ s (sgd_step (learning_rate s) P g) s)
    by (unfold lift; now rewrite array_isub_lscale).
  now apply set_param_Val.
Qed.

(** Layers below [a] are updated, the others are as in [ps]. *)
Definition updated_upto (lr : float) (ps : list (gmap string ndarray)) (a : nat)
    (ps' : list (gmap string ndarray)) : Prop :=
  length ps' = length ps
  /\ (forall i d gd, i < a -> ps !! i = Some d -> grads !! i = Some gd ->
        exists d', ps' !! i = Some d' /\ updated_layer lr d gd d')
  /\ (forall i, a <= i -> ps' !! i = ps !! i).

Lemma update_layer_Val s (i : nat) d gd PW gW Pb gb :
  params s !! i = Some d -> grads !! i = Some gd ->
  d !! "W" = Some PW -> gd !! "W" = Some gW -> shape gW = shape PW ->
  d !! "b" = Some Pb -> gd !! "b" = Some gb -> shape gb = shape Pb ->
  (let* _ := SGDNeuralNet.update_parameter grads (Z.of_nat i) "W" in
   SGDNeuralNet.update_parameter grads (Z.of_nat i) "b") s
  = (Val tt,
     set_params
       (<[i := <["b" := sgd_step (learning_rate s) Pb gb]>
                 (<["W" := sgd_step (learning_rate s) PW gW]> d)]> (params s)) s).
Proof.
  intros Hd Hgd HPW HgW HsW HPb Hgb Hsb.
  assert (Hlt : i < length (params s)) by (eapply lookup_lt_Some; eauto).
  rewrite (bind_Val _ _ _ _ _
             (update_parameter_Val s i "W" d gd PW gW Hd HPW Hgd HgW HsW)).
  rewrite (update_parameter_Val _ i "b"
             (<["W" := sgd_step (learning_rate s) PW gW]> d) gd Pb gb).
  - unfold with_param. cbn [params set_params learning_rate].
    now rewrite set_params_twice, list_insert_insert_eq.
  - unfold with_param. cbn [params set_params].
    now apply list_lookup_insert_eq.
  - now rewrite lookup_insert_ne.
  - exact Hgd.
  - exact Hgb.
  - exact Hsb.
Qed.

Lemma update_loop s0 (ps : list (gmap string ndarray)) m : forall a ps_a,
  aligned ps grads -> a + m <= length ps ->
  updated_upto (learning_rate s0) ps a ps_a ->
  exists ps',
    for_ (map Z.of_nat (seq a m))
      (fun l => let* _ := SGDNeuralNet.update_parameter grads l "W" in
                SGDNeuralNet.update_parameter grads l "b")
      (set_params ps_a s0)
    = (Val tt, set_params ps' s0)
    /\ updated_upto (learning_rate s0) ps (a + m) ps'.
Proof.
  induction m as [|m IH]; intros a ps_a Hal Hle Hinv; cbn [seq map for_].
  - exists ps_a. rewrite Nat.add_0_r. auto.
  - destruct Hinv as (Hlen & Hdone & Hrest).
    destruct (lookup_lt_is_Some_2 ps a ltac:(lia)) as [d Hd].
    destruct Hal as [Hglen Hal].
    destruct (Hal a d Hd)
      as (gd & gW & gb & PW & Pb & Hgd & _ & HgW & Hgb & HPW & HPb & HsW & Hsb).
    assert (Hd' : params (set_params ps_a s0) !! a = Some d).
    { cbn [params set_params]. rewrite Hrest by lia. exact Hd. }
    rewrite (bind_Val _ _ _ _ _
               (update_layer_Val _ a d gd PW gW Pb gb Hd' Hgd HPW HgW HsW HPb Hgb Hsb)).
    cbn [params set_params learning_rate]. rewrite set_params_twice.
    destruct (IH (S a)
                (<[a := <["b" := sgd_step (learning_rate s0) Pb gb]>
                          (<["W" := sgd_step (learning_rate s0) PW gW]> d)]> ps_a))
      as (ps' & E & Hinv'); [split; auto | lia | |].
    + split; [now rewrite length_insert|]. split.
      * intros i di gdi Hi Hdi Hgdi. destruct (decide (i = a)) as [->|Hne].
        -- eexists. split; [apply list_lookup_insert_eq; lia|].
           assert (di = d) as -> by congruence.
           assert (gdi = gd) as -> by congruence.
           exists PW, gW, Pb, gb. auto 10.
        -- rewrite list_lookup_insert_ne by lia. apply Hdone; auto. lia.
      * intros i Hi. rewrite list_lookup_insert_ne by lia. apply Hrest. lia.
    + exists ps'. split; [exact E|].
      now replace (a + S m) with (S a + m) by lia.
Qed.
End update.

(** The all-zero gradient set of a parameter store: [np.zeros_like] of
    every array. *)
Definition zero_gradients (ps : list (gmap string ndarray))
  : list (gmap string ndarray) :=
  map (fmap zeros_like) ps.

(** Every layer of the store has exactly a weight matrix and a bias
    vector, as [_initialize_parameters] builds it. *)
Definition weights_and_biases (ps : list (gmap string ndarray)) : Prop :=
  forall i d, ps !! i = Some d -> dom d = ({["W"; "b"]} : gset string).

Lemma weights_and_biases_lookup ps i d :
  weights_and_biases ps -> ps !! i = Some d ->
  exists PW Pb, d !! "W" = Some PW /\ d !! "b" = Some Pb.
Proof.
  intros Hwb Hd. specialize (Hwb i d Hd).
  assert (HW : "W" ∈ dom d) by (rewrite Hwb; set_solver).
  assert (Hb : "b" ∈ dom d) by (rewrite Hwb; set_solver).
  apply elem_of_dom in HW as [PW HW]. apply elem_of_dom in Hb as [Pb Hb].
  eauto.
Qed.

Lemma zero_gradients_aligned ps :
  weights_and_biases ps -> aligned ps (zero_gradients ps).
Proof.
  intros Hwb. split; [apply length_map|].
  intros i d Hd.
  destruct (weights_and_biases_lookup ps i d Hwb Hd) as (PW & Pb & HW & Hb).
  exists (zeros_like <$> d), (zeros_like PW), (zeros_like Pb), PW, Pb.
  split; [unfold zero_gradients; now rewrite list_lookup_fmap, Hd|].
  split; [rewrite dom_fmap_L; now apply (Hwb i)|].
  split; [now rewrite lookup_fmap, HW|].
  split; [now rewrite lookup_fmap, Hb|]. auto.
Qed.

(** The gradient set that holds [1.0] for every parameter item. *)
Definition ones_like (a : ndarray) : ndarray :=
  NDArray (shape a) (replicate (length (data a)) F64.one).

Definition unit_gradients (ps : list (gmap string ndarray))
  : list (gmap string ndarray) :=
  map (fmap ones_like) ps.

Lemma unit_gradients_aligned ps :
  weights_and_biases ps -> aligned ps (unit_gradients ps).
Proof.
  intros Hwb. split; [apply length_map|].
  intros i d Hd.
  destruct (weights_and_biases_lookup ps i d Hwb Hd) as (PW & Pb & HW & Hb).
  exists (ones_like <$> d), (ones_like PW), (ones_like Pb), PW, Pb.
  split; [unfold unit_gradients; now rewrite list_lookup_fmap, Hd|].
  split; [rewrite dom_fmap_L; now apply (Hwb i)|].
  split; [now rewrite lookup_fmap, HW|].
  split; [now rewrite lookup_fmap, Hb|]. auto.
Qed.

Section update_parameters.
Context {cat : Type}.
Implicit Types s : NeuralNet cat.

Lemma update_parameters_Val s grads :
  Z.of_nat (length (params s)) = n_layers s -> aligned (params s) grads ->
  exists ps',
    SGDNeuralNet.update_parameters grads s = (Val tt, set_params ps' s)
    /\ updated_upto grads (learning_rate s) (params s) (length (params s)) ps'.
Proof.
  intros Hn Hal. unfold SGDNeuralNet.update_parameters, bind at 1, gets.
  rewrite range_0, <- Hn, Nat2Z.id.
  pose proof (update_loop grads s (params s) (length (params s)) 0 (params s)
                Hal ltac:(lia)) as Hloop.
  rewrite set_params_params in Hloop. apply Hloop.
  split; [reflexivity|]. split; [intros i d gd Hi; lia | auto].
Qed.

(** C5.  On an object whose store has [n_layers] entries,
    [update_parameters] of [SGDNeuralNet] and of [BackpropNeuralNet]
    returns after replacing, in every layer, the weight matrix and the
    bias vector by [param - learning_rate * grad], item by item in
    binary64, for a gradient set aligned with the parameters; and with
    the gradient set whose items are all [+0.0] and a learning rate that
    is a positive finite number it leaves the object, hence every
    parameter, exactly as it was. *)
Theorem update_parameters_sgd s :
  Z.of_nat (length (params s)) = n_layers s ->
  (forall grads, aligned (params s) grads ->
     exists ps',
       SGDNeuralNet.update_parameters grads s = (Val tt, set_params ps' s)
       /\ BackpropNeuralNet.update_parameters grads s
          = (Val tt, set_params ps' s)
       /\ length ps' = length (params s)
       /\ forall i d gd name P g,
            params s !! i = Some d -> grads !! i = Some gd ->
            name = "W" \/ name = "b" ->
            d !! name = Some P -> gd !! name = Some g ->
            exists d' P',
              ps' !! i = Some d' /\ d' !! name = Some P'
              /\ shape P' = shape P
              /\ length (data P') = min (length (data P)) (length (data g))
              /\ forall j p x,
                   data P !! j = Some p -> data g !! j = Some x ->
                   data P' !! j
                   = Some (PrimFloat.sub p (PrimFloat.mul (learning_rate s) x)))
  /\ (weights_and_biases (params s) -> F64.pos_finite (learning_rate s) ->
      SGDNeuralNet.update_parameters (zero_gradients (params s)) s = (Val tt, s)
      /\ BackpropNeuralNet.update_parameters (zero_gradients (params s)) s
         = (Val tt, s)).
Proof.
  intros Hn. split.
  - intros grads Hal.
    destruct (update_parameters_Val s grads Hn Hal) as (ps' & E & Hlen & Hdone & _).
    exists ps'. split; [exact E|]. split; [exact E|]. split; [exact Hlen|].
    intros i d gd name P g Hd Hgd Hname HP Hg.
    destruct (Hdone i d gd) as (d' & Hd' & PW & gW & Pb & gb & HPW & HgW & HPb & Hgb & ->);
      [eapply lookup_lt_Some; eauto | auto | auto |].
    assert (Hlook : forall P g j p x,
              data P !! j = Some p -> data g !! j = Some x ->
              data (sgd_step (learning_rate s) P g) !! j
              = Some (PrimFloat.sub p (PrimFloat.mul (learning_rate s) x))).
    { intros P0 g0 j p x Hp Hx. unfold sgd_step. cbn [data].
      now rewrite lookup_zip_with, Hp, Hx. }
    destruct Hname as [-> | ->].
    + exists (<["b" := sgd_step (learning_rate s) Pb gb]>
               (<["W" := sgd_step (learning_rate s) PW gW]> d)),
             (sgd_step (learning_rate s) PW gW).
      assert (P = PW) as -> by congruence. assert (g = gW) as -> by congruence.
      split; [exact Hd'|].
      split; [now rewrite lookup_insert_ne, lookup_insert_eq|].
      split; [reflexivity|].
      split; [unfold sgd_step; cbn [data]; apply length_zip_with|].
      apply Hlook.
    + exists (<["b" := sgd_step (learning_rate s) Pb gb]>
               (<["W" := sgd_step (learning_rate s) PW gW]> d)),
             (sgd_step (learning_rate s) Pb gb).
      assert (P = Pb) as -> by congruence. assert (g = gb) as -> by congruence.
      split; [exact Hd'|].
      split; [now rewrite lookup_insert_eq|].
      split; [reflexivity|].
      split; [unfold sgd_step; cbn [data]; apply length_zip_with|].
      apply Hlook.
  - intros Hwb Hlr.
    assert (Ezero : SGDNeuralNet.update_parameters (zero_gradients (params s)) s
                    = (Val tt, s)); [|split; exact Ezero].
    destruct (update_parameters_Val s (zero_gradients (params s)) Hn
                (zero_gradients_aligned _ Hwb)) as (ps' & E & Hlen & Hdone & _).
    rewrite E. f_equal.
    assert (ps' = params s) as ->; [|apply set_params_params].
    apply list_eq. intros i.
    destruct (params s !! i) as [d|] eqn:Hd.
    + destruct (Hdone i d (zeros_like <$> d))
        as (d' & Hd' & PW & gW & Pb & gb & HPW & HgW & HPb & Hgb & ->);
        [eapply lookup_lt_Some; eauto | auto
        | unfold zero_gradients; now rewrite list_lookup_fmap, Hd |].
      rewrite Hd'. f_equal.
      rewrite lookup_fmap, HPW in HgW. injection HgW as <-.
      rewrite lookup_fmap, HPb in Hgb. injection Hgb as <-.
      rewrite !sgd_step_zero by exact Hlr.
      rewrite (insert_id d "W" PW HPW). apply insert_id, HPb.
    + apply lookup_ge_None. rewrite Hlen. now apply lookup_ge_None.
Qed.
End update_parameters.

(** ** Accuracy *)

Lemma quotient_all (n : Z) :
  (0 < n < 2 ^ 63)%Z -> PrimFloat.div (F64.of_Z n) (F64.of_Z n) = F64.one.
Proof.
  intros Hn. destruct (F64.of_Z_finite n Hn) as (m & e & E).
  exact (F64.div_self _ _ _ _ E).
Qed.

Lemma quotient_none (n : Z) :
  (0 < n < 2 ^ 63)%Z -> PrimFloat.div (F64.of_Z 0) (F64.of_Z n) = F64.zero.
Proof.
  intros Hn. destruct (F64.of_Z_finite n Hn) as (m & e & E).
  exact (F64.zero_div _ _ _ E).
Qed.

(** The number of rows on which two label vectors agree. *)
Definition agreements (a b : list Z) : nat :=
  length (filter (fun p => p.1 = p.2) (zip a b)).

Lemma agreements_all (a : list Z) : agreements a a = length a.
Proof.
  unfold agreements. induction a as [|x a IH]; [reflexivity|].
  cbn [zip zip_with]. rewrite filter_cons_True by reflexivity.
  cbn [length]. now rewrite IH.
Qed.

Lemma agreements_none (a b : list Z) :
  Forall (fun p => p.1 <> p.2) (zip a b) -> agreements a b = 0.
Proof.
  unfold agreements. induction 1 as [|p zs Hp _ IH]; [reflexivity|].
  now rewrite filter_cons_False.
Qed.

Lemma count_equal_same_length (a b : list Z) :
  length a = length b -> count_equal a b = Val (Z.of_nat (agreements a b)).
Proof. intros Hlen. unfold count_equal. now rewrite decide_True. Qed.

(** What the last lines of [accuracy] compute from the prediction [Y] for
    the batch [X] and the one-hot target [T]. *)
Lemma accuracy_tail_inv {S} (X Y T : ndarray) (s s' : S) (a : float) :
  (let* Y_test_label := lift (argmax_axis1 Y) in
   let* T_test_label := lift (argmax_axis1 T) in
   let* matches := lift (count_equal Y_test_label T_test_label) in
   let* n := lift (shape0 X) in
   ret (PrimFloat.div (F64.of_Z matches) (F64.of_Z (Z.of_nat n))))
    s = (Val a, s') ->
  s' = s
  /\ exists Y_label T_label matches n,
       argmax_axis1 Y = Val Y_label /\ argmax_axis1 T = Val T_label
       /\ count_equal Y_label T_label = Val matches /\ shape0 X = Val n
       /\ a = PrimFloat.div (F64.of_Z matches) (F64.of_Z (Z.of_nat n)).
Proof.
  intros (yl & s1 & [Hy ->]%lift_inv & E)%bind_inv.
  apply bind_inv in E as (tl & s1 & [Ht ->]%lift_inv & E).
  apply bind_inv in E as (c & s1 & [Hc ->]%lift_inv & E).
  apply bind_inv in E as (n & s1 & [Hn ->]%lift_inv & E).
  unfold ret in E. injection E as <- <-.
  split; [reflexivity|]. exists yl, tl, c, n. auto.
Qed.

Lemma accuracy_tail_run {S} (X Y T : ndarray) (s : S)
    (Y_label T_label : list Z) (n : nat) :
  argmax_axis1 Y = Val Y_label -> argmax_axis1 T = Val T_label ->
  length Y_label = length T_label -> shape0 X = Val n ->
  (let* Y_test_label := lift (argmax_axis1 Y) in
   let* T_test_label := lift (argmax_axis1 T) in
   let* matches := lift (count_equal Y_test_label T_test_label) in
   let* n := lift (shape0 X) in
   ret (PrimFloat.div (F64.of_Z matches) (F64.of_Z (Z.of_nat n)))) s
  = (Val (PrimFloat.div (F64.of_Z (Z.of_nat (agreements Y_label T_label)))
            (F64.of_Z (Z.of_nat n))), s).
Proof.
  intros HY HT Hlen Hn. unfold bind, lift, ret.
  now rewrite HY, HT, (count_equal_same_length _ _ Hlen), Hn.
Qed.

Section accuracy.
Context {cat : Type} `{Category cat} `{Common}.
Context {layer : Type} `{Layer layer} {optimizer : Type} `{Optimizers optimizer}.

(** C7.  Let the encoding of the target give [T_onehot] and the forward
    pass give the prediction [Y_test], with one arg-max index per row in
    [Y_label] and in [T_label], as many in the one as in the other.  Then
    [accuracy] returns the number of rows on which the two indices agree,
    divided by the number [n] of rows of [X_test], in each of the three
    classes.  For a batch that is not empty and a prediction of one row
    per sample this is exactly [1.0] when the indices agree on every row
    and exactly [0.0] when they agree on none. *)
Theorem accuracy_is_fraction (X_test : ndarray) (T_test : targets cat)
    (T_onehot Y_test : ndarray) (Y_label T_label : list Z) (n : nat) :
  argmax_axis1 Y_test = Val Y_label -> argmax_axis1 T_onehot = Val T_label ->
  length Y_label = length T_label -> shape0 X_test = Val n ->
  let a := PrimFloat.div (F64.of_Z (Z.of_nat (agreements Y_label T_label)))
                         (F64.of_Z (Z.of_nat n)) in
  (forall s s1 s2 : NeuralNet cat,
     SGDNeuralNet._one_hot_encoding T_test s = (Val T_onehot, s1) ->
     SGDNeuralNet._predict_onehot X_test s1 = (Val Y_test, s2) ->
     SGDNeuralNet.accuracy X_test T_test s = (Val a, s2))
  /\ (forall s s1 s2 : NeuralNet cat,
        BackpropNeuralNet._one_hot_encoding T_test s = (Val T_onehot, s1) ->
        BackpropNeuralNet._predict_onehot X_test s1 = (Val Y_test, s2) ->
        BackpropNeuralNet.accuracy X_test T_test s = (Val a, s2))
  /\ (forall s s1 s2 : ConvolutionNet.t cat layer optimizer,
        ConvolutionNet._one_hot_encoding T_test s = (Val T_onehot, s1) ->
        ConvolutionNet._predict_onehot X_test s1 = (Val Y_test, s2) ->
        ConvolutionNet.accuracy X_test T_test s = (Val a, s2))
  /\ (length Y_label = n -> (0 < Z.of_nat n < 2 ^ 63)%Z ->
      (Y_label = T_label -> a = F64.one)
      /\ (Forall (fun p => p.1 <> p.2) (zip Y_label T_label) -> a = F64.zero)).
Proof.
  intros HY HT Hlen Hn a.
  split; [|split; [|split]].
  - intros s s1 s2 E1 E2. unfold SGDNeuralNet.accuracy.
    rewrite (bind_Val _ _ _ _ _ E1), (bind_Val _ _ _ _ _ E2).
    now apply accuracy_tail_run.
  - intros s s1 s2 E1 E2. unfold BackpropNeuralNet.accuracy.
    rewrite (bind_Val _ _ _ _ _ E1), (bind_Val _ _ _ _ _ E2).
    now apply accuracy_tail_run.
  - intros s s1 s2 E1 E2. unfold ConvolutionNet.accuracy.
    rewrite (bind_Val _ _ _ _ _ E1), (bind_Val _ _ _ _ _ E2).
    now apply accuracy_tail_run.
  - intros Hrows Hpos. subst a. split.
    + intros ->. rewrite agreements_all, Hrows. now apply quotient_all.
    + intros Hnone. rewrite (agreements_none _ _ Hnone). now apply quotient_none.
Qed.
End accuracy.

(** ** Minibatches *)

(** The index vector [np.random.choice(n, size)] draws from generator [g]. *)
Definition drawn_mask (n size : nat) (g : generator) : list nat :=
  map (fun k => index_draws g (drawn g + k) mod n) (seq 0 size).

Lemma choice_Val n size g :
  n <> 0 -> choice n size g = (Val (drawn_mask n size g), advance g size).
Proof.
  intros Hn. unfold choice. rewrite decide_False; [reflexivity|]. tauto.
Qed.

Lemma drawn_mask_length n size g : length (drawn_mask n size g) = size.
Proof. unfold drawn_mask. now rewrite length_map, length_seq. Qed.

Lemma drawn_mask_lt n size g :
  n <> 0 -> Forall (fun i => i < n) (drawn_mask n size g).
Proof.
  intros Hn. unfold drawn_mask. apply Forall_fmap, Forall_forall.
  intros k _. cbn. now apply Nat.mod_upper_bound.
Qed.

Lemma take_rows_Val (a : ndarray) (mask : list nat) n sh :
  shape a = n :: sh -> Forall (fun i => i < n) mask ->
  take_rows a mask
  = Val (NDArray (length mask :: sh) (mask ≫= row (prod_shape sh) (data a))).
Proof.
  intros Hs Hmask. unfold take_rows. rewrite Hs.
  now rewrite decide_True by exact Hmask.
Qed.

(** More draws than rows: some row is drawn twice. *)
Lemma mask_repeats (mask : list nat) n :
  Forall (fun i => i < n) mask -> n < length mask -> ~ NoDup mask.
Proof.
  intros Hlt Hlen Hnd.
  assert (Hsub : mask ⊆+ seq 0 n).
  { apply NoDup_submseteq; [exact Hnd|]. intros i Hi.
    rewrite Forall_forall in Hlt. apply elem_of_seq. specialize (Hlt i Hi). lia. }
  apply submseteq_length in Hsub. rewrite length_seq in Hsub. lia.
Qed.

Section select_minibatch.
Context {cat : Type} `{Category cat}.
Context {layer : Type} `{Layer layer} {optimizer : Type} `{Optimizers optimizer}.

(** C10.  On a dataset of [n > 0] rows, [select_minibatch] draws
    [batch_size] row numbers below [n] from [np.random] and returns the
    rows of [X] and of [T] with these numbers, in the order drawn: exactly
    [batch_size] rows each, whatever [batch_size] is, and with some row
    repeated as soon as [batch_size] exceeds [n].  The arrays [X] and [T]
    are read only; the object changes in nothing but the state of the
    generator.  This holds for the three classes. *)
Theorem select_minibatch_rows (X T : ndarray) (n : nat) (sx st : list nat) :
  shape X = n :: sx -> shape T = n :: st -> n <> 0 ->
  (forall s : NeuralNet cat,
     let mask := drawn_mask n (batch_size s) (np_random s) in
     length mask = batch_size s /\ Forall (fun i => i < n) mask
     /\ (n < batch_size s -> ~ NoDup mask)
     /\ SGDNeuralNet.select_minibatch X T s
        = (Val (NDArray (batch_size s :: sx) (mask ≫= row (prod_shape sx) (data X)),
                NDArray (batch_size s :: st) (mask ≫= row (prod_shape st) (data T))),
           set_np_random (advance (np_random s) (batch_size s)) s)
     /\ BackpropNeuralNet.select_minibatch X T s
        = SGDNeuralNet.select_minibatch X T s)
  /\ (forall s : ConvolutionNet.t cat layer optimizer,
        let mask :=
          drawn_mask n (ConvolutionNet.batch_size s) (ConvolutionNet.np_random s) in
        length mask = ConvolutionNet.batch_size s /\ Forall (fun i => i < n) mask
        /\ (n < ConvolutionNet.batch_size s -> ~ NoDup mask)
        /\ ConvolutionNet.select_minibatch X T s
           = (Val (NDArray (ConvolutionNet.batch_size s :: sx)
                     (mask ≫= row (prod_shape sx) (data X)),
                   NDArray (ConvolutionNet.batch_size s :: st)
                     (mask ≫= row (prod_shape st) (data T))),
              ConvolutionNet.set_np_random
                (advance (ConvolutionNet.np_random s) (ConvolutionNet.batch_size s)) s)).
Proof.
  intros HX HT Hn. split; intros s mask.
  - assert (Hlen : length mask = batch_size s) by apply drawn_mask_length.
    assert (Hlt : Forall (fun i => i < n) mask) by now apply drawn_mask_lt.
    split; [exact Hlen|]. split; [exact Hlt|].
    split; [intros Hbig; apply (mask_repeats mask n Hlt); lia|].
    split; [|reflexivity].
    unfold SGDNeuralNet.select_minibatch, bind, lift, gets, shape0,
      np_random_choice, ret.
    rewrite HX, (choice_Val n _ _ Hn). fold mask.
    rewrite (take_rows_Val X mask n sx HX Hlt), (take_rows_Val T mask n st HT Hlt).
    now rewrite Hlen.
  - assert (Hlen : length mask = ConvolutionNet.batch_size s)
      by apply drawn_mask_length.
    assert (Hlt : Forall (fun i => i < n) mask) by now apply drawn_mask_lt.
    split; [exact Hlen|]. split; [exact Hlt|].
    split; [intros Hbig; apply (mask_repeats mask n Hlt); lia|].
    unfold ConvolutionNet.select_minibatch, bind, lift, gets, shape0, ret.
    rewrite HX, (choice_Val n _ _ Hn). fold mask.
    rewrite (take_rows_Val X mask n sx HX Hlt), (take_rows_Val T mask n st HT Hlt).
    now rewrite Hlen.
Qed.
End select_minibatch.

(** ** Initialization *)

(** A loop all of whose turns return keeps an invariant indexed by the
    number of turns done. *)
Lemma for_invariant {S I} (Inv : nat -> S -> Prop) (xs : list I)
    (body : I -> M S unit) :
  (forall k i s, xs !! k = Some i -> Inv k s ->
     exists s', body i s = (Val tt, s') /\ Inv (Datatypes.S k) s') ->
  forall s, Inv 0 s ->
  exists s', for_ xs body s = (Val tt, s') /\ Inv (length xs) s'.
Proof.
  revert Inv. induction xs as [|i xs IH]; intros Inv Hbody s H0.
  - exists s. auto.
  - destruct (Hbody 0 i s eq_refl H0) as (s1 & E1 & H1).
    destruct (IH (fun k => Inv (Datatypes.S k))) with (s := s1) as (s2 & E2 & H2).
    + intros k j s' Hj Hk. now apply (Hbody (Datatypes.S k) j s').
    + exact H1.
    + exists s2. cbn [for_ length]. now rewrite (bind_Val _ _ _ _ _ E1).
Qed.

(** The widths of layer [i] in a network of [N] layers: what the layer
    receives and what it gives. *)
Definition width_in {cat} (s : NeuralNet cat) (i : nat) : nat :=
  if decide (i = 0) then input_size s else hidden_size s.

Definition width_out {cat} (s : NeuralNet cat) (N i : nat) : nat :=
  if decide (i = N - 1) then output_size s else hidden_size s.

(** Layer [i] under construction: which of its two parameters it has, and
    their shapes. *)
Definition layer_built (inw outw : nat) (w b : bool) (d : gmap string ndarray)
  : Prop :=
  dom d = ((if w then {["W"]} else ∅) ∪ (if b then {["b"]} else ∅) : gset string)
  /\ (forall W, d !! "W" = Some W -> shape W = [inw; outw] /\ well_formed W)
  /\ (forall v, d !! "b" = Some v -> shape v = [outw] /\ well_formed v).

(** The parameter store of a network: one dictionary per layer, holding a
    weight matrix of shape (width in, width out) and a bias vector of
    length (width out), where every layer receives what the layer before
    it gives. *)
Definition consistent_store {cat} (s : NeuralNet cat) : Prop :=
  let N := Z.to_nat (n_layers s) in
  length (params s) = N
  /\ (forall i d, params s !! i = Some d ->
        layer_built (width_in s i) (width_out s N i) true true d)
  /\ (forall i, S i < N -> width_out s N i = width_in s (S i)).

Lemma layer_built_W inw outw b d W :
  layer_built inw outw false b d -> shape W = [inw; outw] -> well_formed W ->
  layer_built inw outw true b (<["W" := W]> d).
Proof.
  intros (Hdom & HW & Hb) Hs Hwf. split; [|split].
  - rewrite dom_insert_L, Hdom. clear. destruct b; set_solver.
  - intros W'. rewrite lookup_insert_eq. now intros [= <-].
  - intros v. rewrite lookup_insert_ne by done. apply Hb.
Qed.

Lemma layer_built_b inw outw w d v :
  layer_built inw outw w false d -> shape v = [outw] -> well_formed v ->
  layer_built inw outw w true (<["b" := v]> d).
Proof.
  intros (Hdom & HW & Hb) Hs Hwf. split; [|split].
  - rewrite dom_insert_L, Hdom. clear. destruct w; set_solver.
  - intros W'. rewrite lookup_insert_ne by done. apply HW.
  - intros v'. rewrite lookup_insert_eq. now intros [= <-].
Qed.

Lemma layer_built_empty inw outw : layer_built inw outw false false ∅.
Proof.
  split; [|split].
  - rewrite dom_empty_L. set_solver.
  - intros W. now rewrite lookup_empty.
  - intros v. now rewrite lookup_empty.
Qed.

Lemma randn_shape d0 d1 g :
  shape (randn d0 d1 g).1 = [d0; d1] /\ well_formed (randn d0 d1 g).1.
Proof.
  split; [reflexivity|]. unfold well_formed. cbn.
  rewrite length_map, length_seq. lia.
Qed.

Lemma lscale_shape x a :
  shape (lscale x a) = shape a /\ (well_formed a -> well_formed (lscale x a)).
Proof.
  split; [reflexivity|]. unfold well_formed, lscale. cbn. now rewrite length_map.
Qed.

Lemma zeros_shape sh : shape (zeros sh) = sh /\ well_formed (zeros sh).
Proof.
  split; [reflexivity|]. unfold well_formed, zeros. cbn. apply length_replicate.
Qed.

Lemma range_lookup a b k i :
  range a b !! k = Some i -> i = (a + Z.of_nat k)%Z /\ (Z.of_nat k < b - a)%Z.
Proof.
  unfold range. rewrite list_lookup_fmap.
  destruct (seq 0 (Z.to_nat (b - a)) !! k) as [j|] eqn:E; [|discriminate].
  apply lookup_seq in E as [-> Hlt]. cbn. intros [= <-]. split; [reflexivity|lia].
Qed.

Lemma range_length a b : length (range a b) = Z.to_nat (b - a).
Proof. unfold range. now rewrite length_map, length_seq. Qed.

Section initialize_parameters.
Context {cat : Type}.
Variable s0 : NeuralNet cat.
Let N := Z.to_nat (n_layers s0).

(** Initialization assigns [params] and draws from [np.random]; the other
    attributes stay. *)
Definition same_config (s : NeuralNet cat) : Prop :=
  input_size s = input_size s0 /\ output_size s = output_size s0
  /\ hidden_size s = hidden_size s0 /\ n_layers s = n_layers s0
  /\ weight_init_std s = weight_init_std s0
  /\ learning_rate s = learning_rate s0 /\ batch_size s = batch_size s0
  /\ n_iter s = n_iter s0 /\ loss_type s = loss_type s0
  /\ activation_function s = activation_function s0
  /\ one_hot_encoder_ s = one_hot_encoder_ s0
  /\ train_loss_list s = train_loss_list s0.

(** The store while it is built: [wd i] and [bd i] tell whether layer [i]
    has its weight matrix and its bias vector. *)
Definition stage (wd bd : nat -> bool) (s : NeuralNet cat) : Prop :=
  same_config s /\ length (params s) = N
  /\ forall i d, params s !! i = Some d ->
       layer_built (width_in s0 i) (width_out s0 N i) (wd i) (bd i) d.

Lemma stage_ext wd wd' bd bd' s :
  (forall i, i < N -> wd i = wd' i) -> (forall i, i < N -> bd i = bd' i) ->
  stage wd bd s -> stage wd' bd' s.
Proof using Type.
  intros Hw Hb (Hc & Hlen & Hl). split; [exact Hc|]. split; [exact Hlen|].
  intros i d Hd.
  assert (Hi : i < N) by (rewrite <- Hlen; eapply lookup_lt_Some; eauto).
  rewrite <- (Hw i Hi), <- (Hb i Hi). now apply Hl.
Qed.

Lemma stage_set (name : string) wd bd wd' bd' s (i : nat) (v : ndarray) :
  stage wd bd s -> i < N ->
  (forall j, j <> i -> wd' j = wd j /\ bd' j = bd j) ->
  (forall d, layer_built (width_in s0 i) (width_out s0 N i) (wd i) (bd i) d ->
     layer_built (width_in s0 i) (width_out s0 N i) (wd' i) (bd' i)
       (<[name := v]> d)) ->
  exists s', set_param (Z.of_nat i) name v s = (Val tt, s') /\ stage wd' bd' s'.
Proof using Type.
  intros (Hc & Hlen & Hl) Hi Hother Hbuilt.
  destruct (lookup_lt_is_Some_2 (params s) i ltac:(lia)) as [d Hd].
  exists (with_param i d name v s). split.
  - apply set_param_Val; [apply index_of_nonneg; lia | exact Hd].
  - split; [exact Hc|]. unfold with_param. cbn [params set_params].
    split; [now rewrite length_insert|].
    intros j dj. destruct (decide (j = i)) as [->|Hne].
    + rewrite list_lookup_insert_eq by lia. intros [= <-]. apply Hbuilt, Hl, Hd.
    + rewrite list_lookup_insert_ne by lia. intros Hdj.
      destruct (Hother j Hne) as [-> ->]. now apply Hl.
Qed.

Lemma stage_randn wd bd s d0 d1 :
  stage wd bd s ->
  exists W s', np_random_randn d0 d1 s = (Val W, s') /\ stage wd bd s'
               /\ shape W = [d0; d1] /\ well_formed W.
Proof using Type.
  intros Hst. unfold np_random_randn.
  pose proof (randn_shape d0 d1 (np_random s)) as [Hs Hwf].
  destruct (randn d0 d1 (np_random s)) as [W g]. cbn in Hs, Hwf.
  exists W, (set_np_random g s). split; [reflexivity|].
  split; [|split; assumption].
  destruct Hst as (Hc & Hlen & Hl).
  split; [exact Hc|]. split; [exact Hlen | exact Hl].
Qed.

(** Assigning the weight matrix of layer [i], freshly drawn. *)
Lemma stage_draw_W wd bd s (i : nat) :
  stage wd bd s -> i < N -> wd i = false ->
  exists s',
    (let* W := np_random_randn (width_in s0 i) (width_out s0 N i) in
     set_param (Z.of_nat i) "W" (lscale (weight_init_std s0) W)) s
    = (Val tt, s')
    /\ stage (fun j => if decide (j = i) then true else wd j) bd s'.
Proof using Type.
  intros Hst Hi Hw.
  destruct (stage_randn wd bd s (width_in s0 i) (width_out s0 N i) Hst)
    as (W & s1 & E1 & Hst1 & Hs & Hwf).
  destruct (stage_set "W" wd bd (fun j => if decide (j = i) then true else wd j) bd
              s1 i (lscale (weight_init_std s0) W) Hst1 Hi) as (s2 & E2 & Hst2).
  - intros j Hne. now rewrite decide_False.
  - intros d. rewrite decide_True, Hw by reflexivity. intros Hb.
    apply layer_built_W; [exact Hb | exact Hs | now apply lscale_shape].
  - exists s2. now rewrite (bind_Val _ _ _ _ _ E1).
Qed.

Lemma stage_zero_b wd bd s (i : nat) :
  stage wd bd s -> i < N -> bd i = false ->
  exists s',
    set_param (Z.of_nat i) "b" (zeros [width_out s0 N i]) s = (Val tt, s')
    /\ stage wd (fun j => if decide (j = i) then true else bd j) s'.
Proof using Type.
  intros Hst Hi Hb.
  apply (stage_set "b" wd bd); auto.
  - intros j Hne. now rewrite decide_False.
  - intros d. rewrite decide_True, Hb by reflexivity. intros Hd.
    apply layer_built_b; [exact Hd | apply zeros_shape | apply zeros_shape].
Qed.
End initialize_parameters.

Lemma bind_bind_Val {S A B} (c : M S A) (k : A -> M S unit) (k' : M S B) s s' :
  bind c k s = (Val tt, s') ->
  bind c (fun a => bind (k a) (fun _ => k')) s = k' s'.
Proof.
  unfold bind. destruct (c s) as [[a|e] s1]; [|discriminate].
  now intros ->.
Qed.

Section initialize_parameters_spec.
Context {cat : Type}.

(** For a network of two layers or more, [_initialize_parameters]
    returns, and the store it leaves is consistent: the widths of adjacent
    layers agree by construction. *)
Lemma initialize_parameters_consistent (s0 : NeuralNet cat) :
  (2 <= n_layers s0)%Z ->
  exists s', SGDNeuralNet._initialize_parameters s0 = (Val tt, s')
             /\ same_config s0 s' /\ consistent_store s'.
Proof.
  intros Hn. set (N := Z.to_nat (n_layers s0)).
  assert (HN : 2 <= N) by lia.
  unfold SGDNeuralNet._initialize_parameters.
  unfold bind at 1, gets. unfold bind at 1, modify.
  set (s1 := set_params (replicate N ∅) s0).
  assert (H1 : stage s0 (fun _ => false) (fun _ => false) s1).
  { split; [repeat split|]. split; [apply length_replicate|].
    intros i d [-> _]%lookup_replicate. apply layer_built_empty. }
  do 4 (unfold bind at 1, gets).
  change (weight_init_std s1) with (weight_init_std s0).
  change (input_size s1) with (input_size s0).
  change (hidden_size s1) with (hidden_size s0).
  change (output_size s1) with (output_size s0).
  (* the first layer's weights *)
  destruct (stage_draw_W s0 _ _ s1 0 H1 ltac:(lia) eq_refl) as (s2 & E2 & H2).
  unfold width_in, width_out in E2. rewrite decide_True in E2 by reflexivity.
  rewrite decide_False in E2 by lia.
  rewrite (bind_bind_Val _ _ _ _ _ E2). clear E2.
  (* the hidden layers' weights *)
  destruct (for_invariant
              (fun k => stage s0 (fun j => bool_decide (j < 1 + k)) (fun _ => false))
              (range 1 (n_layers s0 - 1))
              (fun l => let* Wl := np_random_randn (hidden_size s0) (hidden_size s0) in
                        set_param l "W" (lscale (weight_init_std s0) Wl)))
    with (s := s2) as (s3 & E3 & H3).
  { intros k i s [-> Hk]%range_lookup Hst.
    destruct (stage_draw_W s0 _ _ s (S k) Hst ltac:(lia)) as (s' & E & Hst').
    { apply bool_decide_eq_false. lia. }
    unfold width_in, width_out in E. rewrite !decide_False in E by lia.
    replace (1 + Z.of_nat k)%Z with (Z.of_nat (S k)) by lia.
    exists s'. split; [exact E|].
    eapply stage_ext; [| |exact Hst']; [|reflexivity].
    intros j Hj. cbn. destruct (decide (j = S k)) as [->|Hne].
    - symmetry. apply bool_decide_eq_true. lia.
    - apply bool_decide_ext. lia. }
  { eapply stage_ext; [| |exact H2]; [|reflexivity].
    intros j Hj. cbn. destruct (decide (j = 0)) as [->|Hne].
    - symmetry. apply bool_decide_eq_true. lia.
    - symmetry. apply bool_decide_eq_false. lia. }
  rewrite (bind_Val _ _ _ _ _ E3). clear E3.
  rewrite range_length in H3.
  (* the output layer's weights *)
  destruct (stage_draw_W s0 _ _ s3 (N - 1) H3 ltac:(lia)) as (s4 & E4 & H4).
  { apply bool_decide_eq_false. lia. }
  unfold width_in, width_out in E4. rewrite decide_False in E4 by lia.
  rewrite decide_True in E4 by reflexivity.
  replace (Z.of_nat (N - 1)) with (n_layers s0 - 1)%Z in E4 by lia.
  rewrite (bind_bind_Val _ _ _ _ _ E4). clear E4.
  (* the biases of all layers but the last *)
  destruct (for_invariant
              (fun k => stage s0 (fun _ => true) (fun j => bool_decide (j < k)))
              (range 0 (n_layers s0 - 1))
              (fun l => set_param l "b" (zeros [hidden_size s0])))
    with (s := s4) as (s5 & E5 & H5).
  { intros k i s [-> Hk]%range_lookup Hst.
    destruct (stage_zero_b s0 _ _ s k Hst ltac:(lia)) as (s' & E & Hst').
    { apply bool_decide_eq_false. lia. }
    unfold width_out in E. rewrite decide_False in E by lia.
    rewrite Z.add_0_l.
    exists s'. split; [exact E|].
    eapply stage_ext; [| |exact Hst']; [reflexivity|].
    intros j Hj. cbn. destruct (decide (j = k)) as [->|Hne].
    - symmetry. apply bool_decide_eq_true. lia.
    - apply bool_decide_ext. lia. }
  { eapply stage_ext; [| |exact H4].
    - intros j Hj. cbn. destruct (decide (j = N - 1)) as [->|Hne]; [reflexivity|].
      apply bool_decide_eq_true. lia.
    - intros j Hj. symmetry. apply bool_decide_eq_false. lia. }
  rewrite (bind_Val _ _ _ _ _ E5). clear E5.
  rewrite range_length in H5.
  (* the output layer's bias *)
  destruct (stage_zero_b s0 _ _ s5 (N - 1) H5 ltac:(lia)) as (s6 & E6 & H6).
  { apply bool_decide_eq_false. lia. }
  unfold width_out in E6. rewrite decide_True in E6 by reflexivity.
  replace (Z.of_nat (N - 1)) with (n_layers s0 - 1)%Z in E6 by lia.
  exists s6. split; [exact E6|].
  destruct H6 as (Hc & Hlen & Hl). split; [exact Hc|].
  destruct Hc as (Hin & Hout & Hhid & Hnl & _).
  unfold consistent_store. rewrite Hnl. subst N.
  split; [exact Hlen|]. split.
  - intros i d Hd.
    assert (Hi : i < Z.to_nat (n_layers s0))
      by (pose proof (lookup_lt_Some _ _ _ Hd); lia).
    specialize (Hl i d Hd). cbn in Hl.
    unfold width_in, width_out in *. rewrite Hin, Hout, Hhid.
    destruct (decide (i = Z.to_nat (n_layers s0) - 1)) as [->|Hne]; [exact Hl|].
    replace (bool_decide (i < Z.to_nat (n_layers s0 - 1 - 0))) with true in Hl;
      [exact Hl|].
    symmetry. apply bool_decide_eq_true. lia.
  - intros i Hi. unfold width_in, width_out.
    now rewrite !decide_False by lia.
Qed.
End initialize_parameters_spec.

(** ** The shapes of the analytic gradient *)

(** The shapes section 4.1 of the specification gives to the results of
    the [common] functions, on operands of matching shapes: a batch of [n]
    rows through a layer from width [i] to width [o]. *)
Class ShapeContract `{Common} : Prop := {
  forward_middle_shape Z W b act n i o :
    shape Z = [n; i] -> shape W = [i; o] -> shape b = [o] ->
    act = "relu" \/ act = "sigmoid" ->
    exists Z' A, forward_middle Z W b act = Val (Z', A)
                 /\ shape Z' = [n; o] /\ shape A = [n; o];
  forward_last_classification_shape Z W b n i o :
    shape Z = [n; i] -> shape W = [i; o] -> shape b = [o] ->
    exists Y, forward_last_classification Z W b = Val Y /\ shape Y = [n; o];
  softmax_loss_backward_shape Y T n o :
    shape Y = [n; o] -> shape T = [n; o] ->
    exists dA, softmax_loss_backward Y T = Val dA /\ shape dA = [n; o];
  affine_backward_bias_shape dA n o :
    shape dA = [n; o] ->
    exists db, affine_backward_bias dA = Val db /\ shape db = [o];
  affine_backward_weight_shape dA Z_prev n i o :
    shape dA = [n; o] -> shape Z_prev = [n; i] ->
    exists dW, affine_backward_weight dA Z_prev = Val dW /\ shape dW = [i; o];
  affine_backward_zprev_shape dA W n i o :
    shape dA = [n; o] -> shape W = [i; o] ->
    exists dZ, affine_backward_zprev dA W = Val dZ /\ shape dZ = [n; i];
  relu_backward_shape dZ A n o :
    shape dZ = [n; o] -> shape A = [n; o] ->
    exists dA, relu_backward dZ A = Val dA /\ shape dA = [n; o];
  sigmoid_backward_shape dZ Z n o :
    shape dZ = [n; o] -> shape Z = [n; o] ->
    exists dA, sigmoid_backward dZ Z = Val dA /\ shape dA = [n; o] }.

(** A loop that only reads, all of whose turns return, keeps an invariant
    of its local variables. *)
Lemma for_acc_invariant {S I A} (Inv : nat -> A -> Prop) (xs : list I)
    (body : I -> A -> M S A) (s : S) :
  (forall k i a, xs !! k = Some i -> Inv k a ->
     exists a', body i a s = (Val a', s) /\ Inv (Datatypes.S k) a') ->
  forall a, Inv 0 a ->
  exists a', for_acc xs a body s = (Val a', s) /\ Inv (length xs) a'.
Proof.
  revert Inv. induction xs as [|i xs IH]; intros Inv Hbody a H0.
  - exists a. auto.
  - destruct (Hbody 0 i a eq_refl H0) as (a1 & E1 & H1).
    destruct (IH (fun k => Inv (Datatypes.S k))) with (a := a1) as (a2 & E2 & H2).
    + intros k j a' Hj Hk. now apply (Hbody (Datatypes.S k) j a').
    + exact H1.
    + exists a2. cbn [for_acc length]. now rewrite (bind_Val _ _ _ _ _ E1).
Qed.

Lemma range_down_lookup a b k i :
  range_down a b !! k = Some i -> i = (a - Z.of_nat k)%Z /\ (Z.of_nat k < a - b)%Z.
Proof.
  unfold range_down. rewrite list_lookup_fmap.
  destruct (seq 0 (Z.to_nat (a - b)) !! k) as [j|] eqn:E; [|discriminate].
  apply lookup_seq in E as [-> Hlt]. cbn. intros [= <-]. split; [reflexivity|lia].
Qed.

Lemma range_down_length a b : length (range_down a b) = Z.to_nat (a - b).
Proof. unfold range_down. now rewrite length_map, length_seq. Qed.

Section consistent_store_facts.
Context {cat : Type}.
Implicit Types s : NeuralNet cat.

Lemma consistent_store_layer s (i : nat) :
  consistent_store s -> i < Z.to_nat (n_layers s) ->
  exists d W b,
    params s !! i = Some d /\ d !! "W" = Some W /\ d !! "b" = Some b
    /\ dom d = ({["W"; "b"]} : gset string)
    /\ shape W = [width_in s i; width_out s (Z.to_nat (n_layers s)) i]
    /\ shape b = [width_out s (Z.to_nat (n_layers s)) i].
Proof.
  intros (Hlen & Hl & _) Hi.
  destruct (lookup_lt_is_Some_2 (params s) i ltac:(lia)) as [d Hd].
  destruct (Hl i d Hd) as (Hdom & HW & Hb). cbn in Hdom.
  assert (HWin : "W" ∈ dom d) by (rewrite Hdom; set_solver).
  assert (Hbin : "b" ∈ dom d) by (rewrite Hdom; set_solver).
  apply elem_of_dom in HWin as [W EW]. apply elem_of_dom in Hbin as [b Eb].
  exists d, W, b. repeat split; auto.
  - apply (HW W EW).
  - apply (Hb b Eb).
Qed.

Lemma consistent_store_param s (i : nat) :
  consistent_store s -> i < Z.to_nat (n_layers s) ->
  exists W b,
    get_param (Z.of_nat i) "W" s = (Val W, s)
    /\ get_param (Z.of_nat i) "b" s = (Val b, s)
    /\ shape W = [width_in s i; width_out s (Z.to_nat (n_layers s)) i]
    /\ shape b = [width_out s (Z.to_nat (n_layers s)) i].
Proof.
  intros Hst Hi.
  destruct (consistent_store_layer s i Hst Hi) as (d & W & b & Hd & HW & Hb & _ & HsW & Hsb).
  assert (Hk : index_of (params s) (Z.of_nat i) = Some i).
  { apply index_of_nonneg. eapply lookup_lt_Some; eauto. }
  exists W, b. repeat split; auto; apply get_param_Val; red; eauto.
Qed.
End consistent_store_facts.

Section backprop_shapes.
Context {cat : Type} `{Category cat} `{ShapeContract}.
Variables (s : NeuralNet cat) (X T : ndarray) (m : nat).
Let N := Z.to_nat (n_layers s).
(** The cache of the forward pass: one output and one pre-activation per
    hidden layer, each of shape (batch, hidden). *)
Definition cache_shaped (k : nat) (l : list ndarray) : Prop :=
  length l = k /\ forall i Z, l !! i = Some Z -> shape Z = [m; hidden_size s].

Lemma cache_shaped_snoc k l Z :
  cache_shaped k l -> shape Z = [m; hidden_size s] -> cache_shaped (S k) (l ++ [Z]).
Proof using Type.
  intros [Hlen Hl] HZ. split; [rewrite length_app; cbn; lia|].
  intros i Z'. destruct (decide (i < length l)) as [Hi|Hi].
  - rewrite lookup_app_l by exact Hi. apply Hl.
  - rewrite lookup_app_r by lia. destruct (i - length l) as [|j]; cbn.
    + now intros [= <-].
    + discriminate.
Qed.

(** The gradient list while it is filled, from the output layer back:
    the entries from [lo] on hold the two gradients of their layer, with
    the shapes of its parameters; the entries below are still empty. *)
Definition grads_entry (i : nat) (gd : gmap string ndarray) : Prop :=
  exists dW db,
    gd = <["W" := dW]> (<["b" := db]> ∅)
    /\ shape dW = [width_in s i; width_out s N i]
    /\ shape db = [width_out s N i].

Definition grads_from (lo : nat) (grads : list (gmap string ndarray)) : Prop :=
  length grads = N
  /\ (forall i, lo <= i < N -> exists gd, grads !! i = Some gd /\ grads_entry i gd)
  /\ (forall i, i < lo -> grads !! i = Some ∅).

Lemma grads_store (j : nat) grads dW db :
  grads_from (S j) grads -> j < N ->
  shape dW = [width_in s j; width_out s N j] -> shape db = [width_out s N j] ->
  exists g1 g2,
    dicts_set grads (Z.of_nat j) "b" db = Val g1
    /\ dicts_set g1 (Z.of_nat j) "W" dW = Val g2
    /\ grads_from j g2.
Proof using Type.
  intros (Hlen & Hdone & Hrest) Hj HsW Hsb.
  exists (<[j := <["b" := db]> ∅]> grads),
         (<[j := <["W" := dW]> (<["b" := db]> ∅)]> grads).
  split; [|split].
  - apply dicts_set_Val; [apply index_of_nonneg; lia | apply Hrest; lia].
  - rewrite (dicts_set_Val _ _ _ _ j (<["b" := db]> ∅)).
    + now rewrite list_insert_insert_eq.
    + apply index_of_nonneg. rewrite length_insert. lia.
    + apply list_lookup_insert_eq. lia.
  - split; [now rewrite length_insert|]. split.
    + intros i Hi. destruct (decide (i = j)) as [->|Hne].
      * eexists. split; [apply list_lookup_insert_eq; lia|].
        exists dW, db. auto.
      * rewrite list_lookup_insert_ne by lia. apply Hdone. lia.
    + intros i Hi. rewrite list_lookup_insert_ne by lia. apply Hrest. lia.
Qed.

Lemma cache_getitem k (l : list ndarray) (i : nat) :
  cache_shaped k l -> i < k ->
  exists Z, getitem l (Z.of_nat i) = Val Z /\ shape Z = [m; hidden_size s].
Proof using Type.
  intros [Hlen Hl] Hi.
  destruct (lookup_lt_is_Some_2 l i ltac:(lia)) as [Z HZ].
  exists Z. split; [now apply getitem_nonneg | now apply (Hl i)].
Qed.

Hypothesis Hstore : consistent_store s.
Hypothesis Hlayers : (2 <= n_layers s)%Z.
Hypothesis HX : shape X = [m; input_size s].
Hypothesis HT : shape T = [m; output_size s].
Hypothesis Hact :
  activation_function s = "relu" \/ activation_function s = "sigmoid".

Lemma forward_train_shapes :
  exists Y Zs As,
    BackpropNeuralNet._predict_onehot_train X s = (Val (Y, Zs, As), s)
    /\ shape Y = [m; output_size s]
    /\ cache_shaped (N - 1) Zs /\ cache_shaped (N - 1) As.
Proof using All.
  unfold BackpropNeuralNet._predict_onehot_train.
  unfold bind at 1, gets. unfold bind at 1.
  match goal with
  | |- context [for_acc ?xs ?acc0 ?body] =>
      destruct (for_acc_invariant
                  (fun k '(Zc, Zs, As) =>
                     shape Zc = [m; width_in s k]
                     /\ cache_shaped k Zs /\ cache_shaped k As)
                  xs body s) with (a := acc0) as ([[Zc Zs] As] & E & HI)
  end.
  { intros k i [[Zc Zs] As] [-> Hk]%range_lookup (HZc & HZs & HAs).
    rewrite Z.add_0_l.
    destruct (consistent_store_param s k Hstore ltac:(lia))
      as (W & b & EW & Eb & HsW & Hsb).
    rewrite (bind_Val _ _ _ _ _ EW), (bind_Val _ _ _ _ _ Eb).
    unfold width_out in HsW, Hsb. rewrite decide_False in HsW, Hsb by lia.
    destruct (forward_middle_shape Zc W b (activation_function s) m _ _
                HZc HsW Hsb Hact) as (Z' & A & Efm & HZ' & HA).
    unfold bind, lift, ret. rewrite Efm.
    eexists (_, _, _). split; [reflexivity|].
    split; [|split; now apply cache_shaped_snoc].
    unfold width_in. now rewrite decide_False by lia. }
  { split; [|split]; [|split; [reflexivity|intros i Z; now rewrite lookup_nil]..].
    unfold width_in. now rewrite decide_True. }
  rewrite (bind_Val _ _ _ _ _ E). rewrite range_length in HI.
  destruct HI as (HZc & HZs & HAs).
  replace (Z.to_nat (n_layers s - 1 - 0)) with (N - 1) in * by lia.
  destruct (consistent_store_param s (N - 1) Hstore ltac:(lia))
    as (W & b & EW & Eb & HsW & Hsb).
  replace (Z.of_nat (N - 1)) with (n_layers s - 1)%Z in EW, Eb by lia.
  rewrite (bind_Val _ _ _ _ _ EW), (bind_Val _ _ _ _ _ Eb).
  unfold width_in in HZc, HsW. rewrite decide_False in HZc, HsW by lia.
  unfold width_out in HsW, Hsb. fold N in HsW, Hsb.
  rewrite decide_True in HsW, Hsb by reflexivity.
  destruct (forward_last_classification_shape Zc W b m _ _ HZc HsW Hsb)
    as (Y & EY & HY).
  unfold bind, lift, ret. rewrite EY. eauto 10.
Qed.

Lemma lift_Val {S A} (r : py A) (a : A) (s0 : S) : r = Val a -> lift r s0 = (Val a, s0).
Proof using Type. now intros ->. Qed.

(** One turn of the backward loop, at a hidden layer [j]. *)
Lemma backward_step_shapes Zs As (j : nat) dA dZ_prev grads :
  cache_shaped (N - 1) Zs -> cache_shaped (N - 1) As -> j < N - 1 ->
  shape dZ_prev = [m; hidden_size s] -> grads_from (S j) grads ->
  exists dA' dZ_prev' grads',
    BackpropNeuralNet.backward_step X Zs As (Z.of_nat j) (dA, dZ_prev, grads) s
    = (Val (dA', dZ_prev', grads'), s)
    /\ shape dZ_prev' = [m; hidden_size s] /\ grads_from j grads'.
Proof using All.
  intros HZs HAs Hj HdZ Hgrads.
  unfold BackpropNeuralNet.backward_step. unfold bind at 1, gets.
  (* the activation layer *)
  assert (Hd : exists dA1,
             shape dA1 = [m; hidden_size s]
             /\ forall B (k : ndarray -> M (NeuralNet cat) B),
                  bind (if decide (activation_function s = "relu")
                        then let* A := lift (getitem As (Z.of_nat j)) in
                             lift (relu_backward dZ_prev A)
                        else ret dA)
                    (fun dA0 =>
                       bind (if decide (activation_function s = "sigmoid")
                             then let* Zl := lift (getitem Zs (Z.of_nat j)) in
                                  lift (sigmoid_backward dZ_prev Zl)
                             else ret dA0) k) s
                  = k dA1 s).
  { destruct Hact as [Ea|Ea]; rewrite Ea.
    - destruct (cache_getitem _ As j HAs Hj) as (A & EA & HA).
      destruct (relu_backward_shape dZ_prev A m _ HdZ HA) as (dA1 & E1 & H1').
      exists dA1. split; [exact H1'|]. intros B k.
      destruct (decide ("relu" = "relu")) as [_|Hne]; [|done].
      destruct (decide ("relu" = "sigmoid")) as [Heq|_]; [discriminate|].
      unfold bind, lift, ret. now rewrite EA, E1.
    - destruct (cache_getitem _ Zs j HZs Hj) as (Zl & EZ & HZ).
      destruct (sigmoid_backward_shape dZ_prev Zl m _ HdZ HZ) as (dA1 & E1 & H1').
      exists dA1. split; [exact H1'|]. intros B k.
      destruct (decide ("sigmoid" = "relu")) as [Heq|_]; [discriminate|].
      destruct (decide ("sigmoid" = "sigmoid")) as [_|Hne]; [|done].
      unfold bind, lift, ret. now rewrite EZ, E1. }
  destruct Hd as (dA1 & HdA1 & Hrun). rewrite Hrun. clear Hrun.
  (* the affine layer *)
  destruct (affine_backward_bias_shape dA1 m _ HdA1) as (db & Edb & Hdb).
  rewrite (bind_Val _ _ _ _ _ (lift_Val _ _ s Edb)).
  destruct (consistent_store_param s j Hstore ltac:(lia))
    as (W & b & EW & _ & HsW & _).
  assert (Hout : width_out s N j = hidden_size s).
  { unfold width_out. now rewrite decide_False by lia. }
  fold N in HsW. rewrite Hout in HsW.
  destruct (decide (0 < Z.of_nat j)%Z) as [Hpos|Hzero].
  - destruct (cache_getitem _ Zs (j - 1) HZs ltac:(lia)) as (Zp & EZp & HZp).
    replace (Z.of_nat (j - 1)) with (Z.of_nat j - 1)%Z in EZp by lia.
    destruct (affine_backward_weight_shape dA1 Zp m _ _ HdA1 HZp) as (dW & EdW & HdW).
    destruct (affine_backward_zprev_shape dA1 W m _ _ HdA1 HsW) as (dZ' & EdZ & HdZ').
    assert (Hin : width_in s j = hidden_size s).
    { unfold width_in. now rewrite decide_False by lia. }
    rewrite Hin in HdZ'.
    destruct (grads_store j grads dW db Hgrads ltac:(lia)) as (g1 & g2 & E1 & E2 & Hg2).
    { now rewrite Hin, Hout. }
    { now rewrite Hout. }
    exists dA1, dZ', g2. split; [|auto].
    rewrite (bind_Val _ _ s (dW, dZ') s).
    + rewrite (bind_Val _ _ _ _ _ (lift_Val _ _ s E1)).
      now rewrite (bind_Val _ _ _ _ _ (lift_Val _ _ s E2)).
    + rewrite (bind_Val _ _ _ _ _ (lift_Val _ _ s EZp)).
      rewrite (bind_Val _ _ _ _ _ (lift_Val _ _ s EdW)).
      rewrite (bind_Val _ _ _ _ _ EW).
      now rewrite (bind_Val _ _ _ _ _ (lift_Val _ _ s EdZ)).
  - assert (j = 0) as -> by lia.
    destruct (affine_backward_weight_shape dA1 X m _ _ HdA1 HX) as (dW & EdW & HdW).
    destruct (grads_store 0 grads dW db Hgrads ltac:(lia)) as (g1 & g2 & E1 & E2 & Hg2).
    { unfold width_in. rewrite decide_True by reflexivity. now rewrite Hout. }
    { now rewrite Hout. }
    exists dA1, dZ_prev, g2. split; [|auto].
    rewrite (bind_Val _ _ s (dW, dZ_prev) s).
    + rewrite (bind_Val _ _ _ _ _ (lift_Val _ _ s E1)).
      now rewrite (bind_Val _ _ _ _ _ (lift_Val _ _ s E2)).
    + now rewrite (bind_Val _ _ _ _ _ (lift_Val _ _ s EdW)).
Qed.

Lemma grads_from_aligned grads :
  grads_from 0 grads -> aligned (params s) grads.
Proof using All.
  intros (Hlen & Hdone & _). destruct Hstore as (Hplen & _).
  split; [fold N in Hplen; lia|].
  intros i d Hd.
  assert (Hi : i < N) by (apply lookup_lt_Some in Hd; fold N in Hplen; lia).
  destruct (Hdone i ltac:(lia)) as (gd & Hgd & dW & db & -> & HsW & Hsb).
  destruct (consistent_store_layer s i Hstore Hi)
    as (d' & W & b & Hd' & HW & Hb & _ & HWs & Hbs).
  assert (d' = d) as -> by congruence. fold N in HWs, Hbs.
  exists (<["W" := dW]> (<["b" := db]> ∅)), dW, db, W, b.
  split; [exact Hgd|].
  split; [rewrite !dom_insert_L, dom_empty_L; set_solver|].
  split; [apply lookup_insert_eq|].
  split; [now rewrite lookup_insert_ne, lookup_insert_eq|].
  split; [exact HW|]. split; [exact Hb|]. split; congruence.
Qed.

(** On a consistent store of two layers or more, with a batch and a
    target of the network's widths, the analytic engine returns a gradient
    set aligned with the parameters, and leaves the object as it was. *)
Lemma gradient_backpropagation_aligned :
  exists grads,
    BackpropNeuralNet.gradient_backpropagation X T s = (Val grads, s)
    /\ aligned (params s) grads.
Proof using All.
  destruct forward_train_shapes as (Y & Zs & As & Efwd & HY & HZs & HAs).
  unfold BackpropNeuralNet.gradient_backpropagation.
  rewrite (bind_Val _ _ _ _ _ Efwd). unfold bind at 1, gets.
  destruct (softmax_loss_backward_shape Y T m _ HY HT) as (dA & EdA & HdA).
  rewrite (bind_Val _ _ _ _ _ (lift_Val _ _ s EdA)).
  destruct (affine_backward_bias_shape dA m _ HdA) as (db & Edb & Hdb).
  rewrite (bind_Val _ _ _ _ _ (lift_Val _ _ s Edb)).
  destruct (cache_getitem _ Zs (N - 2) HZs ltac:(lia)) as (Zp & EZp & HZp).
  replace (Z.of_nat (N - 2)) with (n_layers s - 2)%Z in EZp by lia.
  rewrite (bind_Val _ _ _ _ _ (lift_Val _ _ s EZp)).
  destruct (affine_backward_weight_shape dA Zp m _ _ HdA HZp) as (dW & EdW & HdW).
  rewrite (bind_Val _ _ _ _ _ (lift_Val _ _ s EdW)).
  destruct (consistent_store_param s (N - 1) Hstore ltac:(lia))
    as (W & b & EW & _ & HsW & _).
  replace (Z.of_nat (N - 1)) with (n_layers s - 1)%Z in EW by lia.
  rewrite (bind_Val _ _ _ _ _ EW).
  assert (Hin : width_in s (N - 1) = hidden_size s).
  { unfold width_in. now rewrite decide_False by lia. }
  assert (Hout : width_out s N (N - 1) = output_size s).
  { unfold width_out. now rewrite decide_True by reflexivity. }
  fold N in HsW. rewrite Hin, Hout in HsW.
  destruct (affine_backward_zprev_shape dA W m _ _ HdA HsW) as (dZ & EdZ & HdZ).
  rewrite (bind_Val _ _ _ _ _ (lift_Val _ _ s EdZ)).
  destruct (grads_store (N - 1) (replicate N ∅) dW db) as (g1 & g2 & E1 & E2 & Hg2).
  { split; [apply length_replicate|]. split; [intros i; lia|].
    intros i Hi. apply lookup_replicate_2. lia. }
  { lia. }
  { now rewrite Hin, Hout. }
  { now rewrite Hout. }
  replace (Z.of_nat (N - 1)) with (n_layers s - 1)%Z in E1, E2 by lia.
  rewrite (bind_Val _ _ _ _ _ (lift_Val _ _ s E1)).
  rewrite (bind_Val _ _ _ _ _ (lift_Val _ _ s E2)).
  match goal with
  | |- context [for_acc ?xs ?acc0 ?body] =>
      destruct (for_acc_invariant
                  (fun k '(_, dZ_prev, grads) =>
                     shape dZ_prev = [m; hidden_size s]
                     /\ grads_from (N - 1 - k) grads)
                  xs body s) with (a := acc0) as ([[dA' dZ'] grads] & E & HI)
  end.
  { intros k i [[dA0 dZ0] g0] [-> Hk]%range_down_lookup (HdZ0 & Hg0).
    replace (n_layers s - 2 - Z.of_nat k)%Z with (Z.of_nat (N - 2 - k)) by lia.
    destruct (backward_step_shapes Zs As (N - 2 - k) dA0 dZ0 g0 HZs HAs)
      as (dA1 & dZ1 & g1' & Estep & HdZ1 & Hg1); [lia | exact HdZ0 | |].
    - now replace (S (N - 2 - k)) with (N - 1 - k) by lia.
    - eexists (_, _, _). split; [exact Estep|]. split; [exact HdZ1|].
      now replace (N - 1 - S k) with (N - 2 - k) by lia. }
  { split; [exact HdZ|]. now rewrite Nat.sub_0_r. }
  rewrite (bind_Val _ _ _ _ _ E). unfold ret.
  exists grads. split; [reflexivity|].
  rewrite range_down_length in HI. destruct HI as [_ HI].
  apply grads_from_aligned.
  now replace (N - 1 - Z.to_nat (n_layers s - 2 - -1)) with 0 in HI by lia.
Qed.
End backprop_shapes.

(** ** The reference implementation keeps the shape contract *)

Lemma reference_dot_shape A B n k m :
  shape A = [n; k] -> shape B = [k; m] ->
  exists C, Reference.dot A B = Val C /\ shape C = [n; m].
Proof.
  intros HA HB. unfold Reference.dot. rewrite HA, HB.
  rewrite decide_True by reflexivity. eexists. split; reflexivity.
Qed.

Lemma reference_transpose_shape A n m :
  shape A = [n; m] ->
  exists C, Reference.transpose A = Val C /\ shape C = [m; n].
Proof.
  intros HA. unfold Reference.transpose. rewrite HA.
  eexists. split; reflexivity.
Qed.

Lemma reference_affine_shape Z W b n i o :
  shape Z = [n; i] -> shape W = [i; o] -> shape b = [o] ->
  exists A, Reference.affine Z W b = Val A /\ shape A = [n; o].
Proof.
  intros HZ HW Hb. unfold Reference.affine.
  destruct (reference_dot_shape Z W n i o HZ HW) as (ZW & -> & HZW).
  cbn [py_bind]. rewrite HZW, Hb. rewrite decide_True by reflexivity.
  eexists. split; reflexivity.
Qed.

Lemma reference_same_shape2 Y T n o f :
  shape Y = [n; o] -> shape T = [n; o] -> Reference.same_shape2 Y T f = f n o.
Proof.
  intros HY HT. unfold Reference.same_shape2. rewrite HY.
  now rewrite decide_True by exact HT.
Qed.

Lemma reference_shape_contract : @ShapeContract Reference.common.
Proof.
  split; cbn [forward_middle forward_last_classification softmax_loss_backward
              affine_backward_bias affine_backward_weight affine_backward_zprev
              relu_backward sigmoid_backward Reference.common].
  - intros Z W b act n i o HZ HW Hb Hact. unfold Reference.forward_middle.
    destruct (reference_affine_shape Z W b n i o HZ HW Hb) as (A & -> & HA).
    cbn [py_bind]. destruct Hact as [-> | ->].
    + rewrite decide_True by reflexivity. eexists _, A. auto.
    + rewrite decide_False by discriminate. rewrite decide_True by reflexivity.
      eexists _, A. auto.
  - intros Z W b n i o HZ HW Hb. unfold Reference.forward_last_classification.
    destruct (reference_affine_shape Z W b n i o HZ HW Hb) as (A & -> & HA).
    cbn [py_bind]. rewrite HA. eexists. split; reflexivity.
  - intros Y T n o HY HT. unfold Reference.softmax_loss_backward.
    rewrite (reference_same_shape2 Y T n o _ HY HT). eexists. split; reflexivity.
  - intros dA n o HdA. unfold Reference.affine_backward_bias. rewrite HdA.
    eexists. split; reflexivity.
  - intros dA Zp n i o HdA HZp. unfold Reference.affine_backward_weight.
    destruct (reference_transpose_shape Zp n i HZp) as (Zt & -> & HZt).
    cbn [py_bind]. now apply (reference_dot_shape Zt dA i n o).
  - intros dA W n i o HdA HW. unfold Reference.affine_backward_zprev.
    destruct (reference_transpose_shape W i o HW) as (Wt & -> & HWt).
    cbn [py_bind]. now apply (reference_dot_shape dA Wt n o i).
  - intros dZ A n o HdZ HA. unfold Reference.relu_backward.
    rewrite (reference_same_shape2 dZ A n o _ HdZ HA). eexists. split; reflexivity.
  - intros dZ Z n o HdZ HZ. unfold Reference.sigmoid_backward.
    rewrite (reference_same_shape2 dZ Z n o _ HdZ HZ). eexists. split; reflexivity.
Qed.

(** ** Initialization of [ConvolutionNet] *)

Lemma length_enumerate {A} (l : list A) : length (enumerate l) = length l.
Proof.
  unfold enumerate. rewrite length_zip_with, length_map, length_seq. lia.
Qed.

Lemma enumerate_lookup {A} (l : list A) (k : nat) (i : Z) (x : A) :
  enumerate l !! k = Some (i, x) -> i = Z.of_nat k /\ l !! k = Some x.
Proof.
  unfold enumerate. intros (j & y & [= -> ->] & Hj & Hy)%lookup_zip_with_Some.
  rewrite list_lookup_fmap in Hj.
  destruct (seq 0 (length l) !! k) as [k'|] eqn:Hk; [|discriminate].
  apply lookup_seq in Hk as [-> _]. cbn in Hj. injection Hj as <-. auto.
Qed.

Section conv_initialize.
Context {cat : Type} {layer : Type} `{Layer layer}.
Context {optimizer : Type} `{Optimizers optimizer}.
Local Abbreviation cnet := (ConvolutionNet.t cat layer optimizer).

(** The store of layer objects as the loop of [_initialize_parameters]
    leaves it.  The object at the first position is initialized with its
    own [input_shape], the object at every other position with the
    [output_shape] of the object at the position before, as that object
    stands at that moment; an object that stands at several positions is
    initialized once for each. *)
Fixpoint init_layers (prev : option ref) (ls : list ref) (h : ref -> layer)
    (g : generator) : (ref -> layer) * generator :=
  match ls with
  | [] => (h, g)
  | r :: rest =>
      let shp := match prev with
                 | None => input_shape (h r)
                 | Some p => output_shape (h p)
                 end in
      let '(_, (ly', g')) := initialize_parameters shp (h r, g) in
      init_layers (Some r) rest (<[r := ly']> h) g'
  end.

(** The methods of the layers and of the optimizers that the set-up calls
    always return. *)
Definition layers_initialize : Prop :=
  forall shp st, exists st', initialize_parameters (layer := layer) shp st = (Val tt, st').

Definition optimizers_initialize : Prop :=
  forall ps o, exists o',
    initialize_opt_params (optimizer := optimizer) ps o = (Val tt, o').

Definition known_solver (sv : string) : Prop :=
  sv = "sgd" \/ sv = "momentum" \/ sv = "adagrad" \/ sv = "rmsprop" \/ sv = "adam".

Lemma conv_set_objects_np_random (s : cnet) :
  s = ConvolutionNet.set_np_random (ConvolutionNet.np_random s)
        (ConvolutionNet.set_objects (ConvolutionNet.objects s) s).
Proof. now destruct s. Qed.

Lemma conv_layers_loop_from (ls0 rest : list ref) :
  layers_initialize ->
  forall (k : nat) (s : cnet),
  ConvolutionNet.layers s = ls0 -> drop k ls0 = rest ->
  exists s1,
    for_ (zip (map Z.of_nat (seq k (length rest))) rest)
      (fun '(l, ly) =>
         if decide (l = 0%Z)
         then let* shape := ConvolutionNet.object_attr ly input_shape in
              ConvolutionNet.call_object_init ly shape
         else let* ls := gets ConvolutionNet.layers in
              let* prev := lift (getitem ls (l - 1)) in
              let* shape := ConvolutionNet.object_attr prev output_shape in
              ConvolutionNet.call_object_init ly shape) s
    = (Val tt, s1)
    /\ (ConvolutionNet.objects s1, ConvolutionNet.np_random s1)
       = init_layers (last (take k ls0)) rest
           (ConvolutionNet.objects s) (ConvolutionNet.np_random s)
    /\ s1 = ConvolutionNet.set_np_random (ConvolutionNet.np_random s1)
              (ConvolutionNet.set_objects (ConvolutionNet.objects s1) s).
Proof.
  intros Htotal. induction rest as [|r rest IH]; intros k s Hls Hdrop.
  - exists s. cbn. split; [reflexivity|]. split; [reflexivity|].
    apply conv_set_objects_np_random.
  - assert (Hr : ls0 !! k = Some r).
    { rewrite <- (Nat.add_0_r k), <- lookup_drop, Hdrop. reflexivity. }
    assert (Hk : k < length ls0) by (eapply lookup_lt_Some; eauto).
    set (shp := match last (take k ls0) with
                | None => input_shape (ConvolutionNet.objects s r)
                | Some p => output_shape (ConvolutionNet.objects s p)
                end).
    destruct (Htotal shp (ConvolutionNet.objects s r, ConvolutionNet.np_random s))
      as ([ly' g'] & Einit).
    set (s' := ConvolutionNet.set_np_random g'
                 (ConvolutionNet.set_objects
                    (<[r := ly']> (ConvolutionNet.objects s)) s)).
    assert (Ecall : ConvolutionNet.call_object_init r shp s = (Val tt, s')).
    { unfold ConvolutionNet.call_object_init. now rewrite Einit. }
    destruct (IH (S k) s') as (s1 & E & Hspec & Hrest).
    { exact Hls. }
    { rewrite (drop_S _ _ _ Hr) in Hdrop. now injection Hdrop. }
    exists s1. cbn [length seq map zip zip_with for_].
    split.
    + assert (Ebody : (if decide (Z.of_nat k = 0%Z)
                       then let* shape := ConvolutionNet.object_attr r input_shape in
                            ConvolutionNet.call_object_init r shape
                       else let* ls := gets ConvolutionNet.layers in
                            let* prev := lift (getitem ls (Z.of_nat k - 1)) in
                            let* shape :=
                              ConvolutionNet.object_attr prev output_shape in
                            ConvolutionNet.call_object_init r shape) s
                      = (Val tt, s')).
      { destruct (decide (Z.of_nat k = 0%Z)) as [Hz|Hnz].
        - assert (k = 0) as -> by lia.
          unfold bind at 1, ConvolutionNet.object_attr, gets. exact Ecall.
        - destruct k as [|k']; [lia|].
          assert (Hlast : last (take (S k') ls0) = ls0 !! k').
          { rewrite last_lookup, length_take, lookup_take_lt by lia.
            f_equal. lia. }
          destruct (ls0 !! k') as [p|] eqn:Hp.
          2:{ apply lookup_ge_None in Hp. lia. }
          unfold bind at 1, gets. rewrite Hls.
          unfold bind at 1, lift.
          replace (Z.of_nat (S k') - 1)%Z with (Z.of_nat k') by lia.
          rewrite (getitem_nonneg _ k' p Hp).
          unfold bind at 1, ConvolutionNet.object_attr, gets.
          subst shp. rewrite Hlast in Ecall. exact Ecall. }
      now rewrite (bind_Val _ _ _ _ _ Ebody).
    + split.
      * rewrite Hspec. cbn [init_layers]. fold shp. rewrite Einit.
        rewrite (take_S_r _ _ _ Hr), last_snoc. reflexivity.
      * rewrite Hrest. reflexivity.
Qed.

Lemma conv_layers_loop (s0 : cnet) :
  layers_initialize ->
  exists s1,
    for_ (enumerate (ConvolutionNet.layers s0))
      (fun '(l, ly) =>
         if decide (l = 0%Z)
         then let* shape := ConvolutionNet.object_attr ly input_shape in
              ConvolutionNet.call_object_init ly shape
         else let* ls := gets ConvolutionNet.layers in
              let* prev := lift (getitem ls (l - 1)) in
              let* shape := ConvolutionNet.object_attr prev output_shape in
              ConvolutionNet.call_object_init ly shape) s0
    = (Val tt, s1)
    /\ (ConvolutionNet.objects s1, ConvolutionNet.np_random s1)
       = init_layers None (ConvolutionNet.layers s0)
           (ConvolutionNet.objects s0) (ConvolutionNet.np_random s0)
    /\ s1 = ConvolutionNet.set_np_random (ConvolutionNet.np_random s1)
              (ConvolutionNet.set_objects (ConvolutionNet.objects s1) s0).
Proof.
  intros Htotal.
  exact (conv_layers_loop_from (ConvolutionNet.layers s0)
           (ConvolutionNet.layers s0) Htotal 0 s0 eq_refl eq_refl).
Qed.

Lemma conv_optimizers_loop (s0 : cnet) :
  optimizers_initialize -> known_solver (ConvolutionNet.solver s0) ->
  exists os,
    ConvolutionNet._initialize_optimizers s0
    = (Val tt, ConvolutionNet.set_optimizers os s0)
    /\ length os = length (ConvolutionNet.layers s0).
Proof.
  intros Htotal Hsolver. unfold ConvolutionNet._initialize_optimizers.
  unfold bind at 1. unfold modify at 1. unfold bind at 1. unfold gets at 1.
  cbn [ConvolutionNet.layers ConvolutionNet.set_optimizers].
  set (ls := ConvolutionNet.layers s0).
  match goal with
  | |- context [for_ ?xs ?body] =>
      destruct (for_invariant
                  (fun k (s1 : cnet) =>
                     exists os, length os = k
                                /\ s1 = ConvolutionNet.set_optimizers os s0)
                  xs body) with (s := ConvolutionNet.set_optimizers [] s0)
        as (s1 & E & os & Hlen & ->)
  end.
  - intros k [i r] s [-> Hr]%enumerate_lookup (os & Hlen & ->).
    cbv beta iota.
    do 7 (unfold bind at 1, gets).
    cbn [ConvolutionNet.solver ConvolutionNet.learning_rate ConvolutionNet.momentum
         ConvolutionNet.beta_1 ConvolutionNet.beta_2 ConvolutionNet.epsilon
         ConvolutionNet.optimizers ConvolutionNet.set_optimizers].
    assert (Happend : exists o,
               forall B (k' : unit -> M cnet B),
                 bind
                   (if decide (ConvolutionNet.solver s0 = "sgd")
                    then modify (ConvolutionNet.set_optimizers
                                   (os ++ [SGD (ConvolutionNet.learning_rate s0)]))
                    else if decide (ConvolutionNet.solver s0 = "momentum")
                    then modify (ConvolutionNet.set_optimizers
                                   (os ++ [Momentum (ConvolutionNet.learning_rate s0)
                                             (ConvolutionNet.momentum s0)]))
                    else if decide (ConvolutionNet.solver s0 = "adagrad")
                    then modify (ConvolutionNet.set_optimizers
                                   (os ++ [AdaGrad (ConvolutionNet.learning_rate s0)
                                             (ConvolutionNet.epsilon s0)]))
                    else if decide (ConvolutionNet.solver s0 = "rmsprop")
                    then modify (ConvolutionNet.set_optimizers
                                   (os ++ [RMSprop (ConvolutionNet.learning_rate s0)
                                             (ConvolutionNet.beta_2 s0)
                                             (ConvolutionNet.epsilon s0)]))
                    else if decide (ConvolutionNet.solver s0 = "adam")
                    then modify (ConvolutionNet.set_optimizers
                                   (os ++ [Adam (ConvolutionNet.learning_rate s0)
                                             (ConvolutionNet.beta_1 s0)
                                             (ConvolutionNet.beta_2 s0)
                                             (ConvolutionNet.epsilon s0)]))
                    else ret tt) k' (ConvolutionNet.set_optimizers os s0)
                 = k' tt (ConvolutionNet.set_optimizers (os ++ [o]) s0)).
    { destruct Hsolver as [E|[E|[E|[E|E]]]]; rewrite E; eexists; intros B k';
        repeat (destruct (decide _) as [Heq|Hne];
                [try discriminate Heq | try (now destruct Hne)]);
        reflexivity. }
    destruct Happend as (o & Happend). rewrite Happend. clear Happend.
    unfold bind at 1, gets. cbn [ConvolutionNet.optimizers ConvolutionNet.set_optimizers].
    assert (Ho : (os ++ [o]) !! k = Some o).
    { rewrite lookup_app_r by lia. now replace (k - length os) with 0 by lia. }
    rewrite (bind_Val _ _ _ _ _ (lift_Val _ _ _ (getitem_nonneg _ _ _ Ho))).
    unfold bind at 1, ConvolutionNet.object_attr, gets.
    cbn [ConvolutionNet.objects ConvolutionNet.set_optimizers].
    destruct (Htotal (layer_params (ConvolutionNet.objects s0 r)) o) as (o' & ->).
    unfold setitem.
    rewrite index_of_nonneg by (rewrite length_app; cbn; lia).
    unfold bind, lift, modify. cbn [ConvolutionNet.set_optimizers].
    eexists. split; [reflexivity|].
    exists (<[k := o']> (os ++ [o])). split; [|reflexivity].
    rewrite length_insert, length_app. cbn. lia.
  - exists []. auto.
  - exists os. split; [exact E|].
    now rewrite length_enumerate in Hlen.
Qed.

(** When the layers and the optimizers can be set up and the solver is
    one of the five, so can the network: [_initialize_parameters] returns,
    with every layer object initialized from the shape that comes before
    it and with one optimizer per position.  No width is compared with
    another, and no error is the network's own. *)
Lemma conv_initialize_parameters_returns (s0 : cnet) :
  layers_initialize -> optimizers_initialize ->
  known_solver (ConvolutionNet.solver s0) ->
  exists s1,
    ConvolutionNet._initialize_parameters s0 = (Val tt, s1)
    /\ (ConvolutionNet.objects s1, ConvolutionNet.np_random s1)
       = init_layers None (ConvolutionNet.layers s0)
           (ConvolutionNet.objects s0) (ConvolutionNet.np_random s0)
    /\ ConvolutionNet.layers s1 = ConvolutionNet.layers s0
    /\ length (ConvolutionNet.optimizers s1) = length (ConvolutionNet.layers s0).
Proof.
  intros Hl Ho Hs. unfold ConvolutionNet._initialize_parameters.
  unfold bind at 1, gets.
  destruct (conv_layers_loop s0 Hl) as (s1 & E1 & Hspec & Hrest).
  rewrite (bind_Val _ _ _ _ _ E1).
  assert (Hs1 : known_solver (ConvolutionNet.solver s1)) by now rewrite Hrest.
  assert (Hls : ConvolutionNet.layers s1 = ConvolutionNet.layers s0)
    by now rewrite Hrest.
  destruct (conv_optimizers_loop s1 Ho Hs1) as (os & E2 & Hlen).
  exists (ConvolutionNet.set_optimizers os s1). split; [exact E2|].
  cbn [ConvolutionNet.optimizers ConvolutionNet.set_optimizers
       ConvolutionNet.objects ConvolutionNet.np_random ConvolutionNet.layers].
  split; [exact Hspec|]. split; [exact Hls|]. now rewrite Hlen, Hls.
Qed.
End conv_initialize.

(** ** What the passes of [ConvolutionNet] change *)

Section conv_frame.
Context {cat : Type} {layer : Type} `{Layer layer} {optimizer : Type}.
Local Abbreviation cnet := (ConvolutionNet.t cat layer optimizer).

(** A method that changes nothing of the network but its layer objects:
    the list [layers], [n_layers], the optimizers, the encoder and the
    generator are as they were, whether the method returns or raises. *)
Definition only_objects {A} (c : M cnet A) : Prop :=
  forall s, exists h, (c s).2 = ConvolutionNet.set_objects h s.

Lemma only_objects_same {A} (c : M cnet A) :
  (forall s, (c s).2 = s) -> only_objects c.
Proof.
  intros Hc s. exists (ConvolutionNet.objects s). rewrite Hc. now destruct s.
Qed.

Lemma only_objects_bind {A B} (c : M cnet A) (k : A -> M cnet B) :
  only_objects c -> (forall a, only_objects (k a)) -> only_objects (bind c k).
Proof.
  intros Hc Hk s. unfold bind. destruct (Hc s) as (h & E).
  destruct (c s) as [[a|e] s1]; cbn [snd] in E; subst s1.
  - destruct (Hk a (ConvolutionNet.set_objects h s)) as (h' & E').
    exists h'. rewrite E'. reflexivity.
  - exists h. reflexivity.
Qed.

Lemma only_objects_for_acc {I A} (xs : list I) (body : I -> A -> M cnet A) a :
  (forall i a, only_objects (body i a)) -> only_objects (for_acc xs a body).
Proof.
  intros Hbody. revert a. induction xs as [|i xs IH]; intros a; cbn [for_acc].
  - now apply only_objects_same.
  - apply only_objects_bind; [apply Hbody | intros a'; apply IH].
Qed.

Lemma only_objects_call_object {A} (ly : ref) (method : M layer A) :
  only_objects (ConvolutionNet.call_object ly method).
Proof.
  intros s. unfold ConvolutionNet.call_object.
  destruct (method (ConvolutionNet.objects s ly)) as [r ly'].
  eexists. reflexivity.
Qed.

Lemma only_objects_call_layer {A} (l : Z) (method : M layer A) :
  only_objects (ConvolutionNet.call_layer l method).
Proof.
  unfold ConvolutionNet.call_layer.
  apply only_objects_bind; [now apply only_objects_same|]. intros ls.
  apply only_objects_bind; [now apply only_objects_same|]. intros ly.
  apply only_objects_call_object.
Qed.

Lemma only_objects_predict_onehot (X : ndarray) :
  only_objects (ConvolutionNet._predict_onehot (cat := cat) (optimizer := optimizer) X).
Proof.
  unfold ConvolutionNet._predict_onehot.
  apply only_objects_bind; [now apply only_objects_same|]. intros ls.
  apply only_objects_for_acc. intros [l ly] Z.
  apply only_objects_call_object.
Qed.

Lemma only_objects_gradient_backpropagation (X T : ndarray) :
  only_objects
    (ConvolutionNet.gradient_backpropagation (cat := cat) (optimizer := optimizer) X T).
Proof.
  unfold ConvolutionNet.gradient_backpropagation.
  apply only_objects_bind; [apply only_objects_predict_onehot|]. intros Y.
  apply only_objects_bind; [now apply only_objects_same|]. intros n.
  apply only_objects_bind; [apply only_objects_call_layer|]. intros dZ.
  apply only_objects_bind; [|intros _; now apply only_objects_same].
  apply only_objects_for_acc. intros l dZ'. apply only_objects_call_layer.
Qed.
End conv_frame.

(** ** What the gradient engines return *)

Section gradient_sets.
Context {cat : Type} `{Category cat} `{ShapeContract}.
Context {layer : Type} `{Layer layer} {optimizer : Type} `{Optimizers optimizer}.

(** C4.  A gradient set that [SGDNeuralNet.numerical_gradient_all]
    returns, on an object whose store has [n_layers] entries, is aligned
    with the parameter store: one dictionary per layer in the order of the
    layers, each with exactly the keys ["W"] and ["b"] and arrays of the
    shapes of the layer's weight matrix and bias vector.
    [BackpropNeuralNet.gradient_backpropagation] returns such a set, and
    leaves the object as it was, for a network of two layers or more whose
    store is consistent, with the activation ["relu"] or ["sigmoid"], on a
    batch whose widths are the network's, when the helper functions give
    arrays of the shapes their operands call for.
    [ConvolutionNet.gradient_backpropagation] returns no gradient set: its
    value has the type of [None], and whether it returns or raises, all
    that it changes is the layer objects, where the [backward] methods
    leave what they compute. *)
Theorem gradient_sets_aligned (X T : ndarray) :
  (forall (s s' : NeuralNet cat) grads,
     Z.of_nat (length (params s)) = n_layers s ->
     SGDNeuralNet.numerical_gradient_all X T s = (Val grads, s') ->
     aligned (params s) grads)
  /\ (forall (s : NeuralNet cat) (m : nat),
        consistent_store s -> (2 <= n_layers s)%Z ->
        shape X = [m; input_size s] -> shape T = [m; output_size s] ->
        activation_function s = "relu" \/ activation_function s = "sigmoid" ->
        exists grads,
          BackpropNeuralNet.gradient_backpropagation X T s = (Val grads, s)
          /\ aligned (params s) grads)
  /\ (forall (s : ConvolutionNet.t cat layer optimizer),
        exists (r : py unit) h,
          ConvolutionNet.gradient_backpropagation X T s
          = (r, ConvolutionNet.set_objects h s)).
Proof using All.
  split; [|split].
  - intros s s' grads Hn E.
    apply numerical_gradient_all_inv in E as [_ Hdone].
    now apply done_aligned.
  - intros s m Hstore Hn HX HT Hact.
    now apply (gradient_backpropagation_aligned s X T m).
  - intros s.
    destruct (only_objects_gradient_backpropagation (cat := cat)
                (optimizer := optimizer) X T s) as (h & E).
    destruct (ConvolutionNet.gradient_backpropagation X T s) as [r s'].
    cbn [snd] in E. subst s'. now exists r, h.
Qed.
End gradient_sets.

(** ** What initialization checks *)

Section initialization_widths.
Context {cat : Type} {layer : Type} `{Layer layer}.
Context {optimizer : Type} `{Optimizers optimizer}.

End initialization_widths.

(** ** The worked instances *)

Section worked_instances.
#[local] Existing Instance Reference.common.
#[local] Existing Instance Reference.int_labels.
#[local] Existing Instance Reference.dense_layer.
#[local] Existing Instance Reference.optimizers.
#[local] Existing Instance reference_shape_contract.

(** On the worked instances: the layered network's engine returns [None];
    on the network of one layer the numerical engine returns a gradient
    set and the analytic engine raises. *)
Lemma gradient_sets_not_from_every_engine :
  (exists s',
     ConvolutionNet.gradient_backpropagation Example.X0 Example.T0 Example.conv2
     = (Val tt, s'))
  /\ (exists grads,
        SGDNeuralNet.numerical_gradient_all Example.X0 Example.T0 Example.single
        = (Val grads, Example.single))
  /\ BackpropNeuralNet.gradient_backpropagation Example.X0 Example.T0 Example.single
     = (Raise IndexError, Example.single).
Proof.
  split; [|split].
  - eexists. vm_compute. reflexivity.
  - eexists. vm_compute. reflexivity.
  - vm_compute. reflexivity.
Qed.


(** With a negative learning rate the all-zero gradient set turns the
    negative zero of the bias into a positive zero. *)
Lemma update_parameters_zero_gradient_flips_a_sign :
  let b := NDArray [2] [PrimFloat.neg_zero; F64.zero] in
  let b' := NDArray [2] [F64.zero; F64.zero] in
  param_at Example.reversed 0 "b" b
  /\ (exists s',
        SGDNeuralNet.update_parameters
          (zero_gradients (params Example.reversed)) Example.reversed
        = (Val tt, s')
        /\ BackpropNeuralNet.update_parameters
             (zero_gradients (params Example.reversed)) Example.reversed
           = (Val tt, s')
        /\ param_at s' 0 "b" b')
  /\ b' <> b.
Proof.
  intros b b'. split; [|split].
  - exists 0. eexists. vm_compute. repeat split; reflexivity.
  - eexists. split; [vm_compute; reflexivity|]. split; [vm_compute; reflexivity|].
    exists 0. eexists. vm_compute. repeat split; reflexivity.
  - intros E.
    assert (E0 : PrimFloat.classify F64.zero = PrimFloat.classify PrimFloat.neg_zero).
    { exact (f_equal (fun a => match data a with
                               | x :: _ => PrimFloat.classify x
                               | [] => FloatClass.NaN
                               end) E). }
    vm_compute in E0. discriminate.
Qed.

(** The network of two layers is what initialization leaves, and its
    store is consistent. *)
Lemma net2_initialized :
  SGDNeuralNet._initialize_parameters (Example.net0 2) = (Val tt, Example.net2)
  /\ consistent_store Example.net2.
Proof.
  destruct (initialize_parameters_consistent (Example.net0 2))
    as (s' & E & _ & Hs); [cbn; lia|].
  unfold Example.net2. rewrite E. auto.
Qed.

Lemma consistent_store_weights_and_biases {cat} (s : NeuralNet cat) :
  consistent_store s -> weights_and_biases (params s).
Proof.
  intros (_ & Hl & _) i d Hd. destruct (Hl i d Hd) as (Hdom & _).
  rewrite Hdom. set_solver.
Qed.

(** C1.  On the network of the specification (two inputs, one hidden
    layer of width three, two outputs) the analytic engine returns the
    same gradient set whether [loss_type] is ["cross_entropy"] or
    ["squared_error"], since it never reads the attribute.  The numerical
    engine differentiates the loss [loss_type] names.  With
    ["cross_entropy"] the two gradient sets agree within [1e-4]; with
    ["squared_error"] they do not. *)
Theorem analytic_gradient_misses_squared_error :
  let s := set_loss_type "squared_error" Example.net2 in
  exists analytic numerical numerical_ce,
    BackpropNeuralNet.gradient_backpropagation Example.X0 Example.T0 s
    = (Val analytic, s)
    /\ SGDNeuralNet.numerical_gradient_all Example.X0 Example.T0 s
       = (Val numerical, s)
    /\ gradients_within F64.h analytic numerical = false
    /\ BackpropNeuralNet.gradient_backpropagation Example.X0 Example.T0
         Example.net2 = (Val analytic, Example.net2)
    /\ SGDNeuralNet.numerical_gradient_all Example.X0 Example.T0 Example.net2
       = (Val numerical_ce, Example.net2)
    /\ gradients_within F64.h analytic numerical_ce = true.
Proof.
  intros s. eexists _, _, _.
  split; [vm_compute; reflexivity|]. split; [vm_compute; reflexivity|].
  split; [vm_compute; reflexivity|]. split; [vm_compute; reflexivity|].
  split; vm_compute; reflexivity.
Qed.

(** The central difference of the first weight matrix on the network of
    two layers. *)
Lemma numerical_gradient_central_difference_example :
  exists g P,
    SGDNeuralNet._numerical_gradient Example.X0 Example.T0 "W" 0 Example.net2
    = (Val g, Example.net2)
    /\ param_at Example.net2 0 "W" P /\ shape g = shape P.
Proof.
  destruct (SGDNeuralNet._numerical_gradient Example.X0 Example.T0 "W" 0
              Example.net2) as [[g|e] s'] eqn:E; [|vm_compute in E; discriminate].
  destruct (numerical_gradient_central_difference _ _ _ _ _ _ _ E)
    as (P & HP & -> & Hs & _).
  exists g, P. auto.
Defined.

(** Both engines leave the network of two layers as it was. *)
Lemma gradient_computation_preserves_params_example :
  (SGDNeuralNet.numerical_gradient_all Example.X0 Example.T0 Example.net2).2
  = Example.net2
  /\ (BackpropNeuralNet.gradient_backpropagation Example.X0 Example.T0
        Example.net2).2 = Example.net2.
Proof.
  destruct (gradient_computation_preserves_params Example.X0 Example.T0
              Example.net2) as [Hn Hb].
  split.
  - destruct (SGDNeuralNet.numerical_gradient_all Example.X0 Example.T0
                Example.net2) as [[g|e] s'] eqn:E; [|vm_compute in E; discriminate].
    exact (proj1 (Hn g s' eq_refl)).
  - destruct (BackpropNeuralNet.gradient_backpropagation Example.X0 Example.T0
                Example.net2) as [[g|e] s'] eqn:E; [|vm_compute in E; discriminate].
    exact (proj1 (Hb g s' eq_refl)).
Defined.

(** On the network of two layers both engines return aligned gradient
    sets; the layered network's engine returns [None] and changes the
    layer objects only. *)
Lemma gradient_sets_aligned_example :
  (exists grads,
     (SGDNeuralNet.numerical_gradient_all Example.X0 Example.T0 Example.net2).1
     = Val grads /\ aligned (params Example.net2) grads)
  /\ (exists grads,
        BackpropNeuralNet.gradient_backpropagation Example.X0 Example.T0
          Example.net2 = (Val grads, Example.net2)
        /\ aligned (params Example.net2) grads)
  /\ (exists h,
        ConvolutionNet.gradient_backpropagation Example.X0 Example.T0
          Example.conv2 = (Val tt, ConvolutionNet.set_objects h Example.conv2)).
Proof.
  destruct (gradient_sets_aligned (layer := Reference.dense)
              (optimizer := Reference.optimizer) Example.X0 Example.T0)
    as (Hn & Hb & Hc).
  split; [|split].
  - destruct (SGDNeuralNet.numerical_gradient_all Example.X0 Example.T0
                Example.net2) as [[g|e] s'] eqn:E; [|vm_compute in E; discriminate].
    exists g. split; [reflexivity|].
    apply (Hn Example.net2 s' g); [vm_compute; reflexivity | exact E].
  - apply (Hb Example.net2 2).
    + exact (proj2 net2_initialized).
    + vm_compute. discriminate.
    + reflexivity.
    + reflexivity.
    + left. reflexivity.
  - destruct (Hc Example.conv2) as (r & h & E).
    assert (E1 : (ConvolutionNet.gradient_backpropagation Example.X0 Example.T0
                    Example.conv2).1 = Val tt) by (vm_compute; reflexivity).
    rewrite E in E1. cbn [fst] in E1. rewrite E1 in E. now exists h.
Defined.

(** The update of the network of two layers by the gradient set that
    holds [1.0] everywhere: the first bias item goes from [0] to
    [0 - learning_rate * 1]; and the update by the all-zero gradient set,
    which changes nothing. *)
Lemma update_parameters_sgd_example :
  (exists ps' d' P',
     SGDNeuralNet.update_parameters (unit_gradients (params Example.net2))
       Example.net2 = (Val tt, set_params ps' Example.net2)
     /\ BackpropNeuralNet.update_parameters (unit_gradients (params Example.net2))
          Example.net2 = (Val tt, set_params ps' Example.net2)
     /\ ps' !! 1 = Some d' /\ d' !! "b" = Some P'
     /\ data P' !! 0
        = Some (PrimFloat.sub F64.zero (PrimFloat.mul 0x1p-3%float F64.one)))
  /\ SGDNeuralNet.update_parameters (zero_gradients (params Example.net2))
       Example.net2 = (Val tt, Example.net2)
  /\ BackpropNeuralNet.update_parameters (zero_gradients (params Example.net2))
       Example.net2 = (Val tt, Example.net2).
Proof.
  assert (Hwb : weights_and_biases (params Example.net2))
    by exact (consistent_store_weights_and_biases _ (proj2 net2_initialized)).
  destruct (update_parameters_sgd Example.net2) as [Hstep Hzero];
    [vm_compute; reflexivity|].
  split.
  - destruct (Hstep _ (unit_gradients_aligned _ Hwb))
      as (ps' & E & Eb & Hlen & Hitems).
    destruct (params Example.net2 !! 1) as [d|] eqn:Hd;
      [|vm_compute in Hd; discriminate].
    destruct (d !! "b") as [P|] eqn:HP.
    2:{ exfalso. revert HP.
        assert (Hd1 : is_Some (d !! "b")); [|destruct Hd1 as [x ->]; discriminate].
        apply elem_of_dom. rewrite (Hwb 1 d Hd). set_solver. }
    assert (Hx : data P !! 0 = Some F64.zero).
    { assert (Hall : match params Example.net2 !! 1 with
                     | Some d0 => match d0 !! "b" with
                                  | Some P0 => data P0 !! 0
                                  | None => None
                                  end
                     | None => None
                     end = Some F64.zero)
        by (vm_compute; reflexivity).
      rewrite Hd, HP in Hall. exact Hall. }
    destruct (Hitems 1 d (ones_like <$> d) "b" P (ones_like P))
      as (d' & P' & Hd' & HP' & _ & _ & Hdata).
    + exact Hd.
    + unfold unit_gradients. now rewrite list_lookup_fmap, Hd.
    + now right.
    + exact HP.
    + now rewrite lookup_fmap, HP.
    + exists ps', d', P'. split; [exact E|]. split; [exact Eb|].
      split; [exact Hd'|]. split; [exact HP'|].
      apply (Hdata 0 F64.zero F64.one Hx).
      unfold ones_like. cbn [data].
      assert (Hlen0 : 0 < length (data P)) by (eapply lookup_lt_Some; eauto).
      destruct (data P); [cbn in Hlen0; lia | reflexivity].
  - apply Hzero; [exact Hwb|]. split; reflexivity.
Defined.

(** The accuracy of the network of two layers, in both classes, and of
    the layered network on the batch of two samples: the two layers
    classify both rows as the target says. *)
Lemma accuracy_is_fraction_example :
  SGDNeuralNet.accuracy Example.X0 (Encoded Example.T0) Example.net2
  = (Val F64.one, Example.net2)
  /\ BackpropNeuralNet.accuracy Example.X0 (Encoded Example.T0) Example.net2
     = (Val F64.one, Example.net2)
  /\ exists a s',
       ConvolutionNet.accuracy Example.X0 (Encoded Example.T0) Example.conv2
       = (Val a, s').
Proof.
  split; [|split].
  - let r := eval vm_compute in
        (SGDNeuralNet._predict_onehot Example.X0 Example.net2).1 in
    lazymatch r with
    | Val ?Y =>
        destruct (accuracy_is_fraction (layer := Reference.dense)
                    (optimizer := Reference.optimizer)
                    Example.X0 (Encoded Example.T0) Example.T0 Y
                    [0; 1]%Z [0; 1]%Z 2)
          as (Hsgd & _ & _ & Hone); [vm_compute; reflexivity..|];
        rewrite (Hsgd Example.net2 Example.net2 Example.net2 eq_refl)
          by (vm_compute; reflexivity);
        now rewrite (proj1 (Hone eq_refl ltac:(lia)) eq_refl)
    end.
  - let r := eval vm_compute in
        (BackpropNeuralNet._predict_onehot Example.X0 Example.net2).1 in
    lazymatch r with
    | Val ?Y =>
        destruct (accuracy_is_fraction (layer := Reference.dense)
                    (optimizer := Reference.optimizer)
                    Example.X0 (Encoded Example.T0) Example.T0 Y
                    [0; 1]%Z [0; 1]%Z 2)
          as (_ & Hbp & _ & Hone); [vm_compute; reflexivity..|];
        rewrite (Hbp Example.net2 Example.net2 Example.net2 eq_refl)
          by (vm_compute; reflexivity);
        now rewrite (proj1 (Hone eq_refl ltac:(lia)) eq_refl)
    end.
  - let r := eval vm_compute in
        (ConvolutionNet._predict_onehot Example.X0 Example.conv2) in
    lazymatch r with
    | (Val ?Y, ?s2) =>
        let yl := eval vm_compute in (argmax_axis1 Y) in
        lazymatch yl with
        | Val ?Y_label =>
            destruct (accuracy_is_fraction (layer := Reference.dense)
                        (optimizer := Reference.optimizer)
                        Example.X0 (Encoded Example.T0) Example.T0 Y
                        Y_label [0; 1]%Z 2)
              as (_ & _ & Hconv & _); [vm_compute; reflexivity..|];
            eexists _, s2;
            apply (Hconv Example.conv2 Example.conv2 s2 eq_refl);
            vm_compute; reflexivity
        end
    end.
Defined.

(** The analytic engine on the network of one layer. *)
Lemma gradient_backpropagation_single_layer_example :
  BackpropNeuralNet.gradient_backpropagation Example.X0 Example.T0 Example.single
  = (Raise IndexError, Example.single).
Proof.
  refine (proj2 (proj2 (gradient_backpropagation_single_layer Example.X0
                          Example.T0 Example.single eq_refl) _ _ _ _ _ _ _ _));
    vm_compute; reflexivity.
Defined.

(** A minibatch of two rows out of the batch of two. *)
Lemma select_minibatch_rows_example :
  exists X_batch T_batch,
    SGDNeuralNet.select_minibatch Example.X0 Example.T0 Example.net2
    = (Val (X_batch, T_batch),
       set_np_random (advance (np_random Example.net2) 2) Example.net2)
    /\ shape X_batch = [2; 2] /\ shape T_batch = [2; 2].
Proof.
  destruct (select_minibatch_rows (cat := Z) (layer := Reference.dense)
              (optimizer := Reference.optimizer)
              Example.X0 Example.T0 2 [2] [2] eq_refl eq_refl ltac:(lia))
    as [Hsgd _].
  destruct (Hsgd Example.net2) as (_ & _ & _ & E & _).
  eexists _, _. split; [exact E|]. split; reflexivity.
Defined.

End worked_instances.

(** * The training loop and the rest of the classes *)

(** ** Attributes a method leaves alone *)

(** The method [c] leaves the view [f] of the object as it found it,
    whether it returns or raises. *)
Definition keeps {S A B} (f : S -> B) (c : M S A) : Prop :=
  forall s, f (c s).2 = f s.

Lemma keeps_ret {S A B} (f : S -> B) (a : A) : keeps f (ret a).
Proof. now intros s. Qed.

Lemma keeps_raise {S A B} (f : S -> B) e : keeps f (@raise S A e).
Proof. now intros s. Qed.

Lemma keeps_lift {S A B} (f : S -> B) (r : py A) : keeps f (lift r).
Proof. now intros s. Qed.

Lemma keeps_gets {S A B} (f : S -> B) (g : S -> A) : keeps f (gets g).
Proof. now intros s. Qed.

Lemma keeps_modify {S B} (f : S -> B) (g : S -> S) :
  (forall s, f (g s) = f s) -> keeps f (modify g).
Proof. intros Hg s. apply Hg. Qed.

Lemma keeps_read_only {S A B} (f : S -> B) (c : M S A) :
  read_only c -> keeps f c.
Proof. intros Hc s. now rewrite Hc. Qed.

Lemma keeps_bind {S A B C} (f : S -> C) (c : M S A) (k : A -> M S B) :
  keeps f c -> (forall a, keeps f (k a)) -> keeps f (bind c k).
Proof.
  intros Hc Hk s. unfold bind. specialize (Hc s).
  destruct (c s) as [[a|e] s1]; cbn in Hc |- *; [|exact Hc].
  now rewrite Hk.
Qed.

Lemma keeps_for_ {S I B} (f : S -> B) (xs : list I) (body : I -> M S unit) :
  (forall i, keeps f (body i)) -> keeps f (for_ xs body).
Proof.
  intros Hb. induction xs as [|i xs IH]; cbn [for_].
  - apply keeps_ret.
  - apply keeps_bind; [apply Hb | intros _; exact IH].
Qed.

Lemma keeps_for_acc {S I A B} (f : S -> B) (xs : list I)
    (body : I -> A -> M S A) a :
  (forall i a, keeps f (body i a)) -> keeps f (for_acc xs a body).
Proof.
  intros Hb. revert a. induction xs as [|i xs IH]; intros a; cbn [for_acc].
  - apply keeps_ret.
  - apply keeps_bind; [apply Hb | intros a'; apply IH].
Qed.

Lemma keeps_eq {S A B} (f : S -> B) (c : M S A) s r s' :
  keeps f c -> c s = (r, s') -> f s' = f s.
Proof. intros Hc E. specialize (Hc s). now rewrite E in Hc. Qed.

Create HintDb keeps.
#[export] Hint Resolve keeps_ret keeps_raise keeps_lift keeps_gets : keeps.

Ltac keeps_tac :=
  repeat first
    [ solve [auto with keeps]
    | solve [apply keeps_modify; intros ?; reflexivity]
    | apply keeps_bind; [|intros ?]
    | apply keeps_for_acc; intros ? ?
    | apply keeps_for_; intros ?
    | progress cbv zeta
    | match goal with
      | |- keeps _ (let '(_, _) := ?p in _) => destruct p
      | |- keeps _ (if ?c then _ else _) => destruct c
      | |- keeps _ (match ?x with _ => _ end) => destruct x
      end ].

(** A loop that returns has kept every invariant its turns keep. *)
Lemma for_inversion {S I} (Inv : nat -> S -> Prop) (xs : list I)
    (body : I -> M S unit) :
  (forall k i s s', xs !! k = Some i -> Inv k s -> body i s = (Val tt, s') ->
     Inv (Datatypes.S k) s') ->
  forall s s', Inv 0 s -> for_ xs body s = (Val tt, s') -> Inv (length xs) s'.
Proof.
  revert Inv. induction xs as [|i xs IH]; intros Inv Hbody s s' H0; cbn [for_ length].
  - unfold ret. now intros [= <-].
  - intros ([] & s1 & E1 & E2)%bind_inv.
    apply (IH (fun k => Inv (Datatypes.S k))) with (s := s1); [|eauto|exact E2].
    intros k j t t' Hj. now apply (Hbody (Datatypes.S k)).
Qed.

(** ** What training keeps and what it records *)

Section training.
Context {cat : Type} `{Category cat} `{Common}.
Implicit Types s : NeuralNet cat.

(** The hyperparameters the constructor reads in. *)
Definition hyperparameters s :=
  (input_size s, output_size s, hidden_size s, n_layers s, learning_rate s,
   batch_size s, n_iter s, loss_type s, activation_function s,
   weight_init_std s).

(** What a training step leaves alone: the hyperparameters, the losses
    recorded so far, the encoder and the number of layers of the store. *)
Definition settings s :=
  (hyperparameters s, train_loss_list s, one_hot_encoder_ s, length (params s)).

Lemma settings_inv s hp losses enc n :
  settings s = (hp, losses, enc, n) ->
  hyperparameters s = hp /\ train_loss_list s = losses
  /\ one_hot_encoder_ s = enc /\ length (params s) = n.
Proof. unfold settings. now intros [= <- <- <- <-]. Qed.

Lemma keeps_set_param l name v : keeps settings (@set_param cat l name v).
Proof.
  intros s. unfold set_param, bind, gets, lift, dicts_set, getitem, setitem, modify.
  destruct (index_of (params s) l) as [k|]; [|reflexivity].
  destruct (params s !! k) as [d|]; [|reflexivity]. cbn.
  unfold settings. cbn. now rewrite length_insert.
Qed.

Lemma keeps_np_random_choice a size :
  keeps settings (@np_random_choice cat a size).
Proof.
  intros s. unfold np_random_choice. now destruct (choice a size (np_random s)).
Qed.

Lemma keeps_np_random_randn d0 d1 :
  keeps settings (@np_random_randn cat d0 d1).
Proof. now intros s. Qed.

Lemma keeps_select_minibatch X T :
  keeps settings (SGDNeuralNet.select_minibatch (cat := cat) X T).
Proof.
  unfold SGDNeuralNet.select_minibatch.
  pose proof keeps_np_random_choice. keeps_tac.
Qed.

Lemma keeps_loss X T : keeps settings (SGDNeuralNet._loss (cat := cat) X T).
Proof. apply keeps_read_only, SGD_loss_read_only. Qed.

Lemma keeps_numerical_gradient_all X T :
  keeps settings (SGDNeuralNet.numerical_gradient_all (cat := cat) X T).
Proof.
  unfold SGDNeuralNet.numerical_gradient_all, SGDNeuralNet._numerical_gradient,
    SGDNeuralNet._numerical_gradient_step.
  pose proof keeps_set_param. pose proof keeps_loss.
  pose proof (fun l name => keeps_read_only settings _ (@read_only_get_param cat l name)).
  keeps_tac.
Qed.

Lemma keeps_update_parameters grads :
  keeps settings (SGDNeuralNet.update_parameters (cat := cat) grads).
Proof.
  unfold SGDNeuralNet.update_parameters, SGDNeuralNet.update_parameter.
  pose proof keeps_set_param.
  pose proof (fun l name => keeps_read_only settings _ (@read_only_get_param cat l name)).
  keeps_tac.
Qed.

Lemma keeps_gradient_backpropagation X T :
  keeps settings (BackpropNeuralNet.gradient_backpropagation (cat := cat) X T).
Proof. apply keeps_read_only, gradient_backpropagation_read_only. Qed.

Lemma keeps_Backprop_loss X T :
  keeps settings (BackpropNeuralNet._loss (cat := cat) X T).
Proof.
  apply keeps_read_only. unfold BackpropNeuralNet._loss, BackpropNeuralNet._predict_onehot.
  pose proof (Backprop_predict_onehot_train_read_only (cat := cat)).
  read_only_tac.
Qed.

(** Initialization: a store of [n_layers] layers, the rest as it was. *)
Lemma initialize_parameters_settings s s' :
  SGDNeuralNet._initialize_parameters s = (Val tt, s') ->
  settings s'
  = (hyperparameters s, train_loss_list s, one_hot_encoder_ s,
     Z.to_nat (n_layers s)).
Proof.
  unfold SGDNeuralNet._initialize_parameters.
  intros (n & s1 & [= <- <-] & E)%bind_inv.
  apply bind_inv in E as ([] & s2 & [= <-] & E).
  apply (keeps_eq settings) in E.
  - rewrite E. unfold settings. cbn. now rewrite length_replicate.
  - pose proof keeps_set_param. pose proof keeps_np_random_randn. keeps_tac.
Qed.

Lemma one_hot_encoding_settings (T : targets cat) s T_onehot s' :
  SGDNeuralNet._one_hot_encoding T s = (Val T_onehot, s') ->
  hyperparameters s' = hyperparameters s
  /\ train_loss_list s' = train_loss_list s
  /\ params s' = params s
  /\ match T with
     | Labels l =>
         exists cats,
           OneHotEncoder_fit l = Val cats /\ one_hot_encoder_ s' = Some cats
           /\ OneHotEncoder_transform cats l = Val T_onehot
     | Encoded a => one_hot_encoder_ s' = one_hot_encoder_ s /\ T_onehot = a
     end.
Proof.
  destruct T as [l|a]; cbn [SGDNeuralNet._one_hot_encoding].
  - intros (cats & s1 & [Hfit ->]%lift_inv & E)%bind_inv.
    apply bind_inv in E as ([] & s2 & [= <-] & E).
    apply lift_inv in E as [Htr ->]. repeat split. eauto.
  - unfold ret. intros [= <- <-]. auto.
Qed.

(** One turn of the loop of [fit], for either gradient engine [G] and
    loss [L]. *)
Lemma training_step_settings
    (G : ndarray -> ndarray -> M (NeuralNet cat) (list (gmap string ndarray)))
    (L : ndarray -> ndarray -> M (NeuralNet cat) float) X T s s' :
  (forall Xb Tb, keeps settings (G Xb Tb)) ->
  (forall Xb Tb, keeps settings (L Xb Tb)) ->
  (let* (X_batch, T_batch) := SGDNeuralNet.select_minibatch X T in
   let* grads := G X_batch T_batch in
   let* _ := SGDNeuralNet.update_parameters grads in
   let* loss := L X_batch T_batch in
   SGDNeuralNet.record_loss loss) s = (Val tt, s') ->
  exists loss,
    settings s'
    = (hyperparameters s, train_loss_list s ++ [loss], one_hot_encoder_ s,
       length (params s)).
Proof.
  intros HG HL.
  intros ([Xb Tb] & s1 & E1 & E)%bind_inv.
  apply (keeps_eq settings _ _ _ _ (keeps_select_minibatch X T)) in E1.
  apply bind_inv in E as (grads & s2 & E2 & E).
  apply (keeps_eq settings _ _ _ _ (HG Xb Tb)) in E2.
  apply bind_inv in E as ([] & s3 & E3 & E).
  apply (keeps_eq settings _ _ _ _ (keeps_update_parameters grads)) in E3.
  apply bind_inv in E as (loss & s4 & E4 & E).
  apply (keeps_eq settings _ _ _ _ (HL Xb Tb)) in E4.
  unfold SGDNeuralNet.record_loss, bind, gets, modify in E. injection E as <-.
  exists loss.
  assert (Hs : settings s4 = settings s) by congruence.
  apply settings_inv in Hs as (Hh & Hl & He & Hp).
  transitivity (hyperparameters s4, train_loss_list s4 ++ [loss],
                one_hot_encoder_ s4, length (params s4)); [reflexivity|].
  congruence.
Qed.

Lemma training_loop_settings
    (G : ndarray -> ndarray -> M (NeuralNet cat) (list (gmap string ndarray)))
    (L : ndarray -> ndarray -> M (NeuralNet cat) float) X T (n : nat) s s' :
  (forall Xb Tb, keeps settings (G Xb Tb)) ->
  (forall Xb Tb, keeps settings (L Xb Tb)) ->
  for_ (seq 0 n) (fun _ : nat =>
    let* (X_batch, T_batch) := SGDNeuralNet.select_minibatch X T in
    let* grads := G X_batch T_batch in
    let* _ := SGDNeuralNet.update_parameters grads in
    let* loss := L X_batch T_batch in
    SGDNeuralNet.record_loss loss) s = (Val tt, s') ->
  hyperparameters s' = hyperparameters s
  /\ length (train_loss_list s') = length (train_loss_list s) + n
  /\ one_hot_encoder_ s' = one_hot_encoder_ s
  /\ length (params s') = length (params s).
Proof.
  intros HG HL E.
  apply (for_inversion
           (fun k t => hyperparameters t = hyperparameters s
                       /\ length (train_loss_list t) = length (train_loss_list s) + k
                       /\ one_hot_encoder_ t = one_hot_encoder_ s
                       /\ length (params t) = length (params s))) in E.
  - now rewrite length_seq in E.
  - intros k i t t' _ (Hh & Hl & He & Hp) Et.
    apply training_step_settings in Et as (loss & Et); [|assumption..].
    apply settings_inv in Et as (-> & -> & -> & ->).
    rewrite length_app. cbn. repeat split; auto; lia.
  - repeat split. lia.
Qed.

(** A call of [fit] that returns has recorded one loss per iteration in
    a list it started afresh, on a store of [n_layers] layers drawn
    afresh; the hyperparameters are those it found, and the encoder is the
    one fitted to the labels when the target is a label vector, the one
    it found when the target is an array. *)
Theorem fit_records_one_loss_per_iteration (X : ndarray) (T : targets cat) s s' :
  SGDNeuralNet.fit X T s = (Val tt, s')
  \/ BackpropNeuralNet.fit X T s = (Val tt, s') ->
  hyperparameters s' = hyperparameters s
  /\ length (train_loss_list s') = n_iter s
  /\ length (params s') = Z.to_nat (n_layers s)
  /\ match T with
     | Labels l =>
         exists cats,
           OneHotEncoder_fit l = Val cats /\ one_hot_encoder_ s' = Some cats
     | Encoded _ => one_hot_encoder_ s' = one_hot_encoder_ s
     end.
Proof.
  assert (Hprefix : forall loop : ndarray -> nat -> M (NeuralNet cat) unit,
    (forall T1 n t t',
        loop T1 n t = (Val tt, t') ->
        hyperparameters t' = hyperparameters t
        /\ length (train_loss_list t') = length (train_loss_list t) + n
        /\ one_hot_encoder_ t' = one_hot_encoder_ t
        /\ length (params t') = length (params t)) ->
    (let* _ := SGDNeuralNet._initialize_parameters in
     let* T1 := SGDNeuralNet._one_hot_encoding T in
     let* _ := modify (set_train_loss_list []) in
     let* n := gets n_iter in
     loop T1 n) s = (Val tt, s') ->
    hyperparameters s' = hyperparameters s
    /\ length (train_loss_list s') = n_iter s
    /\ length (params s') = Z.to_nat (n_layers s)
    /\ match T with
       | Labels l =>
           exists cats,
             OneHotEncoder_fit l = Val cats /\ one_hot_encoder_ s' = Some cats
       | Encoded _ => one_hot_encoder_ s' = one_hot_encoder_ s
       end).
  { intros loop Hloop.
    intros ([] & s1 & E1 & E)%bind_inv.
    apply initialize_parameters_settings in E1.
    apply settings_inv in E1 as (Hh1 & Hl1 & He1 & Hp1).
    apply bind_inv in E as (T1 & s2 & E2 & E).
    apply one_hot_encoding_settings in E2 as (Hh2 & Hl2 & Hp2 & HT).
    apply bind_inv in E as ([] & s3 & [= <-] & E).
    apply bind_inv in E as (n & s4 & [= <- <-] & E).
    apply Hloop in E as (Hh & Hl & He & Hp).
    change (hyperparameters s' = hyperparameters s2) in Hh.
    change (length (train_loss_list s') = n_iter s2) in Hl.
    change (one_hot_encoder_ s' = one_hot_encoder_ s2) in He.
    change (length (params s') = length (params s2)) in Hp.
    assert (Hn : n_iter s2 = n_iter s).
    { assert (Hhh : hyperparameters s2 = hyperparameters s) by congruence.
      unfold hyperparameters in Hhh. congruence. }
    split; [congruence|]. split; [congruence|].
    split; [congruence|].
    destruct T as [l|a].
    - destruct HT as (cats & Hfit & Henc & _). exists cats. split; congruence.
    - destruct HT as [Henc _]. congruence. }
  intros [E|E].
  - apply (Hprefix (fun T1 n => for_ (seq 0 n) (fun _ : nat =>
      let* (X_batch, T_batch) := SGDNeuralNet.select_minibatch X T1 in
      let* grads := SGDNeuralNet.numerical_gradient_all X_batch T_batch in
      let* _ := SGDNeuralNet.update_parameters grads in
      let* loss := SGDNeuralNet._loss X_batch T_batch in
      SGDNeuralNet.record_loss loss))); [|exact E].
    intros T1 n t t'. apply training_loop_settings.
    + apply keeps_numerical_gradient_all.
    + apply keeps_loss.
  - apply (Hprefix (fun T1 n => for_ (seq 0 n) (fun _ : nat =>
      let* (X_batch, T_batch) := SGDNeuralNet.select_minibatch X T1 in
      let* grads := BackpropNeuralNet.gradient_backpropagation X_batch T_batch in
      let* _ := SGDNeuralNet.update_parameters grads in
      let* loss := BackpropNeuralNet._loss X_batch T_batch in
      SGDNeuralNet.record_loss loss))); [|exact E].
    intros T1 n t t'. apply training_loop_settings.
    + apply keeps_gradient_backpropagation.
    + apply keeps_Backprop_loss.
Qed.
End training.

(** ** Attributes a method does not read *)

(** The method [c] runs the same on an object changed by [g] beforehand:
    the same outcome, and the object it leaves is the one it would have
    left, changed by [g]. *)
Definition blind_to {S A} (g : S -> S) (c : M S A) : Prop :=
  forall s, c (g s) = ((c s).1, g (c s).2).

Lemma blind_to_ret {S A} (g : S -> S) (a : A) : blind_to g (ret a).
Proof. now intros s. Qed.

Lemma blind_to_raise {S A} (g : S -> S) e : blind_to g (@raise S A e).
Proof. now intros s. Qed.

Lemma blind_to_lift {S A} (g : S -> S) (r : py A) : blind_to g (lift r).
Proof. now intros s. Qed.

Lemma blind_to_gets {S A} (g : S -> S) (f : S -> A) :
  (forall s, f (g s) = f s) -> blind_to g (gets f).
Proof. intros Hf s. unfold gets. cbn. now rewrite Hf. Qed.

Lemma blind_to_modify {S} (g h : S -> S) :
  (forall s, h (g s) = g (h s)) -> blind_to g (modify h).
Proof. intros Hh s. unfold modify. cbn. now rewrite Hh. Qed.

Lemma blind_to_bind {S A B} (g : S -> S) (c : M S A) (k : A -> M S B) :
  blind_to g c -> (forall a, blind_to g (k a)) -> blind_to g (bind c k).
Proof.
  intros Hc Hk s. unfold bind. rewrite Hc.
  destruct (c s) as [[a|e] s1]; cbn; [apply Hk | reflexivity].
Qed.

Lemma blind_to_for_ {S I} (g : S -> S) (xs : list I) (body : I -> M S unit) :
  (forall i, blind_to g (body i)) -> blind_to g (for_ xs body).
Proof.
  intros Hb. induction xs as [|i xs IH]; cbn [for_].
  - apply blind_to_ret.
  - apply blind_to_bind; [apply Hb | intros _; exact IH].
Qed.

Lemma blind_to_for_acc {S I A} (g : S -> S) (xs : list I)
    (body : I -> A -> M S A) a :
  (forall i a, blind_to g (body i a)) -> blind_to g (for_acc xs a body).
Proof.
  intros Hb. revert a. induction xs as [|i xs IH]; intros a; cbn [for_acc].
  - apply blind_to_ret.
  - apply blind_to_bind; [apply Hb | intros a'; apply IH].
Qed.

Create HintDb blind_to.
#[export] Hint Resolve blind_to_ret blind_to_raise blind_to_lift : blind_to.

Ltac blind_to_tac :=
  repeat first
    [ solve [auto with blind_to]
    | solve [apply blind_to_gets; intros ?; reflexivity]
    | solve [apply blind_to_modify; intros ?; reflexivity]
    | apply blind_to_bind; [|intros ?]
    | apply blind_to_for_acc; intros ? ?
    | apply blind_to_for_; intros ?
    | progress cbv zeta
    | match goal with
      | |- blind_to _ (let '(_, _) := ?p in _) => destruct p
      | |- blind_to _ (if ?c then _ else _) => destruct c
      | |- blind_to _ (match ?x with _ => _ end) => destruct x
      end ].

Section loss_type_unread.
Context {cat : Type} `{Category cat} `{Common}.

Lemma get_param_blind_to_loss_type lt l name :
  blind_to (set_loss_type lt) (@get_param cat l name).
Proof. unfold get_param. blind_to_tac. Qed.

(** The analytic engine never reads [loss_type]: whatever the attribute
    holds, the call has the same outcome, the cross-entropy gradient of
    [softmax_loss_backward] included. *)
Theorem gradient_backpropagation_ignores_loss_type
    (X T : ndarray) (lt : string) (s : NeuralNet cat) :
  BackpropNeuralNet.gradient_backpropagation X T (set_loss_type lt s)
  = ((BackpropNeuralNet.gradient_backpropagation X T s).1, set_loss_type lt s).
Proof.
  assert (Hb : blind_to (set_loss_type lt)
                 (BackpropNeuralNet.gradient_backpropagation (cat := cat) X T)).
  { unfold BackpropNeuralNet.gradient_backpropagation,
      BackpropNeuralNet._predict_onehot_train, BackpropNeuralNet.backward_step.
    pose proof (get_param_blind_to_loss_type lt). blind_to_tac. }
  rewrite Hb. now rewrite (gradient_backpropagation_read_only X T s).
Qed.
End loss_type_unread.

(** ** The forward pass of both classes *)

Lemma read_only_run {S A} (c : M S A) s : read_only c -> c s = ((c s).1, s).
Proof. intros Hc. specialize (Hc s). destruct (c s) as [r s1]. cbn in *. now subst. Qed.

Lemma bind_run {S A B} (c : M S A) (k : A -> M S B) s r s1 :
  c s = (r, s1) ->
  bind c k s = match r with Val a => k a s1 | Raise e => (Raise e, s1) end.
Proof. intros E. unfold bind. now rewrite E. Qed.

Section forward_modes.
Context {cat : Type} `{Category cat} `{Common}.
Implicit Types s : NeuralNet cat.

(** The prediction kept from the outcome of the pass in training mode. *)
Definition prediction_of (r : py (ndarray * list ndarray * list ndarray))
  : py ndarray :=
  match r with Val t => Val t.1.1 | Raise e => Raise e end.

(** One hidden layer, with and without the cache. *)
Lemma hidden_layer_agrees (act : string) (l : Z) s Z_current Zs As :
  exists r,
    (let* W := get_param l "W" in
     let* b := get_param l "b" in
     let* (Z_next, A_current) := lift (forward_middle Z_current W b act) in
     ret (Z_next, Zs ++ [Z_next], As ++ [A_current])) s = (r, s)
    /\ (let* W := get_param l "W" in
        let* b := get_param l "b" in
        let* ZA := lift (forward_middle Z_current W b act) in
        ret ZA.1) s = (prediction_of r, s)
    /\ forall Z' Zs' As',
         r = Val (Z', Zs', As') ->
         length Zs' = S (length Zs) /\ length As' = S (length As).
Proof.
  rewrite !(bind_run _ _ _ _ _ (read_only_run _ s (read_only_get_param l "W"))).
  destruct (get_param l "W" s).1 as [W|e];
    [|eexists; repeat split; discriminate].
  rewrite !(bind_run _ _ _ _ _ (read_only_run _ s (read_only_get_param l "b"))).
  destruct (get_param l "b" s).1 as [b|e];
    [|eexists; repeat split; discriminate].
  unfold bind, lift, ret.
  destruct (forward_middle Z_current W b act) as [[Z1 A1]|e];
    [|eexists; repeat split; discriminate].
  eexists. split; [reflexivity|]. split; [reflexivity|].
  intros Z' Zs' As' [= <- <- <-]. rewrite !length_app. cbn. lia.
Qed.

(** The loop over the hidden layers, with and without the cache. *)
Lemma hidden_layers_agree (act : string) (xs : list Z) s :
  forall Z_current Zs As,
  exists r,
    for_acc xs (Z_current, Zs, As)
      (fun l '(Z_current, Z_intermediate, A_intermediate) =>
         let* W := get_param l "W" in
         let* b := get_param l "b" in
         let* (Z_current, A_current) := lift (forward_middle Z_current W b act) in
         ret (Z_current, Z_intermediate ++ [Z_current],
              A_intermediate ++ [A_current])) s = (r, s)
    /\ for_acc xs Z_current
         (fun l Z_current =>
            let* W := get_param l "W" in
            let* b := get_param l "b" in
            let* ZA := lift (forward_middle Z_current W b act) in
            ret ZA.1) s = (prediction_of r, s)
    /\ forall Z' Zs' As',
         r = Val (Z', Zs', As') ->
         length Zs' = length Zs + length xs /\ length As' = length As + length xs.
Proof.
  induction xs as [|l xs IH]; intros Zc Zs As; cbn [for_acc].
  - eexists. split; [reflexivity|]. split; [reflexivity|].
    intros Z' Zs' As' [= <- <- <-]. cbn. lia.
  - destruct (hidden_layer_agrees act l s Zc Zs As) as (r1 & E1 & E2 & Hlen1).
    rewrite (bind_run _ _ _ _ _ E1), (bind_run _ _ _ _ _ E2).
    destruct r1 as [[[Z1 Zs1] As1]|e]; cbn [prediction_of fst].
    + destruct (IH Z1 Zs1 As1) as (r & E & E' & Hlen).
      exists r. split; [exact E|]. split; [exact E'|].
      intros Z' Zs' As' Hr. destruct (Hlen _ _ _ Hr) as [HZ HA].
      destruct (Hlen1 _ _ _ eq_refl) as [HZ1 HA1]. cbn [length]. lia.
    + exists (Raise e). repeat split; discriminate.
Qed.

(** The pass in training mode and the pass of [SGDNeuralNet], run side
    by side. *)
Lemma forward_passes_run (X : ndarray) s :
  exists r,
    BackpropNeuralNet._predict_onehot_train X s = (r, s)
    /\ SGDNeuralNet._predict_onehot X s = (prediction_of r, s)
    /\ forall Y Zs As, r = Val (Y, Zs, As) ->
         length Zs = Z.to_nat (n_layers s - 1)
         /\ length As = Z.to_nat (n_layers s - 1).
Proof.
  unfold BackpropNeuralNet._predict_onehot_train, SGDNeuralNet._predict_onehot.
  rewrite !(bind_run (gets n_layers) _ s _ s eq_refl).
  rewrite !(bind_run (gets activation_function) _ s _ s eq_refl).
  destruct (hidden_layers_agree (activation_function s)
              (range 0 (n_layers s - 1)) s X [] []) as (r & E & E' & Hlen).
  rewrite (bind_run _ _ _ _ _ E), (bind_run _ _ _ _ _ E').
  destruct r as [[[Zc Zs] As]|e]; cbn [prediction_of fst];
    [|exists (Raise e); repeat split; discriminate].
  specialize (Hlen Zc Zs As eq_refl). rewrite range_length in Hlen.
  rewrite !(bind_run _ _ _ _ _
              (read_only_run _ s (read_only_get_param (n_layers s - 1) "W"))).
  destruct (get_param (n_layers s - 1) "W" s).1 as [W|e];
    [|exists (Raise e); repeat split; discriminate].
  rewrite !(bind_run _ _ _ _ _
              (read_only_run _ s (read_only_get_param (n_layers s - 1) "b"))).
  destruct (get_param (n_layers s - 1) "b" s).1 as [b|e];
    [|exists (Raise e); repeat split; discriminate].
  unfold bind, lift, ret.
  destruct (forward_last_classification Zc W b) as [Yr|e];
    [|exists (Raise e); repeat split; discriminate].
  eexists. split; [reflexivity|]. split; [reflexivity|].
  intros Y Zs' As' [= <- <- <-]. cbn in Hlen. split; lia.
Qed.

Lemma Backprop_predict_onehot_eq (X : ndarray) s :
  BackpropNeuralNet._predict_onehot X s = SGDNeuralNet._predict_onehot X s.
Proof.
  destruct (forward_passes_run X s) as (r & Et & Es & _).
  unfold BackpropNeuralNet._predict_onehot.
  rewrite (bind_run _ _ _ _ _ Et), Es. now destruct r.
Qed.

Lemma predict_onehot_of_train (X Y : ndarray) Zs As s s' :
  BackpropNeuralNet._predict_onehot_train X s = (Val (Y, Zs, As), s') ->
  SGDNeuralNet._predict_onehot X s = (Val Y, s).
Proof.
  intros E. destruct (forward_passes_run X s) as (r & Et & Es & _).
  rewrite Et in E. injection E as -> _. exact Es.
Qed.

(** The forward pass of [BackpropNeuralNet] in training mode
    ([train_flg=True]), when it returns: the object is as it was, the
    prediction is the one the call without [train_flg] returns, and the
    two caches hold one array per hidden layer, [n_layers - 1] of each.
    The subscript [Z_intermediate[n_layers-2]] of the backward pass
    therefore raises [IndexError] exactly when [n_layers] is at most
    one. *)
Theorem forward_pass_caches (X : ndarray) s Y Z_intermediate A_intermediate s' :
  BackpropNeuralNet._predict_onehot_train X s
  = (Val (Y, Z_intermediate, A_intermediate), s') ->
  s' = s
  /\ BackpropNeuralNet._predict_onehot X s = (Val Y, s)
  /\ length Z_intermediate = Z.to_nat (n_layers s - 1)
  /\ length A_intermediate = Z.to_nat (n_layers s - 1)
  /\ (getitem Z_intermediate (n_layers s - 2) = Raise IndexError
      <-> (n_layers s <= 1)%Z).
Proof.
  intros E.
  destruct (forward_passes_run X s) as (r & Et & _ & Hlen).
  assert (Epred : BackpropNeuralNet._predict_onehot X s = (Val Y, s)).
  { unfold BackpropNeuralNet._predict_onehot.
    rewrite (bind_run _ _ _ _ _ E). cbv beta iota. unfold ret. cbn [fst].
    rewrite Et in E. congruence. }
  rewrite Et in E.
  assert (Hr : r = Val (Y, Z_intermediate, A_intermediate)) by congruence.
  assert (Hs : s' = s) by congruence.
  destruct (Hlen _ _ _ Hr) as [HZ HA].
  split; [exact Hs|]. split; [exact Epred|]. split; [exact HZ|].
  split; [exact HA|].
  unfold getitem, index_of. rewrite HZ.
  destruct (Z.leb_spec 0 (n_layers s - 2)) as [Hnn|Hneg].
  - destruct (Z.ltb_spec (n_layers s - 2)
                (Z.of_nat (Z.to_nat (n_layers s - 1)))) as [Hlt|Hge]; [|lia].
    destruct (Z_intermediate !! Z.to_nat (n_layers s - 2)) as [Zl|] eqn:Hl.
    + split; [discriminate | lia].
    + apply lookup_ge_None in Hl. lia.
  - destruct (Z.leb_spec (- Z.of_nat (Z.to_nat (n_layers s - 1)))
                (n_layers s - 2)) as [Hle|Hgt].
    + destruct (Z_intermediate
                  !! Z.to_nat (Z.of_nat (Z.to_nat (n_layers s - 1))
                               + (n_layers s - 2))) as [Zl|] eqn:Hl.
      * apply lookup_lt_Some in Hl. lia.
      * split; [lia | reflexivity].
    + split; [lia | reflexivity].
Qed.
End forward_modes.

(** ** The encoder behind [accuracy] and [predict] *)

Lemma py_mapM_inv {A B} (f : A -> py B) (l : list A) (ys : list B) :
  py_mapM f l = Val ys -> Forall2 (fun x y => f x = Val y) l ys.
Proof.
  revert ys. induction l as [|x l IH]; intros ys; cbn [py_mapM].
  - intros [= <-]. constructor.
  - destruct (f x) as [y|e] eqn:E; [|discriminate]. cbn [py_bind].
    destruct (py_mapM f l) as [ys'|e]; [|discriminate]. cbn [py_bind].
    intros [= <-]. constructor; auto.
Qed.

Lemma argmax_axis1_inv (a : ndarray) (idx : list Z) :
  argmax_axis1 a = Val idx ->
  exists n k, shape a = [n; k] /\ k <> 0 /\ length idx = n.
Proof.
  unfold argmax_axis1.
  destruct (shape a) as [|n [|k [|]]]; try discriminate.
  destruct (decide (k = 0)); [discriminate|].
  intros [= <-]. exists n, k. now rewrite length_map, length_seq.
Qed.

Lemma bind_ext {S A B} (c : M S A) (k1 k2 : A -> M S B) s :
  (forall a s1, k1 a s1 = k2 a s1) -> bind c k1 s = bind c k2 s.
Proof. intros Hk. unfold bind. destruct (c s) as [[a|e] s1]; auto. Qed.

Lemma bind_ext_l {S A B} (c1 c2 : M S A) (k : A -> M S B) s :
  c1 s = c2 s -> bind c1 k s = bind c2 k s.
Proof. intros Hc. unfold bind. now rewrite Hc. Qed.

Section encoder_use.
Context {cat : Type} `{Category cat} `{Common}.
Implicit Types s : NeuralNet cat.

(** [accuracy] on a label vector fits a new encoder to the test labels and
    leaves it in the object, in place of the one the training fitted;
    nothing else changes.  On an encoded target the object stays as it
    was. *)
Theorem accuracy_refits_the_encoder
    (X_test : ndarray) (T_test : targets cat) (a : float) s s' :
  SGDNeuralNet.accuracy X_test T_test s = (Val a, s')
  \/ BackpropNeuralNet.accuracy X_test T_test s = (Val a, s') ->
  match T_test with
  | Labels l =>
      exists cats,
        OneHotEncoder_fit l = Val cats
        /\ s' = set_one_hot_encoder_ (Some cats) s
  | Encoded _ => s' = s
  end.
Proof.
  assert (Hsgd : SGDNeuralNet.accuracy X_test T_test s = (Val a, s') ->
                 match T_test with
                 | Labels l =>
                     exists cats,
                       OneHotEncoder_fit l = Val cats
                       /\ s' = set_one_hot_encoder_ (Some cats) s
                 | Encoded _ => s' = s
                 end).
  { unfold SGDNeuralNet.accuracy.
    intros (T1 & s1 & HT & E)%bind_inv.
    apply bind_inv in E as (Y & s2 & HY & E).
    apply (read_only_eq _ _ _ _ (SGD_predict_onehot_read_only X_test)) in HY.
    apply accuracy_tail_inv in E as [-> _]. subst s2.
    destruct T_test as [l|T0]; cbn [SGDNeuralNet._one_hot_encoding] in HT.
    - apply bind_inv in HT as (cats & s0 & [Hfit ->]%lift_inv & HT).
      apply bind_inv in HT as ([] & s2 & [= <-] & HT).
      apply lift_inv in HT as [_ ->]. eauto.
    - unfold ret in HT. now injection HT as _ <-. }
  intros [E|E]; [now apply Hsgd|]. apply Hsgd. rewrite <- E.
  unfold BackpropNeuralNet.accuracy, SGDNeuralNet.accuracy.
  apply bind_ext. intros T1 s1. apply bind_ext_l.
  symmetry. apply Backprop_predict_onehot_eq.
Qed.

(** The labels [_one_hot_encoding_reverse] gives for a prediction [Y]:
    one per row, each the category at the arg-max index of its row. *)
Lemma one_hot_encoding_reverse_inv (Y : ndarray) s labels s' :
  SGDNeuralNet._one_hot_encoding_reverse Y s = (Val labels, s') ->
  s' = s
  /\ exists cats idx n k,
       one_hot_encoder_ s = Some cats /\ argmax_axis1 Y = Val idx
       /\ shape Y = [n; k] /\ 0 < n /\ length labels = n
       /\ Forall2 (fun i c => getitem cats i = Val c) idx labels
       /\ Forall (fun c => c ∈ cats) labels.
Proof.
  unfold SGDNeuralNet._one_hot_encoding_reverse.
  intros (idx & s1 & [Hidx ->]%lift_inv & E)%bind_inv.
  destruct (argmax_axis1_inv _ _ Hidx) as (n & k & Hshape & Hk & Hlen).
  destruct idx as [|i idx]; [discriminate|].
  apply bind_inv in E as (enc & s1 & [= <- <-] & E).
  destruct (one_hot_encoder_ s) as [cats|] eqn:Henc; [|discriminate].
  apply lift_inv in E as [E ->]. apply py_mapM_inv in E.
  split; [reflexivity|]. exists cats, (i :: idx), n, k.
  pose proof (Forall2_length _ _ _ E) as Hl.
  repeat split; auto.
  - cbn in Hlen. lia.
  - congruence.
  - clear -E. induction E as [|j c js cs Hj _ IH]; constructor; auto.
    apply getitem_inv in Hj as (m & _ & Hm). eapply list_elem_of_lookup_2, Hm.
Qed.

(** A call of [predict] that returns changes nothing and gives one label
    per sample, each of them a category of the encoder the object holds:
    the one at the arg-max index of the sample's row of the prediction. *)
Theorem predict_gives_fitted_categories (X : ndarray) s labels s' :
  SGDNeuralNet.predict X s = (Val labels, s')
  \/ BackpropNeuralNet.predict X s = (Val labels, s') ->
  s' = s
  /\ exists cats Y idx n k,
       one_hot_encoder_ s = Some cats
       /\ SGDNeuralNet._predict_onehot X s = (Val Y, s)
       /\ shape Y = [n; k] /\ argmax_axis1 Y = Val idx
       /\ length labels = n
       /\ Forall2 (fun i c => getitem cats i = Val c) idx labels
       /\ Forall (fun c => c ∈ cats) labels.
Proof.
  assert (Hsgd : SGDNeuralNet.predict X s = (Val labels, s') ->
    s' = s
    /\ exists cats Y idx n k,
         one_hot_encoder_ s = Some cats
         /\ SGDNeuralNet._predict_onehot X s = (Val Y, s)
         /\ shape Y = [n; k] /\ argmax_axis1 Y = Val idx
         /\ length labels = n
         /\ Forall2 (fun i c => getitem cats i = Val c) idx labels
         /\ Forall (fun c => c ∈ cats) labels).
  { unfold SGDNeuralNet.predict. intros (Y & s1 & HY & E)%bind_inv.
    pose proof (read_only_eq _ _ _ _ (SGD_predict_onehot_read_only X) HY). subst s1.
    apply one_hot_encoding_reverse_inv in E
      as (-> & cats & idx & n & k & Henc & Hidx & Hshape & _ & Hlen & Hget & Hin).
    split; [reflexivity|]. exists cats, Y, idx, n, k. auto 10. }
  intros [E|E]; [now apply Hsgd|]. apply Hsgd. rewrite <- E.
  unfold BackpropNeuralNet.predict, SGDNeuralNet.predict.
  apply bind_ext_l. symmetry. apply Backprop_predict_onehot_eq.
Qed.

(** Without an encoder, that is on an object that has seen encoded
    targets only, [predict] raises [AttributeError] as soon as the forward
    pass has given a prediction. *)
Theorem predict_without_encoder (X Y : ndarray) (n k : nat) s :
  one_hot_encoder_ s = None ->
  SGDNeuralNet._predict_onehot X s = (Val Y, s) ->
  shape Y = [S n; S k] ->
  SGDNeuralNet.predict X s = (Raise (AttributeError "one_hot_encoder_"), s)
  /\ BackpropNeuralNet.predict X s
     = (Raise (AttributeError "one_hot_encoder_"), s).
Proof.
  intros Henc HY Hshape.
  assert (E : SGDNeuralNet.predict X s
              = (Raise (AttributeError "one_hot_encoder_"), s)).
  { unfold SGDNeuralNet.predict. rewrite (bind_Val _ _ _ _ _ HY).
    unfold SGDNeuralNet._one_hot_encoding_reverse, bind, lift, argmax_axis1.
    rewrite Hshape. rewrite decide_False by discriminate.
    cbn [seq map]. unfold gets. now rewrite Henc. }
  split; [exact E|]. rewrite <- E.
  unfold BackpropNeuralNet.predict, SGDNeuralNet.predict.
  apply bind_ext_l. apply Backprop_predict_onehot_eq.
Qed.
End encoder_use.

Lemma length_insert_index_of {A} (ps : list A) (k0 k : nat) (x : A) (l : Z) :
  index_of ps l = Some k -> index_of (<[k0 := x]> ps) l = Some k.
Proof. unfold index_of. now rewrite length_insert. Qed.

(** ** The numerical engine when the loss raises *)

Section numerical_gradient_raise.
Context {cat : Type} `{Category cat} `{Common}.
Implicit Types s : NeuralNet cat.

(** [_numerical_gradient] restores the parameter at the end of every
    turn, not on the way out of an exception: when the first evaluation of
    the loss raises (say, on a batch of the wrong width), the call raises
    the same exception and leaves the first component of the parameter
    moved by [+h]. *)
Theorem numerical_gradient_raise_leaves_perturbation
    (X T : ndarray) (name : string) (l : Z) (P : ndarray) (x : float)
    (e : exn) s s1 :
  param_at s l name P -> well_formed P -> data P !! 0 = Some x ->
  (let* P1 := lift (SGDNeuralNet.perturbed PrimFloat.add P 0) in
   let* _ := set_param l name P1 in
   SGDNeuralNet._loss X T) s = (Raise e, s1) ->
  SGDNeuralNet._numerical_gradient X T name l s = (Raise e, s1)
  /\ exists P1,
       param_at s1 l name P1 /\ shape P1 = shape P
       /\ data P1 !! 0 = Some (PrimFloat.add x F64.h)
       /\ forall name' P', name' <> name -> param_at s l name' P' ->
            param_at s1 l name' P'.
Proof.
  intros (k & d & Hk & Hd & HP) Hwf Hx Hloss.
  assert (Hlt : k < length (params s)) by (eapply lookup_lt_Some; eauto).
  rewrite (bind_Val _ _ s (plus P 0) s) in Hloss
    by (unfold lift; now rewrite perturbed_Val).
  rewrite (bind_Val _ _ s tt _ (set_param_Val s l name _ k d Hk Hd)) in Hloss.
  rewrite loss_eq in Hloss. injection Hloss as Hraise <-.
  split.
  - unfold SGDNeuralNet._numerical_gradient.
    rewrite (bind_Val _ _ s P s) by (apply get_param_Val; red; eauto).
    cbn [ravel array_size data].
    destruct (data P) as [|x0 xs] eqn:HdP; [discriminate|].
    apply bind_Raise. unfold array_size at 1, ravel at 1. cbn [data].
    rewrite HdP. cbn [length seq for_acc]. apply bind_Raise.
    rewrite (step_eq X T name l s k d P Hk Hd HP Hwf).
    unfold loss_plus. now rewrite Hraise.
  - exists (plus P 0). split; [|split; [reflexivity|split]].
    + exists k, (<[name := plus P 0]> d). unfold with_param. cbn [params set_params].
      split; [apply length_insert_index_of, Hk|]. split; [now apply list_lookup_insert_eq|].
      apply lookup_insert_eq.
    + unfold plus. cbn [data]. now apply perturbed_data_at.
    + intros name' P' Hne (k' & d' & Hk' & Hd' & HP').
      assert (k' = k) as -> by congruence. assert (d' = d) as -> by congruence.
      exists k, (<[name := plus P 0]> d). unfold with_param. cbn [params set_params].
      split; [apply length_insert_index_of, Hk|]. split; [now apply list_lookup_insert_eq|].
      now rewrite lookup_insert_ne.
Qed.
End numerical_gradient_raise.

(** ** Initialization with fewer than two layers *)

Section initialize_edge.
Context {cat : Type}.
Implicit Types s : NeuralNet cat.

(** Without layers ([n_layers <= 0]) [_initialize_parameters] raises
    [IndexError] at the assignment of the first weight matrix: the store
    is left empty, and the matrix has been drawn. *)
Theorem initialize_parameters_without_layers s :
  (n_layers s <= 0)%Z ->
  SGDNeuralNet._initialize_parameters s
  = (Raise IndexError,
     set_np_random (advance (np_random s) (input_size s * hidden_size s))
       (set_params [] s)).
Proof.
  intros Hn. unfold SGDNeuralNet._initialize_parameters.
  unfold bind at 1, gets. unfold bind at 1, modify.
  replace (Z.to_nat (n_layers s)) with 0 by lia. cbn [replicate].
  do 4 (unfold bind at 1, gets). unfold bind at 1, np_random_randn.
  cbn [randn]. unfold bind at 1, set_param, bind at 1, gets.
  cbn [params set_params set_np_random]. reflexivity.
Qed.

(** With one layer the matrix of the first layer, drawn for
    (input, hidden), is overwritten by the matrix of the output layer,
    drawn for (hidden, output): the store holds this one layer, whatever
    [input_size] is, and both draws have been made. *)
Theorem initialize_parameters_single_layer s :
  n_layers s = 1%Z ->
  let g1 := advance (np_random s) (input_size s * hidden_size s) in
  let W := lscale (weight_init_std s)
             (randn (hidden_size s) (output_size s) g1).1 in
  SGDNeuralNet._initialize_parameters s
  = (Val tt,
     set_np_random (advance g1 (hidden_size s * output_size s))
       (set_params [<["b" := zeros [output_size s]]> (<["W" := W]> ∅)] s)).
Proof.
  intros Hn g1 W. unfold SGDNeuralNet._initialize_parameters.
  rewrite (bind_run (gets n_layers) _ s _ s eq_refl), Hn. cbv beta iota.
  change (Z.to_nat 1) with 1. cbn [replicate].
  change (range 1 (1 - 1)) with (@nil Z). change (range 0 (1 - 1)) with (@nil Z).
  change (1 - 1)%Z with 0%Z. cbn [for_].
  pose (W0 := lscale (weight_init_std s)
                (randn (input_size s) (hidden_size s) (np_random s)).1).
  pose (s1 := set_params [∅] s).
  pose (s2 := set_np_random g1 s1).
  pose (s3 := with_param 0 ∅ "W" W0 s2).
  pose (s4 := set_np_random (advance g1 (hidden_size s * output_size s)) s3).
  pose (s5 := with_param 0 (<["W" := W0]> ∅) "W" W s4).
  rewrite (bind_run (modify (set_params [∅])) _ s _ s1 eq_refl). cbv beta iota.
  do 4 (rewrite (bind_run (gets _) _ s1 _ s1 eq_refl); cbv beta iota).
  rewrite (bind_run (np_random_randn _ _) _ s1 _ s2 eq_refl). cbv beta iota.
  rewrite (bind_run (set_param 0 "W" _) _ s2 _ s3
             (set_param_Val s2 0 "W" _ 0 ∅ eq_refl eq_refl)). cbv beta iota.
  rewrite (bind_run (ret tt) _ s3 _ s3 eq_refl). cbv beta iota.
  rewrite (bind_run (np_random_randn _ _) _ s3 _ s4 eq_refl). cbv beta iota.
  rewrite (bind_run (set_param 0 "W" _) _ s4 _ s5
             (set_param_Val s4 0 "W" _ 0 (<["W" := W0]> ∅) eq_refl eq_refl)).
  cbv beta iota.
  rewrite (bind_run (ret tt) _ s5 _ s5 eq_refl). cbv beta iota.
  rewrite (set_param_Val s5 0 "b" _ 0 (<["W" := W]> (<["W" := W0]> ∅))
             eq_refl eq_refl).
  unfold with_param, s5, s4, s3, s2, s1, with_param.
  cbn [params set_params set_np_random list_insert insert].
  now rewrite insert_insert_eq.
Qed.
End initialize_edge.

(** ** An update with too few gradients *)

Lemma for_app {S I} (xs ys : list I) (body : I -> M S unit) s :
  for_ (xs ++ ys) body s = (let* _ := for_ xs body in for_ ys body) s.
Proof.
  revert s. induction xs as [|i xs IH]; intros s; cbn [app for_].
  - reflexivity.
  - unfold bind in *.
    destruct (body i s) as [[[]|e] s1]; [apply IH | reflexivity].
Qed.

Lemma getitem_beyond {A} (l : list A) (k : nat) :
  length l <= k -> getitem l (Z.of_nat k) = Raise IndexError.
Proof.
  intros Hk. unfold getitem, index_of.
  destruct (Z.leb_spec 0 (Z.of_nat k)); [|lia].
  destruct (Z.ltb_spec (Z.of_nat k) (Z.of_nat (length l))); [lia|reflexivity].
Qed.

Section update_short.
Context {cat : Type}.
Implicit Types s : NeuralNet cat.
Variable grads : list (gmap string ndarray).

Lemma update_loop_prefix s0 (ps : list (gmap string ndarray)) (K m : nat) :
  forall a ps_a,
  aligned (take K ps) grads -> K <= length ps -> a + m <= K ->
  updated_upto grads (learning_rate s0) ps a ps_a ->
  exists ps',
    for_ (map Z.of_nat (seq a m))
      (fun l => let* _ := SGDNeuralNet.update_parameter grads l "W" in
                SGDNeuralNet.update_parameter grads l "b")
      (set_params ps_a s0)
    = (Val tt, set_params ps' s0)
    /\ updated_upto grads (learning_rate s0) ps (a + m) ps'.
Proof.
  induction m as [|m IH]; intros a ps_a Hal HK Hle Hinv; cbn [seq map for_].
  - exists ps_a. rewrite Nat.add_0_r. auto.
  - destruct Hinv as (Hlen & Hdone & Hrest).
    destruct (lookup_lt_is_Some_2 ps a ltac:(lia)) as [d Hd].
    destruct Hal as [Hglen Hal'].
    destruct (Hal' a d)
      as (gd & gW & gb & PW & Pb & Hgd & _ & HgW & Hgb & HPW & HPb & HsW & Hsb).
    { rewrite lookup_take_lt by lia. exact Hd. }
    assert (Hd' : params (set_params ps_a s0) !! a = Some d).
    { cbn [params set_params]. rewrite Hrest by lia. exact Hd. }
    rewrite (bind_Val _ _ _ _ _
               (update_layer_Val grads _ a d gd PW gW Pb gb Hd' Hgd HPW HgW HsW
                  HPb Hgb Hsb)).
    cbn [params set_params learning_rate]. rewrite set_params_twice.
    destruct (IH (S a)
                (<[a := <["b" := sgd_step (learning_rate s0) Pb gb]>
                          (<["W" := sgd_step (learning_rate s0) PW gW]> d)]> ps_a))
      as (ps' & E & Hinv'); [split; auto | lia | lia | |].
    + split; [now rewrite length_insert|]. split.
      * intros i di gdi Hi Hdi Hgdi. destruct (decide (i = a)) as [->|Hne].
        -- eexists. split; [apply list_lookup_insert_eq; lia|].
           assert (di = d) as -> by congruence.
           assert (gdi = gd) as -> by congruence.
           exists PW, gW, Pb, gb. auto 10.
        -- rewrite list_lookup_insert_ne by lia. apply Hdone; auto. lia.
      * intros i Hi. rewrite list_lookup_insert_ne by lia. apply Hrest. lia.
    + exists ps'. split; [exact E|].
      now replace (a + S m) with (S a + m) by lia.
Qed.

(** [update_parameters], of [SGDNeuralNet] and of [BackpropNeuralNet], is
    not all-or-nothing.  With gradients for the first [k] layers only, it
    updates these layers and then raises [IndexError] at layer [k], whose
    parameters and those of the layers after it stay as they were. *)
Theorem update_parameters_short_gradients s (k : nat) :
  Z.of_nat (length (params s)) = n_layers s ->
  k < length (params s) ->
  aligned (take k (params s)) grads ->
  (exists d PW, params s !! k = Some d /\ d !! "W" = Some PW) ->
  exists ps',
    SGDNeuralNet.update_parameters grads s = (Raise IndexError, set_params ps' s)
    /\ BackpropNeuralNet.update_parameters grads s
       = (Raise IndexError, set_params ps' s)
    /\ updated_upto grads (learning_rate s) (params s) k ps'.
Proof.
  intros Hn Hk Hal (d & PW & Hd & HPW).
  enough (exists ps',
            SGDNeuralNet.update_parameters grads s
            = (Raise IndexError, set_params ps' s)
            /\ updated_upto grads (learning_rate s) (params s) k ps')
    as (ps' & E & Hup) by (exists ps'; auto).
  unfold SGDNeuralNet.update_parameters.
  rewrite (bind_run (gets n_layers) _ s _ s eq_refl). cbv beta iota.
  assert (Hseq : range 0 (n_layers s)
                 = map Z.of_nat (seq 0 k)
                   ++ Z.of_nat k
                      :: map Z.of_nat (seq (S k) (length (params s) - S k))).
  { rewrite range_0, <- Hn, Nat2Z.id.
    set (N := length (params s)) in *.
    replace N with (k + S (N - S k)) at 1 by lia.
    now rewrite seq_app, map_app. }
  rewrite Hseq, for_app. cbn [for_].
  destruct (update_loop_prefix s (params s) k k 0 (params s) Hal ltac:(lia)
              ltac:(lia)) as (ps' & E & Hup).
  { split; [reflexivity|]. split; [intros i di gdi Hi; lia | auto]. }
  rewrite set_params_params in E.
  exists ps'. split; [|exact Hup].
  rewrite (bind_Val _ _ _ _ _ E). apply bind_Raise, bind_Raise.
  destruct Hup as (Hlen & _ & Hrest).
  unfold SGDNeuralNet.update_parameter.
  rewrite (bind_Val _ _ _ PW (set_params ps' s)).
  2:{ apply get_param_Val. exists k, d. cbn [params set_params].
      split; [apply index_of_nonneg; lia|]. split; [|exact HPW].
      rewrite Hrest by lia. exact Hd. }
  rewrite (bind_run (gets learning_rate) _ _ _ _ eq_refl). cbv beta iota.
  apply bind_Raise. unfold lift. rewrite getitem_beyond; [reflexivity|].
  destruct Hal as [Hgl _]. rewrite Hgl, length_take. lia.
Qed.
End update_short.

(** ** The layered network: construction *)

Section conv_constructor.
Context {cat : Type} {layer : Type} `{Layer layer}.
Context {optimizer : Type} `{Optimizers optimizer}.
Local Abbreviation cnet := (ConvolutionNet.t cat layer optimizer).

(** With a solver that is none of the five, no optimizer is appended and
    the subscript [self.optimizers[l]] of the first turn raises. *)
Lemma conv_optimizers_unknown_solver (s : cnet) :
  ~ known_solver (ConvolutionNet.solver s) -> ConvolutionNet.layers s <> [] ->
  ConvolutionNet._initialize_optimizers s
  = (Raise IndexError, ConvolutionNet.set_optimizers [] s).
Proof.
  intros Hsolver Hne. unfold ConvolutionNet._initialize_optimizers.
  rewrite (bind_run (modify _) _ s _ (ConvolutionNet.set_optimizers [] s) eq_refl).
  cbv beta iota.
  rewrite (bind_run (gets ConvolutionNet.layers) _ _ _ _ eq_refl). cbv beta iota.
  cbn [ConvolutionNet.layers ConvolutionNet.set_optimizers].
  destruct (ConvolutionNet.layers s) as [|ly ls] eqn:Hls; [done|].
  unfold enumerate. cbn [length seq map zip zip_with for_].
  apply bind_Raise.
  do 7 (rewrite (bind_run (gets _) _ _ _ _ eq_refl); cbv beta iota).
  cbn [ConvolutionNet.solver ConvolutionNet.set_optimizers].
  unfold known_solver in Hsolver.
  repeat (destruct (decide _) as [Heq|_]; [tauto|]).
  rewrite (bind_run (ret tt) _ _ _ _ eq_refl). cbv beta iota.
  rewrite (bind_run (gets _) _ _ _ _ eq_refl). cbv beta iota.
  apply bind_Raise. cbn [ConvolutionNet.optimizers ConvolutionNet.set_optimizers].
  unfold lift. now rewrite getitem_nil.
Qed.

(** The constructor on a loss it knows, a solver it knows and layers and
    optimizers that can be set up: it gives a network on the list of
    layers it was given, every layer object initialized from the shape
    before it (an object that stands at several positions once for each),
    with one optimizer per position and [n_layers] the length of the
    list. *)
Theorem constructor_builds_the_network
    (layers0 : list ref) (batch_size0 n_iter0 : nat) (loss_type0 : string)
    (learning_rate0 : float) (solver0 : string)
    (momentum0 beta_10 beta_20 epsilon0 : float)
    (h : ref -> layer) (g : generator) :
  loss_type0 = "cross_entropy" \/ loss_type0 = "squared_error" ->
  known_solver solver0 ->
  layers_initialize (layer := layer) ->
  optimizers_initialize (optimizer := optimizer) ->
  exists self : cnet,
    ConvolutionNet.__init__ layers0 batch_size0 n_iter0 loss_type0
      learning_rate0 solver0 momentum0 beta_10 beta_20 epsilon0 (h, g)
    = (Val self, (ConvolutionNet.objects self, ConvolutionNet.np_random self))
    /\ (ConvolutionNet.objects self, ConvolutionNet.np_random self)
       = init_layers None layers0 h g
    /\ ConvolutionNet.layers self = layers0
    /\ ConvolutionNet.n_layers self = Z.of_nat (length layers0)
    /\ length (ConvolutionNet.optimizers self) = length layers0.
Proof.
  intros Hloss Hsolver Hl Ho. unfold ConvolutionNet.__init__.
  rewrite decide_True by (rewrite !elem_of_cons; tauto).
  match goal with
  | |- context [ConvolutionNet._initialize_parameters ?s0] =>
      destruct (conv_initialize_parameters_returns s0 Hl Ho Hsolver)
        as (s1 & -> & Hspec & Hls & Hlen)
  end.
  cbn [ConvolutionNet.layers ConvolutionNet.np_random ConvolutionNet.objects]
    in Hspec, Hls, Hlen.
  exists (ConvolutionNet.set_n_layers
            (Z.of_nat (length (ConvolutionNet.layers s1))) s1).
  split; [reflexivity|].
  cbn [ConvolutionNet.layers ConvolutionNet.np_random ConvolutionNet.n_layers
       ConvolutionNet.objects ConvolutionNet.optimizers ConvolutionNet.set_n_layers].
  split; [exact Hspec|]. split; [exact Hls|].
  split; [now rewrite Hls | exact Hlen].
Qed.

(** The constructor checks [loss_type] and nothing else.  A loss it does
    not know is refused with the message, before anything is drawn or
    initialized; a solver it does not know is not: the layers are
    initialized, and the failure is the [IndexError] of the empty
    optimizer list. *)
Theorem constructor_checks_loss_type_only
    (layers0 : list ref) (batch_size0 n_iter0 : nat) (loss_type0 : string)
    (learning_rate0 : float) (solver0 : string)
    (momentum0 beta_10 beta_20 epsilon0 : float)
    (h : ref -> layer) (g : generator) :
  (loss_type0 <> "cross_entropy" -> loss_type0 <> "squared_error" ->
   ConvolutionNet.__init__ (cat := cat) (optimizer := optimizer)
     layers0 batch_size0 n_iter0 loss_type0
     learning_rate0 solver0 momentum0 beta_10 beta_20 epsilon0 (h, g)
   = (Raise (Exception init_loss_type_message), (h, g)))
  /\ (loss_type0 = "cross_entropy" \/ loss_type0 = "squared_error" ->
      ~ known_solver solver0 -> layers0 <> [] ->
      layers_initialize (layer := layer) ->
      ConvolutionNet.__init__ (cat := cat) (optimizer := optimizer)
        layers0 batch_size0 n_iter0 loss_type0
        learning_rate0 solver0 momentum0 beta_10 beta_20 epsilon0 (h, g)
      = (Raise IndexError, init_layers None layers0 h g)).
Proof.
  split.
  - intros H1 H2. unfold ConvolutionNet.__init__.
    rewrite decide_False; [reflexivity|].
    rewrite !elem_of_cons, elem_of_nil. tauto.
  - intros Hloss Hsolver Hne Hl. unfold ConvolutionNet.__init__.
    rewrite decide_True by (rewrite !elem_of_cons; tauto).
    unfold ConvolutionNet._initialize_parameters.
    match goal with
    | |- context [bind (gets ConvolutionNet.layers) ?k ?s0] =>
        rewrite (bind_run (gets ConvolutionNet.layers) k s0 _ s0 eq_refl);
        cbv beta iota;
        destruct (conv_layers_loop s0 Hl) as (s1 & E1 & Hspec & Hrest)
    end.
    cbn [ConvolutionNet.layers ConvolutionNet.np_random ConvolutionNet.objects]
      in E1, Hspec.
    cbn [ConvolutionNet.layers].
    rewrite (bind_Val _ _ _ _ _ E1).
    rewrite conv_optimizers_unknown_solver.
    + cbn [ConvolutionNet.np_random ConvolutionNet.objects
           ConvolutionNet.set_optimizers].
      now rewrite <- Hspec.
    + now rewrite Hrest.
    + now rewrite Hrest.
Qed.
End conv_constructor.

(** ** The layered network: the passes through the layers *)

Section conv_passes.
Context {cat : Type} {layer : Type} `{Layer layer} {optimizer : Type}.
Local Abbreviation cnet := (ConvolutionNet.t cat layer optimizer).

(** The forward pass as a recursion over the list of layers: the object
    at each position receives what the object before it gave, and is kept
    in the store as its [forward] leaves it, so that an object standing
    at two positions runs twice, the second time as the first left it; at
    the first exception the objects further on stay untouched. *)
Fixpoint forward_all (ls : list ref) (Z : ndarray) (h : ref -> layer)
  : py ndarray * (ref -> layer) :=
  match ls with
  | [] => (Val Z, h)
  | ly :: rest =>
      let '(r, ly') := forward Z (h ly) in
      match r with
      | Val Z' => forward_all rest Z' (<[ly := ly']> h)
      | Raise e => (Raise e, <[ly := ly']> h)
      end
  end.

Lemma conv_set_objects_objects (s : cnet) :
  ConvolutionNet.set_objects (ConvolutionNet.objects s) s = s.
Proof. now destruct s. Qed.

(** A method call on the layer at the end of [done]. *)
Lemma call_layer_at {A} (method : M layer A) (s : cnet) done ly rest :
  ConvolutionNet.layers s = done ++ ly :: rest ->
  ConvolutionNet.call_layer (Z.of_nat (length done)) method s
  = ((method (ConvolutionNet.objects s ly)).1,
     ConvolutionNet.set_objects
       (<[ly := (method (ConvolutionNet.objects s ly)).2]>
          (ConvolutionNet.objects s)) s).
Proof.
  intros Hls. unfold ConvolutionNet.call_layer.
  rewrite (bind_run (gets ConvolutionNet.layers) _ s _ s eq_refl). cbv beta iota.
  assert (Hly : ConvolutionNet.layers s !! length done = Some ly).
  { rewrite Hls, lookup_app_r, Nat.sub_diag by lia. reflexivity. }
  rewrite (bind_run _ _ s _ s (lift_Val _ _ s (getitem_nonneg _ _ _ Hly))).
  cbv beta iota. unfold ConvolutionNet.call_object.
  now destruct (method (ConvolutionNet.objects s ly)) as [r ly'].
Qed.

Lemma forward_loop rest : forall (k : nat) Z (s : cnet),
  for_acc (zip (map Z.of_nat (seq k (length rest))) rest) Z
    (fun '(l, ly) Z_current => ConvolutionNet.call_object ly (forward Z_current)) s
  = ((forward_all rest Z (ConvolutionNet.objects s)).1,
     ConvolutionNet.set_objects
       (forward_all rest Z (ConvolutionNet.objects s)).2 s).
Proof.
  induction rest as [|ly rest IH]; intros k Z s;
    cbn [length seq map zip zip_with for_acc].
  - cbn [forward_all fst snd]. unfold ret. f_equal.
    symmetry. apply conv_set_objects_objects.
  - unfold bind, ConvolutionNet.call_object. cbn [forward_all].
    destruct (forward Z (ConvolutionNet.objects s ly)) as [[Z'|e] ly'];
      [|reflexivity].
    rewrite IH. reflexivity.
Qed.

Lemma conv_predict_onehot_eq (X : ndarray) (s : cnet) :
  ConvolutionNet._predict_onehot X s
  = ((forward_all (ConvolutionNet.layers s) X (ConvolutionNet.objects s)).1,
     ConvolutionNet.set_objects
       (forward_all (ConvolutionNet.layers s) X (ConvolutionNet.objects s)).2 s).
Proof.
  unfold ConvolutionNet._predict_onehot.
  rewrite (bind_run (gets ConvolutionNet.layers) _ s _ s eq_refl). cbv beta iota.
  exact (forward_loop (ConvolutionNet.layers s) 0 X s).
Qed.

(** [_predict_onehot] passes the batch through the layer object at every
    position of the list once, in the order of the list: it gives what
    the recursion over the list gives and keeps every object as its
    [forward] left it; the list of layers stays as it was. *)
Theorem predict_onehot_runs_every_layer (X : ndarray) (s : cnet) :
  ConvolutionNet._predict_onehot X s
  = ((forward_all (ConvolutionNet.layers s) X (ConvolutionNet.objects s)).1,
     ConvolutionNet.set_objects
       (forward_all (ConvolutionNet.layers s) X (ConvolutionNet.objects s)).2 s)
  /\ ConvolutionNet.layers (ConvolutionNet._predict_onehot X s).2
     = ConvolutionNet.layers s.
Proof.
  split; [apply conv_predict_onehot_eq|].
  now rewrite conv_predict_onehot_eq.
Qed.

(** The backward pass as a recursion over the list of layers: the
    positions after a position come first, and the object at the position
    receives what the object after it gave back. *)
Fixpoint backward_all (ls : list ref) (dZ : ndarray) (h : ref -> layer)
  : py ndarray * (ref -> layer) :=
  match ls with
  | [] => (Val dZ, h)
  | ly :: rest =>
      let '(r, h') := backward_all rest dZ h in
      match r with
      | Val dZ' => let '(r', ly') := backward dZ' (h' ly) in (r', <[ly := ly']> h')
      | Raise e => (Raise e, h')
      end
  end.

Lemma backward_all_snoc front ly dZ h :
  backward_all (front ++ [ly]) dZ h
  = match (backward dZ (h ly)).1 with
    | Val dZ' => backward_all front dZ' (<[ly := (backward dZ (h ly)).2]> h)
    | Raise e => (Raise e, <[ly := (backward dZ (h ly)).2]> h)
    end.
Proof.
  induction front as [|x front IH]; cbn [app backward_all].
  - destruct (backward dZ (h ly)) as [[dZ'|e] ly']; reflexivity.
  - rewrite IH. destruct (backward dZ (h ly)) as [[dZ'|e] ly']; reflexivity.
Qed.

Lemma range_down_cons (a : nat) :
  range_down (Z.of_nat a) (-1) = Z.of_nat a :: range_down (Z.of_nat a - 1) (-1).
Proof.
  unfold range_down.
  replace (Z.to_nat (Z.of_nat a - -1)) with (S a) by lia.
  replace (Z.to_nat (Z.of_nat a - 1 - -1)) with a by lia.
  cbn [seq map]. f_equal; [lia|].
  rewrite <- fmap_S_seq, <- list_fmap_compose.
  apply list_fmap_ext. intros i k _. cbn. lia.
Qed.

Lemma backward_loop front : forall tail dZ (s : cnet),
  ConvolutionNet.layers s = front ++ tail ->
  for_acc (range_down (Z.of_nat (length front) - 1) (-1)) dZ
    (fun l dZ => ConvolutionNet.call_layer l (backward dZ)) s
  = ((backward_all front dZ (ConvolutionNet.objects s)).1,
     ConvolutionNet.set_objects
       (backward_all front dZ (ConvolutionNet.objects s)).2 s).
Proof.
  induction front as [|ly front IH] using rev_ind; intros tail dZ s Hls.
  - cbn [length app backward_all fst snd for_acc range_down]. unfold ret. f_equal.
    symmetry. apply conv_set_objects_objects.
  - rewrite length_app, Nat.add_1_r.
    replace (Z.of_nat (S (length front)) - 1)%Z with (Z.of_nat (length front)) by lia.
    rewrite range_down_cons. cbn [for_acc].
    rewrite <- app_assoc in Hls. cbn [app] in Hls.
    rewrite (bind_run _ _ _ _ _ (call_layer_at (backward dZ) s front ly tail Hls)).
    rewrite backward_all_snoc.
    destruct (backward dZ (ConvolutionNet.objects s ly)) as [[dZ'|e] ly'];
      cbn [fst snd]; [|reflexivity].
    rewrite (IH (ly :: tail) dZ'
               (ConvolutionNet.set_objects
                  (<[ly := ly']> (ConvolutionNet.objects s)) s) Hls).
    reflexivity.
Qed.

(** [gradient_backpropagation] on a network that knows its number of
    layers: after the forward pass the object at the last position
    receives the prediction and the target, then the object at every
    position before it, from the last to the first, receives what the
    object after it gave back.  The value is [None]; the objects are kept
    as the passes left them, and when a call raises, the objects not
    reached yet stay as the forward pass left them.  The list of layers
    and everything else in the network are as they were. *)
Theorem gradient_backpropagation_runs_backwards
    (X T Y : ndarray) (s : cnet) (front : list ref) (ly : ref)
    (h1 : ref -> layer) :
  ConvolutionNet.n_layers s = Z.of_nat (length (ConvolutionNet.layers s)) ->
  ConvolutionNet.layers s = front ++ [ly] ->
  forward_all (ConvolutionNet.layers s) X (ConvolutionNet.objects s)
  = (Val Y, h1) ->
  let h2 := <[ly := (backward_loss Y T (h1 ly)).2]> h1 in
  ConvolutionNet.gradient_backpropagation X T s
  = match (backward_loss Y T (h1 ly)).1 with
    | Raise e => (Raise e, ConvolutionNet.set_objects h2 s)
    | Val dZ =>
        (match (backward_all front dZ h2).1 with
         | Val _ => Val tt
         | Raise e => Raise e
         end,
         ConvolutionNet.set_objects (backward_all front dZ h2).2 s)
    end.
Proof.
  intros Hn Hls Hfwd h2. unfold ConvolutionNet.gradient_backpropagation.
  pose proof (conv_predict_onehot_eq X s) as E.
  rewrite Hfwd in E. cbn [fst snd] in E.
  rewrite (bind_run _ _ _ _ _ E). cbv beta iota.
  set (s1 := ConvolutionNet.set_objects h1 s).
  rewrite (bind_run (gets ConvolutionNet.n_layers) _ s1 _ s1 eq_refl).
  cbv beta iota. cbn [ConvolutionNet.n_layers s1 ConvolutionNet.set_objects].
  rewrite Hn, Hls, length_app, Nat.add_1_r.
  replace (Z.of_nat (S (length front)) - 1)%Z with (Z.of_nat (length front)) by lia.
  replace (Z.of_nat (S (length front)) - 2)%Z
    with (Z.of_nat (length front) - 1)%Z by lia.
  assert (Hls1 : ConvolutionNet.layers s1 = front ++ [ly]) by exact Hls.
  rewrite (bind_run _ _ _ _ _
             (call_layer_at (backward_loss Y T) s1 front ly [] Hls1)).
  cbn [ConvolutionNet.objects s1 ConvolutionNet.set_objects]. fold h2.
  destruct (backward_loss Y T (h1 ly)) as [[dZ|e] ly'] eqn:Eloss;
    cbn [fst snd]; [|reflexivity].
  rewrite (bind_run _ _ _ _ _
             (backward_loop front [ly] dZ
                (ConvolutionNet.set_objects h2 s1) Hls)).
  cbn [ConvolutionNet.objects ConvolutionNet.set_objects].
  now destruct (backward_all front dZ h2) as [[dZ'|e] h3].
Qed.

(** A network without layers: the forward pass gives the batch back, and
    the backward pass raises [IndexError] at its first subscript. *)
Theorem gradient_backpropagation_without_layers (X T : ndarray) (s : cnet) :
  ConvolutionNet.layers s = [] ->
  ConvolutionNet._predict_onehot X s = (Val X, s)
  /\ ConvolutionNet.gradient_backpropagation X T s = (Raise IndexError, s).
Proof.
  intros Hls.
  assert (E : ConvolutionNet._predict_onehot X s = (Val X, s)).
  { rewrite conv_predict_onehot_eq.
    rewrite Hls. cbn [forward_all fst snd]. f_equal.
    apply conv_set_objects_objects. }
  split; [exact E|]. unfold ConvolutionNet.gradient_backpropagation.
  rewrite (bind_run _ _ _ _ _ E). cbv beta iota.
  rewrite (bind_run (gets ConvolutionNet.n_layers) _ s _ s eq_refl). cbv beta iota.
  apply bind_Raise. unfold ConvolutionNet.call_layer.
  rewrite (bind_run (gets ConvolutionNet.layers) _ s _ s eq_refl). cbv beta iota.
  apply bind_Raise. unfold lift. rewrite Hls. now rewrite getitem_nil.
Qed.
End conv_passes.

(** ** Minibatches that cannot be drawn *)

Section minibatch_failures.
Context {cat : Type}.
Implicit Types s : NeuralNet cat.

(** [select_minibatch] checks nothing itself.  From a dataset without
    rows it raises the [ValueError] of [np.random.choice], before anything
    is drawn; with a target of fewer rows than the input it raises
    [IndexError] as soon as a drawn row number is beyond the target, the
    draws being made. *)
Theorem select_minibatch_failures (X T : ndarray) s :
  (shape0 X = Val 0 -> batch_size s <> 0 ->
   SGDNeuralNet.select_minibatch X T s = (Raise ValueError, s))
  /\ (forall n sx m st,
        shape X = n :: sx -> shape T = m :: st -> n <> 0 ->
        ~ Forall (fun i => i < m) (drawn_mask n (batch_size s) (np_random s)) ->
        SGDNeuralNet.select_minibatch X T s
        = (Raise IndexError,
           set_np_random (advance (np_random s) (batch_size s)) s)).
Proof.
  split.
  - intros HX Hb. unfold SGDNeuralNet.select_minibatch.
    rewrite (bind_run (lift _) _ s _ s eq_refl), HX. cbv beta iota.
    rewrite (bind_run (gets batch_size) _ s _ s eq_refl). cbv beta iota.
    apply bind_Raise. unfold np_random_choice, choice.
    rewrite decide_True by (split; [reflexivity | exact Hb]).
    now destruct s.
  - intros n sx m st HX HT Hn Hmask. unfold SGDNeuralNet.select_minibatch.
    assert (HX0 : shape0 X = Val n) by (unfold shape0; now rewrite HX).
    rewrite (bind_run (lift _) _ s _ s eq_refl), HX0. cbv beta iota.
    rewrite (bind_run (gets batch_size) _ s _ s eq_refl). cbv beta iota.
    assert (Hlt : Forall (fun i => i < n) (drawn_mask n (batch_size s) (np_random s)))
      by now apply drawn_mask_lt.
    rewrite (bind_run (np_random_choice n (batch_size s)) _ s
               (Val (drawn_mask n (batch_size s) (np_random s)))
               (set_np_random (advance (np_random s) (batch_size s)) s)).
    2:{ unfold np_random_choice. now rewrite (choice_Val n _ _ Hn). }
    cbv beta iota.
    rewrite (bind_run (lift _) _ _ _ _ eq_refl),
      (take_rows_Val X _ n sx HX Hlt). cbv beta iota.
    apply bind_Raise. unfold lift, take_rows. rewrite HT.
    now rewrite decide_False by exact Hmask.
Qed.
End minibatch_failures.

(** ** More worked instances *)

Section more_worked_instances.
#[local] Existing Instance Reference.common.
#[local] Existing Instance Reference.int_labels.
#[local] Existing Instance Reference.dense_layer.
#[local] Existing Instance Reference.optimizers.

(** One iteration of training by backpropagation records one loss. *)
Lemma fit_records_one_loss_per_iteration_example :
  length (train_loss_list
            (BackpropNeuralNet.fit Example.X0 (Encoded Example.T0)
               (Example.net0 2)).2) = 1.
Proof.
  destruct (BackpropNeuralNet.fit Example.X0 (Encoded Example.T0) (Example.net0 2))
    as [[[]|e] s'] eqn:E; [|vm_compute in E; discriminate].
  destruct (fit_records_one_loss_per_iteration Example.X0 (Encoded Example.T0)
              (Example.net0 2) s' (or_intror E)) as (_ & Hlen & _).
  exact Hlen.
Defined.

(** The forward pass in training mode on the network of two layers. *)
Lemma forward_pass_caches_example :
  exists Y Z_intermediate A_intermediate,
    BackpropNeuralNet._predict_onehot_train Example.X0 Example.net2
    = (Val (Y, Z_intermediate, A_intermediate), Example.net2)
    /\ BackpropNeuralNet._predict_onehot Example.X0 Example.net2
       = (Val Y, Example.net2)
    /\ length Z_intermediate = 1.
Proof.
  destruct (BackpropNeuralNet._predict_onehot_train Example.X0 Example.net2)
    as [[[[Y Zs] As]|e] s'] eqn:E; [|vm_compute in E; discriminate].
  destruct (forward_pass_caches Example.X0 Example.net2 Y Zs As s' E)
    as (-> & Epred & HZ & _).
  exists Y, Zs, As. split; [reflexivity|]. split; [exact Epred|].
  rewrite HZ. vm_compute. reflexivity.
Defined.

(** The accuracy on labels leaves an encoder in the network of two
    layers. *)
Lemma accuracy_refits_the_encoder_example :
  exists cats,
    one_hot_encoder_
      (SGDNeuralNet.accuracy Example.X0 (Labels [5; 3]%Z) Example.net2).2
    = Some cats.
Proof.
  destruct (SGDNeuralNet.accuracy Example.X0 (Labels [5; 3]%Z) Example.net2)
    as [[a|e] s'] eqn:E; [|vm_compute in E; discriminate].
  destruct (accuracy_refits_the_encoder _ _ _ _ _ (or_introl E))
    as (cats & _ & ->).
  exists cats. reflexivity.
Defined.

(** The labels predicted once an encoder is there, and the exception
    when there is none. *)
Lemma predict_gives_fitted_categories_example :
  exists (labels cats : list Z),
    (SGDNeuralNet.predict Example.X0
       (set_one_hot_encoder_ (Some [3; 5]%Z) Example.net2)).1 = Val labels
    /\ Forall (fun c => c ∈ cats) labels.
Proof.
  destruct (SGDNeuralNet.predict Example.X0
              (set_one_hot_encoder_ (Some [3; 5]%Z) Example.net2))
    as [[labels|e] s'] eqn:E; [|vm_compute in E; discriminate].
  destruct (predict_gives_fitted_categories _ _ _ _ (or_introl E))
    as (_ & cats & Y & idx & n & k & _ & _ & _ & _ & _ & _ & Hin).
  exists labels, cats. split; [reflexivity | exact Hin].
Defined.

Lemma predict_without_encoder_example :
  SGDNeuralNet.predict Example.X0 Example.net2
  = (Raise (AttributeError "one_hot_encoder_"), Example.net2).
Proof.
  refine (proj1 (predict_without_encoder Example.X0 _ _ _ Example.net2 _ _ _));
    vm_compute; reflexivity.
Defined.

(** A batch of three columns on the network of one layer, whose weight
    matrix has two rows: the loss raises, and so does the engine. *)
Lemma numerical_gradient_raise_leaves_perturbation_example :
  (SGDNeuralNet._numerical_gradient
     (NDArray [1; 3] [F64.one; F64.one; F64.one]) Example.T0 "W" 0
     Example.single).1 = Raise ValueError.
Proof.
  refine (f_equal fst
            (proj1 (numerical_gradient_raise_leaves_perturbation
                      (NDArray [1; 3] [F64.one; F64.one; F64.one]) Example.T0
                      "W" 0
                      (NDArray [2; 2]
                         [F64.one; F64.two; 0x1.8p+1%float; 0x1p+2%float])
                      F64.one ValueError Example.single _ _ _ _ _))).
  - eexists 0, _. repeat split; reflexivity.
  - reflexivity.
  - reflexivity.
  - vm_compute. reflexivity.
Defined.

(** Initialization without layers and with one layer. *)
Lemma initialize_parameters_without_layers_example :
  (SGDNeuralNet._initialize_parameters (Example.net0 0)).1 = Raise IndexError.
Proof.
  exact (f_equal fst
           (initialize_parameters_without_layers (Example.net0 0)
              ltac:(cbn; lia))).
Defined.

Lemma initialize_parameters_single_layer_example :
  (SGDNeuralNet._initialize_parameters (Example.net0 1)).1 = Val tt.
Proof.
  exact (f_equal fst
           (initialize_parameters_single_layer (Example.net0 1) eq_refl)).
Defined.

(** The network of two layers updated with gradients for its first
    layer only, in both classes. *)
Lemma update_parameters_short_gradients_example :
  exists ps',
    SGDNeuralNet.update_parameters
      (unit_gradients (take 1 (params Example.net2))) Example.net2
    = (Raise IndexError, set_params ps' Example.net2)
    /\ BackpropNeuralNet.update_parameters
         (unit_gradients (take 1 (params Example.net2))) Example.net2
       = (Raise IndexError, set_params ps' Example.net2)
    /\ ps' !! 1 = params Example.net2 !! 1.
Proof.
  pose proof (proj2 net2_initialized) as Hstore.
  destruct (update_parameters_short_gradients
              (unit_gradients (take 1 (params Example.net2))) Example.net2 1)
    as (ps' & E & Eb & _ & _ & Hrest).
  - vm_compute. reflexivity.
  - vm_compute. lia.
  - apply unit_gradients_aligned. intros i d Hd.
    apply (consistent_store_weights_and_biases _ Hstore i).
    apply lookup_take_Some in Hd. tauto.
  - destruct (consistent_store_layer Example.net2 1 Hstore)
      as (d & W & b & Hd & HW & _); [vm_compute; lia|]. eauto.
  - exists ps'. split; [exact E|]. split; [exact Eb|]. now apply Hrest.
Defined.

(** The constructor on two dense layers, and on one dense layer object
    at both positions of the list: the shared object is initialized
    twice, the second time for the width it gives itself. *)
Lemma constructor_builds_the_network_example :
  (exists self,
     ConvolutionNet.__init__ (cat := Z) [0; 1] 2 1 "cross_entropy" 0x1p-3%float
       "sgd" 0x1p-1%float 0x1p-1%float 0x1p-1%float 0x1p-20%float
       (Example.store0, Example.gen0)
     = (Val self, (ConvolutionNet.objects self, ConvolutionNet.np_random self))
     /\ ConvolutionNet.n_layers self = 2%Z
     /\ input_shape (ConvolutionNet.objects self 0) = [2]
     /\ input_shape (ConvolutionNet.objects self 1) = [3])
  /\ (exists self,
        ConvolutionNet.__init__ (cat := Z) [0; 0] 2 1 "cross_entropy" 0x1p-3%float
          "sgd" 0x1p-1%float 0x1p-1%float 0x1p-1%float 0x1p-20%float
          (Example.store0, Example.gen0)
        = (Val self, (ConvolutionNet.objects self, ConvolutionNet.np_random self))
        /\ ConvolutionNet.layers self = [0; 0]
        /\ input_shape (ConvolutionNet.objects self 0) = [3]).
Proof.
  split.
  - destruct (constructor_builds_the_network (cat := Z)
                [0; 1] 2 1 "cross_entropy"
                0x1p-3%float "sgd" 0x1p-1%float 0x1p-1%float 0x1p-1%float
                0x1p-20%float Example.store0 Example.gen0)
      as (self & E & Hspec & _ & Hn & _).
    + left. reflexivity.
    + left. reflexivity.
    + intros shp [ly g]. eexists. reflexivity.
    + intros ps o. eexists. reflexivity.
    + exists self. split; [exact E|]. split; [exact Hn|].
      change (input_shape
                ((ConvolutionNet.objects self, ConvolutionNet.np_random self).1 0)
              = [2]
              /\ input_shape
                   ((ConvolutionNet.objects self, ConvolutionNet.np_random self).1 1)
                 = [3]).
      rewrite Hspec. split; vm_compute; reflexivity.
  - destruct (constructor_builds_the_network (cat := Z)
                [0; 0] 2 1 "cross_entropy"
                0x1p-3%float "sgd" 0x1p-1%float 0x1p-1%float 0x1p-1%float
                0x1p-20%float Example.store0 Example.gen0)
      as (self & E & Hspec & Hls & _).
    + left. reflexivity.
    + left. reflexivity.
    + intros shp [ly g]. eexists. reflexivity.
    + intros ps o. eexists. reflexivity.
    + exists self. split; [exact E|]. split; [exact Hls|].
      change (input_shape
                ((ConvolutionNet.objects self, ConvolutionNet.np_random self).1 0)
              = [3]).
      rewrite Hspec. vm_compute. reflexivity.
Defined.

Lemma constructor_checks_loss_type_only_example :
  (ConvolutionNet.__init__ (cat := Z) (optimizer := Reference.optimizer)
     [0; 1] 2 1 "hinge" 0x1p-3%float
     "sgd" 0x1p-1%float 0x1p-1%float 0x1p-1%float 0x1p-20%float
     (Example.store0, Example.gen0)).1
  = Raise (Exception init_loss_type_message)
  /\ (ConvolutionNet.__init__ (cat := Z) (optimizer := Reference.optimizer)
        [0; 1] 2 1 "cross_entropy" 0x1p-3%float
        "lion" 0x1p-1%float 0x1p-1%float 0x1p-1%float 0x1p-20%float
        (Example.store0, Example.gen0)).1 = Raise IndexError.
Proof.
  split.
  - refine (f_equal fst
              (proj1 (constructor_checks_loss_type_only (cat := Z)
                        (optimizer := Reference.optimizer)
                        [0; 1] 2 1 "hinge"
                        0x1p-3%float "sgd" 0x1p-1%float 0x1p-1%float
                        0x1p-1%float 0x1p-20%float Example.store0 Example.gen0)
                 _ _)); discriminate.
  - refine (f_equal fst
              (proj2 (constructor_checks_loss_type_only (cat := Z)
                        (optimizer := Reference.optimizer)
                        [0; 1] 2 1 "cross_entropy"
                        0x1p-3%float "lion" 0x1p-1%float 0x1p-1%float
                        0x1p-1%float 0x1p-20%float Example.store0 Example.gen0)
                 _ _ _ _)).
    + left. reflexivity.
    + intros [E|[E|[E|[E|E]]]]; discriminate E.
    + discriminate.
    + intros shp [ly g]. eexists. reflexivity.
Defined.

(** The backward pass of the layered network, and of a network without
    layers. *)
Lemma gradient_backpropagation_runs_backwards_example :
  (ConvolutionNet.gradient_backpropagation Example.X0 Example.T0
     Example.conv2).1 = Val tt.
Proof.
  let r := eval vm_compute in
             (forward_all (ConvolutionNet.layers Example.conv2) Example.X0
                (ConvolutionNet.objects Example.conv2)).1 in
  lazymatch r with
  | Val ?Y =>
      rewrite (gradient_backpropagation_runs_backwards Example.X0 Example.T0 Y
                 Example.conv2 [0] 1
                 (forward_all (ConvolutionNet.layers Example.conv2) Example.X0
                    (ConvolutionNet.objects Example.conv2)).2)
  end.
  - vm_compute. reflexivity.
  - vm_compute. reflexivity.
  - vm_compute. reflexivity.
  - vm_compute. reflexivity.
Defined.

Lemma gradient_backpropagation_without_layers_example :
  ConvolutionNet.gradient_backpropagation Example.X0 Example.T0 Example.bare
  = (Raise IndexError, Example.bare).
Proof.
  exact (proj2 (gradient_backpropagation_without_layers Example.X0 Example.T0
                  Example.bare eq_refl)).
Defined.

(** No minibatch out of a dataset without rows. *)
Lemma select_minibatch_failures_example :
  SGDNeuralNet.select_minibatch (NDArray [0; 2] []) Example.T0 (Example.net0 2)
  = (Raise ValueError, Example.net0 2).
Proof.
  exact (proj1 (select_minibatch_failures (NDArray [0; 2] []) Example.T0
                  (Example.net0 2)) eq_refl ltac:(discriminate)).
Defined.
End more_worked_instances.

(** ** What training starts from *)

Lemma bind_same_run {S A B} (c : M S A) (k : A -> M S B) s1 s2 :
  c s1 = c s2 -> bind c k s1 = bind c k s2.
Proof. intros E. unfold bind. now rewrite E. Qed.

Section fresh_start.
Context {cat : Type} `{Category cat} `{Common}.
Implicit Types s : NeuralNet cat.

(** Training starts from scratch: [fit] assigns the store before it
    reads it, so that the parameters the object held, trained or not, do
    not bear on the outcome. *)
Theorem fit_forgets_the_parameters (X : ndarray) (T : targets cat)
    (ps : list (gmap string ndarray)) s :
  SGDNeuralNet._initialize_parameters (set_params ps s)
  = SGDNeuralNet._initialize_parameters s
  /\ SGDNeuralNet.fit X T (set_params ps s) = SGDNeuralNet.fit X T s
  /\ BackpropNeuralNet.fit X T (set_params ps s) = BackpropNeuralNet.fit X T s.
Proof.
  assert (Hinit : SGDNeuralNet._initialize_parameters (set_params ps s)
                  = SGDNeuralNet._initialize_parameters s) by reflexivity.
  split; [exact Hinit|].
  split.
  - unfold SGDNeuralNet.fit. apply bind_same_run. exact Hinit.
  - unfold BackpropNeuralNet.fit. apply bind_same_run. exact Hinit.
Qed.
End fresh_start.

(** ** The numerical engine returns *)

(** The loss functions of [common] return on a prediction and a target
    of one shape. *)
Class LossContract `{Common} : Prop := {
  cross_entropy_error_returns Y T n o :
    shape Y = [n; o] -> shape T = [n; o] -> returns (cross_entropy_error Y T);
  squared_error_returns Y T n o :
    shape Y = [n; o] -> shape T = [n; o] -> returns (squared_error Y T) }.

Section consistent_store_kept.
Context {cat : Type}.
Implicit Types s : NeuralNet cat.

(** A parameter replaced by an array of its shape leaves the store
    consistent. *)
Lemma consistent_store_with_param s k d name P P' :
  consistent_store s -> params s !! k = Some d -> d !! name = Some P ->
  name = "W" \/ name = "b" -> shape P' = shape P -> well_formed P' ->
  consistent_store (with_param k d name P' s).
Proof.
  intros (Hlen & Hl & Hw) Hd HP Hname Hshape Hwf.
  assert (Hk : k < length (params s)) by (eapply lookup_lt_Some; eauto).
  split; [|split].
  - unfold with_param. cbn [params set_params n_layers].
    now rewrite length_insert.
  - intros i di Hdi. unfold with_param in Hdi. cbn [params set_params] in Hdi.
    change (layer_built (width_in s i) (width_out s (Z.to_nat (n_layers s)) i)
              true true di).
    destruct (decide (i = k)) as [->|Hne].
    + rewrite list_lookup_insert_eq in Hdi by exact Hk. injection Hdi as <-.
      destruct (Hl k d Hd) as (Hdom & HW & Hb). split; [|split].
      * assert (Hin : name ∈ dom d) by (eapply elem_of_dom_2; eauto).
        rewrite <- Hdom, dom_insert_L.
        now apply subseteq_union_1_L, singleton_subseteq_l.
      * intros W. destruct Hname as [-> | ->].
        -- rewrite lookup_insert_eq. intros [= <-].
           destruct (HW P HP) as [Hs _]. split; [congruence | exact Hwf].
        -- rewrite lookup_insert_ne by done. apply HW.
      * intros v. destruct Hname as [-> | ->].
        -- rewrite lookup_insert_ne by done. apply Hb.
        -- rewrite lookup_insert_eq. intros [= <-].
           destruct (Hb P HP) as [Hs _]. split; [congruence | exact Hwf].
    + rewrite list_lookup_insert_ne in Hdi by congruence. now apply Hl.
  - exact Hw.
Qed.
End consistent_store_kept.

Section numerical_engine_returns.
Context {cat : Type} `{Category cat} `{ShapeContract} `{!LossContract}.
Variables (X T : ndarray) (m : nat).

(** What the engine needs of a network and a batch. *)
Definition trainable (s : NeuralNet cat) : Prop :=
  consistent_store s /\ (2 <= n_layers s)%Z
  /\ shape X = [m; input_size s] /\ shape T = [m; output_size s]
  /\ (activation_function s = "relu" \/ activation_function s = "sigmoid")
  /\ (loss_type s = "cross_entropy" \/ loss_type s = "squared_error").

Lemma trainable_loss_returns s :
  trainable s -> returns (SGDNeuralNet._loss X T s).1.
Proof using All.
  intros (Hstore & Hn & HX & HT & Hact & Hloss).
  destruct (forward_train_shapes s X T m Hstore Hn HX HT Hact)
    as (Y & Zs & As & Efwd & HY & _).
  pose proof (predict_onehot_of_train X Y Zs As s s Efwd) as Epred.
  unfold SGDNeuralNet._loss. rewrite (bind_Val _ _ _ _ _ Epred).
  rewrite (bind_run (gets loss_type) _ s _ s eq_refl). cbv beta iota.
  destruct Hloss as [-> | ->].
  - rewrite decide_True by reflexivity.
    destruct (cross_entropy_error_returns Y T m _ HY HT) as [v ->].
    now exists v.
  - rewrite decide_False by discriminate. rewrite decide_True by reflexivity.
    destruct (squared_error_returns Y T m _ HY HT) as [v ->].
    now exists v.
Qed.

Lemma trainable_with_param s k d name P P' :
  trainable s -> params s !! k = Some d -> d !! name = Some P ->
  name = "W" \/ name = "b" -> shape P' = shape P -> well_formed P' ->
  trainable (with_param k d name P' s).
Proof using Type.
  intros (Hstore & Hrest) Hd HP Hname Hs Hwf.
  split; [|exact Hrest]. now apply (consistent_store_with_param s k d name P).
Qed.

Lemma trainable_numerical_gradient s (k : nat) name :
  trainable s -> k < Z.to_nat (n_layers s) -> name = "W" \/ name = "b" ->
  exists g, SGDNeuralNet._numerical_gradient X T name (Z.of_nat k) s = (Val g, s).
Proof using All.
  intros Htr Hk Hname. pose proof Htr as (Hstore & _).
  destruct (consistent_store_layer s k Hstore Hk)
    as (d & W & b & Hd & HW & Hb & _).
  destruct Hstore as (_ & Hl & _). destruct (Hl k d Hd) as (_ & HWs & Hbs).
  assert (Hidx : index_of (params s) (Z.of_nat k) = Some k).
  { apply index_of_nonneg. eapply lookup_lt_Some; eauto. }
  assert (HP : exists P, d !! name = Some P /\ well_formed P).
  { destruct Hname as [-> | ->]; eexists; split; eauto.
    - now apply HWs. - now apply Hbs. }
  destruct HP as (P & HP & Hwf).
  apply (numerical_gradient_returns X T name (Z.of_nat k) s k d P Hidx Hd HP Hwf).
  intros idx Hlt. split.
  - apply trainable_loss_returns.
    apply (trainable_with_param s k d name P); auto.
    unfold plus, well_formed. cbn [shape data].
    rewrite length_perturbed_data. exact Hwf.
  - apply trainable_loss_returns.
    apply (trainable_with_param s k d name P); auto.
    unfold minus, well_formed. cbn [shape data].
    rewrite length_perturbed_data. exact Hwf.
Qed.

(** On a network of two layers or more with a consistent store, and a
    batch of its widths, the numerical engine returns: a gradient set
    aligned with the store, the object being left as it was. *)
Theorem numerical_gradient_all_returns s :
  trainable s ->
  exists grads,
    SGDNeuralNet.numerical_gradient_all X T s = (Val grads, s)
    /\ aligned (params s) grads.
Proof using All.
  intros Htr. pose proof Htr as ((Hlen & _) & Hn & _).
  set (N := Z.to_nat (n_layers s)).
  unfold SGDNeuralNet.numerical_gradient_all.
  rewrite (bind_run (gets n_layers) _ s _ s eq_refl). cbv beta iota.
  rewrite range_0. fold N.
  destruct (for_acc_invariant (done_upto s N) (map Z.of_nat (seq 0 N))
              (layer_body X T) s) with (a := replicate N (∅ : gmap string ndarray))
    as (grads & E & Hdone).
  - intros k i grads Hi Hinv.
    rewrite list_lookup_fmap in Hi.
    destruct (seq 0 N !! k) as [j|] eqn:Hj; [|discriminate].
    apply lookup_seq in Hj as [-> Hk]. cbn in Hi. injection Hi as <-.
    assert (Hret : exists g, layer_body X T (Z.of_nat k) grads s = (Val g, s)).
    { unfold layer_body.
      destruct (trainable_numerical_gradient s k "W" Htr Hk) as (gW & EW); [auto|].
      rewrite (bind_Val _ _ _ _ _ EW).
      destruct Hinv as (Hgl & _ & Hrest).
      assert (Hg : grads !! k = Some ∅) by (apply Hrest; lia).
      assert (Hgi : index_of grads (Z.of_nat k) = Some k)
        by (apply index_of_nonneg; lia).
      rewrite (bind_Val _ _ _ _ _
                 (lift_Val _ _ s (dicts_set_Val grads _ "W" gW k ∅ Hgi Hg))).
      destruct (trainable_numerical_gradient s k "b" Htr Hk) as (gb & Eb); [auto|].
      rewrite (bind_Val _ _ _ _ _ Eb).
      eexists. apply lift_Val.
      apply (dicts_set_Val _ _ "b" gb k (<["W" := gW]> ∅)).
      - apply index_of_nonneg. rewrite length_insert. lia.
      - apply list_lookup_insert_eq. lia. }
    destruct Hret as (g & Eg). exists g. split; [exact Eg|].
    now destruct (layer_body_inv X T s N k grads g s Hk Hinv Eg).
  - split; [apply length_replicate|]. split; [intros i; lia|].
    intros i Hi. apply lookup_replicate_2. lia.
  - exists grads. split; [exact E|].
    rewrite length_map, length_seq in Hdone.
    apply done_aligned; [lia | exact Hdone].
Qed.
End numerical_engine_returns.

Lemma reference_loss_contract : @LossContract Reference.common.
Proof.
  split; cbn [cross_entropy_error squared_error Reference.common].
  - intros Y T n o HY HT. unfold Reference.cross_entropy_error.
    rewrite HY. rewrite decide_True by exact HT. eexists. reflexivity.
  - intros Y T n o HY HT. unfold Reference.squared_error.
    rewrite decide_True by congruence. eexists. reflexivity.
Qed.

(** ** The encoding of a label vector *)

Section label_encoding.
Context {cat : Type} `{Category cat}.
Implicit Types s : NeuralNet cat.

Lemma length_bind_indicator (cats l : list cat) :
  length (l ≫= indicator cats) = length l * length cats.
Proof.
  induction l as [|x l IH]; [reflexivity|].
  cbn [mbind list_bind]. change (length ((indicator cats x) ++ (l ≫= indicator cats))
    = length (x :: l) * length cats).
  rewrite length_app, IH, length_indicator. cbn. lia.
Qed.

(** [_one_hot_encoding] on a label vector: an empty vector is refused;
    otherwise the encoder keeps every label seen, once, and the result
    has one row per label and one column per category, the row of a
    label being the indicator of its category. *)
Theorem one_hot_encoding_of_labels (l : list cat) s :
  (l = [] ->
   SGDNeuralNet._one_hot_encoding (Labels l) s = (Raise ValueError, s))
  /\ (l <> [] ->
      exists cats T_onehot,
        SGDNeuralNet._one_hot_encoding (Labels l) s
        = (Val T_onehot, set_one_hot_encoder_ (Some cats) s)
        /\ NoDup cats /\ (forall y, y ∈ cats <-> y ∈ l)
        /\ shape T_onehot = [length l; length cats]
        /\ well_formed T_onehot
        /\ forall i y, l !! i = Some y ->
             row (length cats) (data T_onehot) i = indicator cats y).
Proof.
  split.
  - intros ->. reflexivity.
  - intros Hne. destruct l as [|x l]; [done|].
    destruct (fit_spec x l) as (cats & Hfit & Hnd & Hin).
    exists cats, (NDArray [length (x :: l); length cats] ((x :: l) ≫= indicator cats)).
    split; [|split; [exact Hnd|split; [exact Hin|split; [reflexivity|split]]]].
    + cbn [SGDNeuralNet._one_hot_encoding].
      rewrite (bind_Val _ _ _ _ _ (lift_Val _ _ s Hfit)).
      rewrite (bind_run (modify _) _ s _ _ eq_refl). cbv beta iota.
      unfold lift, OneHotEncoder_transform.
      rewrite decide_True; [reflexivity|].
      apply Forall_forall. intros y Hy. now apply Hin.
    + unfold well_formed. cbn [shape data prod_shape foldr].
      rewrite length_bind_indicator. lia.
    + intros i y Hy. cbn [data].
      apply (row_bind (indicator cats) (length cats) (x :: l) i y);
        [|exact Hy].
      intros z. apply length_indicator.
Qed.
End label_encoding.

(** ** Accuracy on a target of one row *)

Section accuracy_broadcast.
Context {cat : Type} `{Category cat} `{Common}.
Context {layer : Type} `{Layer layer} {optimizer : Type} `{Optimizers optimizer}.

Lemma count_equal_single (Y_label : list Z) (t : Z) :
  length Y_label <> 1 ->
  count_equal Y_label [t]
  = Val (Z.of_nat (length (filter (fun y => y = t) Y_label))).
Proof.
  intros Hlen. unfold count_equal.
  rewrite decide_False by exact Hlen.
  destruct Y_label as [|y [|y' l]]; [reflexivity | done | reflexivity].
Qed.

(** [accuracy] does not compare the number of target rows with the number
    of samples.  A target of one row is broadcast by [Y_test_label ==
    T_test_label]: its arg-max index is compared with that of every row
    of the prediction, and the count is divided by the number of rows of
    [X_test].  This holds for the three classes. *)
Theorem accuracy_single_target_row (X_test : ndarray) (T_test : targets cat)
    (T_onehot Y_test : ndarray) (Y_label : list Z) (t : Z) (n : nat) :
  argmax_axis1 Y_test = Val Y_label -> argmax_axis1 T_onehot = Val [t] ->
  length Y_label <> 1 -> shape0 X_test = Val n ->
  let a := PrimFloat.div
             (F64.of_Z (Z.of_nat (length (filter (fun y => y = t) Y_label))))
             (F64.of_Z (Z.of_nat n)) in
  (forall s s1 s2 : NeuralNet cat,
     SGDNeuralNet._one_hot_encoding T_test s = (Val T_onehot, s1) ->
     SGDNeuralNet._predict_onehot X_test s1 = (Val Y_test, s2) ->
     SGDNeuralNet.accuracy X_test T_test s = (Val a, s2))
  /\ (forall s s1 s2 : NeuralNet cat,
        BackpropNeuralNet._one_hot_encoding T_test s = (Val T_onehot, s1) ->
        BackpropNeuralNet._predict_onehot X_test s1 = (Val Y_test, s2) ->
        BackpropNeuralNet.accuracy X_test T_test s = (Val a, s2))
  /\ (forall s s1 s2 : ConvolutionNet.t cat layer optimizer,
        ConvolutionNet._one_hot_encoding T_test s = (Val T_onehot, s1) ->
        ConvolutionNet._predict_onehot X_test s1 = (Val Y_test, s2) ->
        ConvolutionNet.accuracy X_test T_test s = (Val a, s2)).
Proof.
  intros HY HT Hlen Hn a.
  assert (Htail : forall S (s : S),
            (let* Y_test_label := lift (argmax_axis1 Y_test) in
             let* T_test_label := lift (argmax_axis1 T_onehot) in
             let* matches := lift (count_equal Y_test_label T_test_label) in
             let* n := lift (shape0 X_test) in
             ret (PrimFloat.div (F64.of_Z matches) (F64.of_Z (Z.of_nat n)))) s
            = (Val a, s)).
  { intros S s. unfold bind, lift, ret.
    now rewrite HY, HT, (count_equal_single _ _ Hlen), Hn. }
  split; [|split]; intros s s1 s2 E1 E2.
  - unfold SGDNeuralNet.accuracy.
    rewrite (bind_Val _ _ _ _ _ E1), (bind_Val _ _ _ _ _ E2). apply Htail.
  - unfold BackpropNeuralNet.accuracy.
    rewrite (bind_Val _ _ _ _ _ E1), (bind_Val _ _ _ _ _ E2). apply Htail.
  - unfold ConvolutionNet.accuracy.
    rewrite (bind_Val _ _ _ _ _ E1), (bind_Val _ _ _ _ _ E2). apply Htail.
Qed.
End accuracy_broadcast.

Section numerical_engine_instance.
#[local] Existing Instance Reference.common.
#[local] Existing Instance Reference.int_labels.
#[local] Existing Instance Reference.dense_layer.
#[local] Existing Instance Reference.optimizers.
#[local] Existing Instance reference_shape_contract.
#[local] Existing Instance reference_loss_contract.

(** The numerical engine on the network of two layers. *)
Lemma numerical_gradient_all_returns_example :
  exists grads,
    SGDNeuralNet.numerical_gradient_all Example.X0 Example.T0 Example.net2
    = (Val grads, Example.net2)
    /\ aligned (params Example.net2) grads.
Proof.
  apply (numerical_gradient_all_returns Example.X0 Example.T0 2 Example.net2).
  split; [exact (proj2 net2_initialized)|].
  split; [vm_compute; discriminate|].
  split; [reflexivity|]. split; [reflexivity|].
  split; left; reflexivity.
Defined.

(** The encoding of two labels. *)
Lemma one_hot_encoding_of_labels_example :
  exists cats T_onehot,
    SGDNeuralNet._one_hot_encoding (Labels [5; 3]%Z) (Example.net0 2)
    = (Val T_onehot, set_one_hot_encoder_ (Some cats) (Example.net0 2))
    /\ shape T_onehot = [2; length cats].
Proof.
  destruct (proj2 (one_hot_encoding_of_labels [5; 3]%Z (Example.net0 2))
              ltac:(discriminate))
    as (cats & T1 & E & _ & _ & Hs & _).
  exists cats, T1. split; [exact E | exact Hs].
Defined.

(** The batch of two samples against a target of one row: one of the two
    predictions has the target's index, and the accuracy is one half. *)
Lemma accuracy_single_target_row_example :
  SGDNeuralNet.accuracy Example.X0
    (Encoded (NDArray [1; 2] [F64.one; F64.zero])) Example.net2
  = (Val 0x1p-1%float, Example.net2).
Proof.
  let r := eval vm_compute in
      (SGDNeuralNet._predict_onehot Example.X0 Example.net2).1 in
  lazymatch r with
  | Val ?Y =>
      destruct (accuracy_single_target_row (layer := Reference.dense)
                  (optimizer := Reference.optimizer)
                  Example.X0 (Encoded (NDArray [1; 2] [F64.one; F64.zero]))
                  (NDArray [1; 2] [F64.one; F64.zero]) Y [0; 1]%Z 0%Z 2)
        as (Hsgd & _);
        [vm_compute; reflexivity | vm_compute; reflexivity | discriminate
        | vm_compute; reflexivity |];
      rewrite (Hsgd Example.net2 Example.net2 Example.net2 eq_refl)
        by (vm_compute; reflexivity)
  end.
  vm_compute. reflexivity.
Defined.
End numerical_engine_instance.
